(** * Snapshot loader (be/src/runtime/snapshot_loader.cpp)

    A shallow embedding of the snapshot transfer engine of the backend:
    the path codec, the progress reporter, the upload, download and
    peer-pull orchestrators and the tablet promotion, followed by the
    properties of the specification that were checked against it. *)

From Stdlib Require Import ZArith Ascii String.
From stdpp Require Import base decidable option list sorting strings pretty gmap fin_maps.

Local Open Scope string_scope.
Local Open Scope Z_scope.

(** ** Status and results *)

(** The error codes this file produces.  [OTHER_ERROR] stands for any
    code an adapter (file system, storage engine) hands back. *)
Inductive ErrorCode :=
  | OK
  | INTERNAL_ERROR
  | RUNTIME_ERROR
  | IO_ERROR
  | CANCELLED
  | OBTAIN_LOCK_FAILED
  | FATAL_ERROR
  | EXCEEDED_LIMIT
  | OTHER_ERROR (n : Z).

Global Instance ErrorCode_eq_dec : EqDecision ErrorCode.
Proof. solve_decision. Defined.

Record Status := mkStatus { code : ErrorCode; msg : string }.

Global Instance Status_eq_dec : EqDecision Status.
Proof. solve_decision. Defined.

Definition StatusOK : Status := mkStatus OK "".
Definition InternalError (m : string) : Status := mkStatus INTERNAL_ERROR m.
Definition RuntimeError (m : string) : Status := mkStatus RUNTIME_ERROR m.
Definition IOError (m : string) : Status := mkStatus IO_ERROR m.
Definition Cancelled (m : string) : Status := mkStatus CANCELLED m.
Definition ObtainLockFailed (m : string) : Status := mkStatus OBTAIN_LOCK_FAILED m.
Definition FatalError (m : string) : Status := mkStatus FATAL_ERROR m.
Definition ExceededLimit (m : string) : Status := mkStatus EXCEEDED_LIMIT m.

(** [Status::ok()] *)
Definition ok (st : Status) : bool := bool_decide (code st = OK).

(** A function that returns a [Status] and fills its out-parameters when
    the status is OK. *)
Inductive Result (A : Type) :=
  | Ok (a : A)
  | Err (st : Status).
Arguments Ok {A} a.
Arguments Err {A} st.

(** ** std::string operations *)

(** Positions are [size_t]; [npos] is the largest value of the type. *)
Definition size_pos := option nat.
Definition npos : size_pos := None.

(** [pos - 1] on [size_t]: at [pos = 0] the subtraction wraps around to
    the largest value, which is [npos]. *)
Definition pos_minus_1 (pos : nat) : size_pos :=
  match pos with
  | O => npos
  | S p => Some p
  end.

(** Index of the last occurrence of [c] in [s]. *)
Fixpoint last_index (c : ascii) (s : string) : option nat :=
  match s with
  | EmptyString => None
  | String a s' =>
      match last_index c s' with
      | Some i => Some (S i)
      | None => if Ascii.eqb a c then Some O else None
      end
  end.

(** [s.find_last_of(c, pos)]: the last occurrence of [c] at an index not
    after [pos]; the whole string is searched when [pos] is [npos]. *)
Definition find_last_of (s : string) (c : ascii) (pos : size_pos) : option nat :=
  match pos with
  | None => last_index c s
  | Some p => last_index c (substring 0 (S p) s)
  end.

(** [s.substr(pos, count)]; [count = npos] takes the rest of the string.
    Every call below has [pos <= s.size()], so the out-of-range exception
    of [substr] cannot be raised. *)
Definition substr (s : string) (pos : nat) (count : size_pos) : string :=
  match count with
  | None => substring pos (String.length s - pos) s
  | Some n => substring pos n s
  end.

(** [_end_with] *)
Definition _end_with (str match_ : string) : bool :=
  (String.length match_ <=? String.length str)%nat &&
  String.eqb
    (substring (String.length str - String.length match_) (String.length match_) str)
    match_.

(** ** Formatted extraction of an integer ([stringstream >> int]) *)

Fixpoint skip_ws (s : string) : string :=
  match s with
  | String c s' => if Ascii.is_space c then skip_ws s' else s
  | EmptyString => EmptyString
  end.

Definition digit_of (c : ascii) : option Z := Z.of_nat <$> Ascii.is_nat c.

Fixpoint read_digits (s : string) (acc : Z) : Z :=
  match s with
  | String c s' =>
      match digit_of c with
      | Some d => read_digits s' (10 * acc + d)
      | None => acc
      end
  | EmptyString => acc
  end.

Definition starts_with_digit (s : string) : bool :=
  match s with
  | String c _ => bool_decide (is_Some (digit_of c))
  | EmptyString => false
  end.

Definition clamp (lo hi v : Z) : Z :=
  if v <? lo then lo else if hi <? v then hi else v.

(** The value of [x] after [ss >> x] for a fresh stream holding [s] and
    an integer [x] of range [lo..hi] that held [old].  Leading white
    space is skipped; when nothing follows, the extraction fails before
    anything is read and [x] keeps [old].  Otherwise an optional sign and
    the decimal digits that follow are read: without a digit the
    extraction fails and stores 0, out of range it fails and stores the
    nearest bound.  The callers never look at the fail bit. *)
Definition extract_int (lo hi old : Z) (s : string) : Z :=
  match skip_ws s with
  | EmptyString => old
  | s1 =>
      let '(neg, s2) :=
        match s1 with
        | String "-"%char r => (true, r)
        | String "+"%char r => (false, r)
        | _ => (false, s1)
        end in
      if starts_with_digit s2
      then clamp lo hi (if neg then - read_digits s2 0 else read_digits s2 0)
      else 0
  end.

Definition extract_int32 : Z → string → Z := extract_int (- 2 ^ 31) (2 ^ 31 - 1).
Definition extract_int64 : Z → string → Z := extract_int (- 2 ^ 63) (2 ^ 63 - 1).

(** An automatic variable that is read before it was written has an
    indeterminate value; 0 stands for it. *)
Definition uninitialized : Z := 0.

(** ** Path codec *)

Definition slash : ascii := "/"%char.

(** [_get_tablet_id_and_schema_hash_from_file_path]: the pair
    [(tablet_id, schema_hash)] on success.  Every caller passes
    variables that hold 0.  (On the second error return the source has
    already stored into [*schema_hash]; every caller drops its locals on
    error.) *)
Definition _get_tablet_id_and_schema_hash_from_file_path (src_path : string)
  : Result (Z * Z) :=
  match find_last_of src_path slash npos with
  | None => Err (InternalError ("failed to get tablet id from path: " +:+ src_path))
  | Some pos =>
      if bool_decide (pos = (String.length src_path - 1)%nat)
      then Err (InternalError ("failed to get tablet id from path: " +:+ src_path))
      else
        let schema_hash_str := substr src_path (pos + 1) npos in
        let schema_hash := extract_int32 0 schema_hash_str in
        (* skip schema hash part *)
        match find_last_of src_path slash (pos_minus_1 pos) with
        | None => Err (InternalError ("failed to get tablet id from path: " +:+ src_path))
        | Some pos2 =>
            let tablet_str := substr src_path (pos2 + 1) (Some (pos - pos2)%nat) in
            let tablet_id := extract_int64 0 tablet_str in
            Ok (tablet_id, schema_hash)
        end
  end.

(** [_replace_tablet_id]; [ss << tablet_id] prints the decimal form. *)
Definition _replace_tablet_id (file_name : string) (tablet_id : Z) : Result string :=
  if _end_with file_name ".hdr" then Ok (pretty tablet_id +:+ ".hdr")
  else if _end_with file_name ".idx" || _end_with file_name ".dat" then Ok file_name
  else Err (InternalError ("invalid tablet file name: " +:+ file_name)).

(** [_get_tablet_id_from_remote_path]; [tablet_id] is what the
    caller's variable holds on entry. *)
Definition _get_tablet_id_from_remote_path (remote_path : string) (tablet_id : Z)
  : Result Z :=
  match find_last_of remote_path "_"%char npos with
  | None => Err (InternalError ("invalid remove file path: " +:+ remote_path))
  | Some pos => Ok (extract_int64 tablet_id (substr remote_path (pos + 1) npos))
  end.

(** ** Machine integers *)

(** The value of an [int]: conversions from [size_t] and increments are
    taken modulo 2^32 into the signed range. *)
Definition to_int32 (z : Z) : Z := (z + 2 ^ 31) mod 2 ^ 32 - 2 ^ 31.

(** [++i] on an [int] *)
Definition int_incr (i : Z) : Z := to_int32 (i + 1).

(** ** Maps of the standard library *)

(** [m.emplace(k, v)]: nothing happens when [k] is already a key. *)
Definition emplace `{Countable K} {V} (k : K) (v : V) (m : gmap K V) : gmap K V :=
  match m !! k with
  | Some _ => m
  | None => <[k:=v]> m
  end.

(** Iteration over a [std::map] with string keys visits the entries in
    the order of their keys. *)
Definition key_le {V} (a b : string * V) : Prop := String.le a.1 b.1.

Global Instance key_le_dec {V} : RelDecision (@key_le V).
Proof. intros a b. unfold key_le. apply _. Defined.

Definition entries {V} (m : gmap string V) : list (string * V) :=
  merge_sort key_le (map_to_list m).

(** [std::find(v.begin(), v.end(), x)]: the index of the first element
    equal to [x]. *)
Fixpoint find_index (x : string) (v : list string) : option nat :=
  match v with
  | [] => None
  | y :: v' => if String.eqb y x then Some O else S <$> find_index x v'
  end.

(** ** Collaborators *)

(** [io::FileSystemType] is declared in io/fs/file_system.h; the switch
    of [upload_with_checksum] names three of its values, every other
    value is [OTHER_TYPE] with its integer. *)
Inductive FileSystemType :=
  | S3
  | HDFS
  | BROKER
  | OTHER_TYPE (tag : Z).

(** [io::FileInfo] *)
Record FileInfo := mkFileInfo { file_name : string; file_size : Z }.

(** [FileStat]: an entry of a checksummed remote listing. *)
Module FileStat.
Record t := mk { name : string; md5 : string; size : Z }.
End FileStat.
Abbreviation FileStat := FileStat.t.

(** [LocalFileStat] and [RemoteFileStat] of [remote_http_download]. *)
Module LocalFileStat.
Record t := mk { size : Z; md5 : string }.
End LocalFileStat.
Abbreviation LocalFileStat := LocalFileStat.t.

Module RemoteFileStat.
Record t := mk { url : string; md5 : string; size : Z }.
End RemoteFileStat.
Abbreviation RemoteFileStat := RemoteFileStat.t.

Inductive TTaskType := UPLOAD | DOWNLOAD.

(** [TStatusCode] of the frontend's answer; only [CANCELLED] is told
    apart by this file. *)
Inductive TStatusCode :=
  | TStatusCode_OK
  | TStatusCode_CANCELLED
  | TStatusCode_OTHER (n : Z).

Global Instance TStatusCode_eq_dec : EqDecision TStatusCode.
Proof. solve_decision. Defined.

Record TSnapshotLoaderReportRequest := mkReport {
  req_job_id : Z;
  req_task_id : Z;
  req_task_type : TTaskType;
  req_finished_num : Z;
  req_total_num : Z
}.

(** [DataDir], known here by its path. *)
Record DataDir := mkDataDir { dir_path : string }.

(** [Tablet], as far as this file reads it. *)
Record Tablet := mkTablet {
  tablet_path : string;
  data_dir : DataDir;
  replica_id : Z;
  table_id : Z;
  partition_id : Z
}.

(** The tablet-level locks that [move] tries. *)
Inductive TabletLock :=
  | migration_lock
  | base_compaction_lock
  | cumulative_compaction_lock
  | cold_compaction_lock
  | build_inverted_index_lock
  | meta_store_lock.

(** Every call the loader makes to a collaborator. *)
Inductive Call :=
  | CReport (req : TSnapshotLoaderReportRequest)
  | CIsDirectory (path : string)
  | CLocalList (path : string)
  | CMd5sum (path : string)
  | CFileSize (path : string)
  | CExists (path : string)
  | CRemove (path : string)
  | CRemoveAll (path : string)
  | CCreateDirectory (path : string)
  | CLink (src dst : string)
  | CRemoteList (dir : string)
  | CRemoteUpload (local_path remote_path : string)
  | CRemoteRename (orig_name new_name : string)
  | CRemoteDownload (remote_path local_path : string)
  | CGetTablet (tablet_id : Z)
  | CGetStore (path : string)
  | CReachCapacityLimit (path : string) (incoming : Z)
  | CConvertRowsetIds (snapshot_path : string)
      (tablet_id replica_id table_id partition_id schema_hash : Z)
  | CTryLock (lk : TabletLock)
  | CLoadTabletFromDir (store : string) (tablet_id schema_hash : Z)
      (tablet_path : string) (restore : bool).

Global Instance TTaskType_eq_dec : EqDecision TTaskType.
Proof. solve_decision. Defined.
Global Instance Request_eq_dec : EqDecision TSnapshotLoaderReportRequest.
Proof. solve_decision. Defined.
Global Instance TabletLock_eq_dec : EqDecision TabletLock.
Proof. solve_decision. Defined.
Global Instance Call_eq_dec : EqDecision Call.
Proof. solve_decision. Defined.

(** How a run ends: a value, an error status returned, or an exception. *)
Inductive Outcome (A : Type) :=
  | Done (a : A)
  | Failed (st : Status)
  | Thrown (st : Status).
Arguments Done {A} a.
Arguments Failed {A} st.
Arguments Thrown {A} st.

Section Model.

(** The state of the collaborators: the local disk [L], the remote store
    [R], the storage engine [E] and the frontend [C].  During a run only
    the loader acts on them: it holds the local snapshot lock of the path
    it works on ([LocalSnapshotLock::instance().acquire]), and what other
    actors do to the remote store, the engine or the frontend in the
    meantime is left out.  Each operation says in its type which
    components it reads and which it writes. *)
Context {L R E C : Type}.

(** [io::global_local_filesystem()], [std::filesystem] and the C library
    on the local disk. *)
Record LocalFileSystem := {
  fs_is_directory : string → L → Status * bool;
  (* list(path, only_file = true, &files, &exists) *)
  fs_list : string → L → Status * list FileInfo;
  fs_md5sum : string → L → Status * string;
  (* std::filesystem::file_size(path, ec): the size, or ec.message() *)
  fs_file_size : string → L → Z + string;
  fs_exists : string → L → bool;
  (* remove(path) == 0 *)
  fs_remove : string → L → bool * L;
  (* Some what: a filesystem_error was thrown *)
  fs_remove_all : string → L → option string * L;
  fs_create_directory : string → L → option string * L;
  (* link(src, dst) == 0 *)
  fs_link : string → string → L → bool * L
}.

(** [io::RemoteFileSystem] *)
Record RemoteFileSystem := {
  rfs_type : FileSystemType;
  rfs_list : string → R → Status * list FileInfo;
  rfs_upload : string → string → L → R → Status * R;
  rfs_rename : string → string → R → Status * R;
  rfs_download : string → string → R → L → Status * L
}.

(** [StorageEngine] with its tablet and snapshot managers. *)
Record StorageEngine := {
  eng_get_tablet : Z → E → option Tablet;
  eng_get_store : string → E → option DataDir;
  eng_reach_capacity_limit : DataDir → Z → L → E → bool;
  (* Some err: the conversion failed with err *)
  eng_convert_rowset_ids : string → Z → Z → Z → Z → Z → L → E → option string * L * E;
  eng_try_lock : Tablet → TabletLock → E → bool;
  eng_load_tablet_from_dir : DataDir → Z → Z → string → bool → L → E → Status * E
}.

(** The frontend: the status of the RPC itself and the status code of the
    answer. *)
Record Frontend := {
  fe_snapshotLoaderReport : TSnapshotLoaderReportRequest → C → Status * TStatusCode * C
}.

Record Env := {
  local_fs : LocalFileSystem;
  engine : StorageEngine;
  frontend : Frontend
}.

(** [SnapshotLoader] *)
Record SnapshotLoader := {
  _env : Env;
  _job_id : Z;
  _task_id : Z;
  _remote_fs : option RemoteFileSystem
}.

(** The memory a run works on: the collaborators, the calls made so far,
    and the two containers the caller passes by pointer. *)
Record State := mkState {
  disk : L;
  store : R;
  eng : E;
  fe : C;
  calls : list Call;
  tablet_files : gmap Z (list string);
  downloaded_tablet_ids : list Z
}.

Definition M (A : Type) : Type := State → Outcome A * State.

Definition ret {A} (a : A) : M A := λ s, (Done a, s).
Definition fail {A} (st : Status) : M A := λ s, (Failed st, s).
Definition throw {A} (st : Status) : M A := λ s, (Thrown st, s).
Definition bind {A B} (m : M A) (k : A → M B) : M B :=
  λ s, match m s with
       | (Done a, s') => k a s'
       | (Failed st, s') => (Failed st, s')
       | (Thrown st, s') => (Thrown st, s')
       end.

End Model.

Notation "'let*' x ':=' m 'in' k" := (bind m (λ x, k))
  (at level 10, x pattern, m at level 100, k at level 200,
   format "'[v' 'let*'  x  ':='  m  'in' '/' k ']'").

Section Operations.

Context {L R E C : Type}.

Abbreviation State := (@State L R E C).
Abbreviation M := (@M L R E C).
Abbreviation SnapshotLoader := (@SnapshotLoader L R E C).
Abbreviation RemoteFileSystem := (@RemoteFileSystem L R).

(** *** Plumbing *)

Definition logged (s : State) (c : Call) : State :=
  mkState (disk s) (store s) (eng s) (fe s) (calls s ++ [c])%list
          (tablet_files s) (downloaded_tablet_ids s).

Definition set_disk (s : State) (l : L) : State :=
  mkState l (store s) (eng s) (fe s) (calls s) (tablet_files s) (downloaded_tablet_ids s).
Definition set_store (s : State) (r : R) : State :=
  mkState (disk s) r (eng s) (fe s) (calls s) (tablet_files s) (downloaded_tablet_ids s).
Definition set_eng (s : State) (e : E) : State :=
  mkState (disk s) (store s) e (fe s) (calls s) (tablet_files s) (downloaded_tablet_ids s).
Definition set_fe (s : State) (c : C) : State :=
  mkState (disk s) (store s) (eng s) c (calls s) (tablet_files s) (downloaded_tablet_ids s).
Definition set_tablet_files (s : State) (m : gmap Z (list string)) : State :=
  mkState (disk s) (store s) (eng s) (fe s) (calls s) m (downloaded_tablet_ids s).
Definition set_downloaded_tablet_ids (s : State) (v : list Z) : State :=
  mkState (disk s) (store s) (eng s) (fe s) (calls s) (tablet_files s) v.

(** [RETURN_IF_ERROR] *)
Definition return_if_error (st : Status) : M unit :=
  if ok st then ret tt else fail st.

Definition lift {A} (r : Result A) : M A :=
  match r with
  | Ok a => ret a
  | Err st => fail st
  end.

(** A range-based [for] whose body may return early; [acc] holds the
    variables the body updates. *)
Fixpoint for_each {A S} (xs : list A) (body : A → S → M S) (acc : S) : M S :=
  match xs with
  | [] => ret acc
  | x :: xs' => let* acc' := body x acc in for_each xs' body acc'
  end.

(** *** Calls to the collaborators *)

Definition is_directory (ld : SnapshotLoader) (path : string) : M (Status * bool) :=
  λ s, (Done (fs_is_directory (local_fs (_env ld)) path (disk s)),
        logged s (CIsDirectory path)).

Definition local_list (ld : SnapshotLoader) (path : string) : M (Status * list FileInfo) :=
  λ s, (Done (fs_list (local_fs (_env ld)) path (disk s)), logged s (CLocalList path)).

Definition md5sum (ld : SnapshotLoader) (path : string) : M (Status * string) :=
  λ s, (Done (fs_md5sum (local_fs (_env ld)) path (disk s)), logged s (CMd5sum path)).

Definition file_size_ (ld : SnapshotLoader) (path : string) : M (Z + string) :=
  λ s, (Done (fs_file_size (local_fs (_env ld)) path (disk s)), logged s (CFileSize path)).

Definition exists_ (ld : SnapshotLoader) (path : string) : M bool :=
  λ s, (Done (fs_exists (local_fs (_env ld)) path (disk s)), logged s (CExists path)).

Definition remove (ld : SnapshotLoader) (path : string) : M bool :=
  λ s, let '(r, l) := fs_remove (local_fs (_env ld)) path (disk s) in
       (Done r, logged (set_disk s l) (CRemove path)).

Definition remove_all (ld : SnapshotLoader) (path : string) : M (option string) :=
  λ s, let '(r, l) := fs_remove_all (local_fs (_env ld)) path (disk s) in
       (Done r, logged (set_disk s l) (CRemoveAll path)).

Definition create_directory (ld : SnapshotLoader) (path : string) : M (option string) :=
  λ s, let '(r, l) := fs_create_directory (local_fs (_env ld)) path (disk s) in
       (Done r, logged (set_disk s l) (CCreateDirectory path)).

Definition link (ld : SnapshotLoader) (src dst : string) : M bool :=
  λ s, let '(r, l) := fs_link (local_fs (_env ld)) src dst (disk s) in
       (Done r, logged (set_disk s l) (CLink src dst)).

Definition remote_list (fs : RemoteFileSystem) (dir : string) : M (Status * list FileInfo) :=
  λ s, (Done (rfs_list fs dir (store s)), logged s (CRemoteList dir)).

Definition remote_upload (fs : RemoteFileSystem) (local_path remote_path : string)
  : M Status :=
  λ s, let '(st, r) := rfs_upload fs local_path remote_path (disk s) (store s) in
       (Done st, logged (set_store s r) (CRemoteUpload local_path remote_path)).

Definition remote_rename (fs : RemoteFileSystem) (orig_name new_name : string) : M Status :=
  λ s, let '(st, r) := rfs_rename fs orig_name new_name (store s) in
       (Done st, logged (set_store s r) (CRemoteRename orig_name new_name)).

Definition remote_download (fs : RemoteFileSystem) (remote_path local_path : string)
  : M Status :=
  λ s, let '(st, l) := rfs_download fs remote_path local_path (store s) (disk s) in
       (Done st, logged (set_disk s l) (CRemoteDownload remote_path local_path)).

Definition get_tablet (ld : SnapshotLoader) (tablet_id : Z) : M (option Tablet) :=
  λ s, (Done (eng_get_tablet (engine (_env ld)) tablet_id (eng s)),
        logged s (CGetTablet tablet_id)).

Definition get_store (ld : SnapshotLoader) (path : string) : M (option DataDir) :=
  λ s, (Done (eng_get_store (engine (_env ld)) path (eng s)), logged s (CGetStore path)).

Definition reach_capacity_limit (ld : SnapshotLoader) (dir : DataDir) (incoming : Z)
  : M bool :=
  λ s, (Done (eng_reach_capacity_limit (engine (_env ld)) dir incoming (disk s) (eng s)),
        logged s (CReachCapacityLimit (dir_path dir) incoming)).

Definition convert_rowset_ids (ld : SnapshotLoader) (snapshot_path : string)
    (tablet_id replica_id table_id partition_id schema_hash : Z) : M (option string) :=
  λ s, let '(r, l, e) :=
         eng_convert_rowset_ids (engine (_env ld)) snapshot_path tablet_id replica_id
           table_id partition_id schema_hash (disk s) (eng s) in
       (Done r, logged (set_eng (set_disk s l) e)
                  (CConvertRowsetIds snapshot_path tablet_id replica_id table_id
                     partition_id schema_hash)).

(** [std::unique_lock lk(mutex, std::try_to_lock)] followed by
    [lk.owns_lock()].  The guard releases the mutex on every way out of
    [move], so the engine is left with the locks as they were. *)
Definition try_to_lock (ld : SnapshotLoader) (tablet : Tablet) (lk : TabletLock) : M bool :=
  λ s, (Done (eng_try_lock (engine (_env ld)) tablet lk (eng s)), logged s (CTryLock lk)).

Definition load_tablet_from_dir (ld : SnapshotLoader) (dir : DataDir)
    (tablet_id schema_hash : Z) (path : string) (restore : bool) : M Status :=
  λ s, let '(st, e) :=
         eng_load_tablet_from_dir (engine (_env ld)) dir tablet_id schema_hash
           path restore (disk s) (eng s) in
       (Done st, logged (set_eng s e)
                   (CLoadTabletFromDir (dir_path dir) tablet_id schema_hash path restore)).

Definition snapshotLoaderReport (ld : SnapshotLoader) (request : TSnapshotLoaderReportRequest)
  : M (Status * TStatusCode) :=
  λ s, let '(rpcStatus, status_code, c) :=
         fe_snapshotLoaderReport (frontend (_env ld)) request (fe s) in
       (Done (rpcStatus, status_code), logged (set_fe s c) (CReport request)).

(** *** The anonymous namespace *)

(** [upload_with_checksum] *)
Definition upload_with_checksum (fs : RemoteFileSystem)
    (local_path remote_path checksum : string) : M unit :=
  let full_remote_path := remote_path +:+ "." +:+ checksum in
  match rfs_type fs with
  | HDFS | BROKER =>
      let temp := remote_path +:+ ".part" in
      let* st := remote_upload fs local_path temp in
      let* _ := return_if_error st in
      let* st := remote_rename fs temp full_remote_path in
      let* _ := return_if_error st in
      ret tt
  | S3 =>
      let* st := remote_upload fs local_path full_remote_path in
      let* _ := return_if_error st in
      ret tt
  | OTHER_TYPE tag => throw (FatalError ("unknown fs type: " +:+ pretty tag))
  end.

(** *** The reporter *)

(** [_report_every]; the result is the value left in [*counter].  (On
    the cancelled return the source has reset the counter as well; the
    callers return at once.) *)
Definition _report_every (ld : SnapshotLoader) (report_threshold : Z) (counter : Z)
    (finished_num total_num : Z) (type : TTaskType) : M Z :=
  let counter := int_incr counter in
  if counter <=? report_threshold then ret counter
  else
    let request := mkReport (_job_id ld) (_task_id ld) type finished_num total_num in
    let* (rpcStatus, status_code) := snapshotLoaderReport ld request in
    if negb (ok rpcStatus) then
      (* rpc failed, ignore *)
      ret counter
    else
      (* reset *)
      if bool_decide (status_code = TStatusCode_CANCELLED)
      then fail (Cancelled "Cancelled")
      else ret 0.

(** *** Listings *)

(** [_check_local_snapshot_paths] *)
Definition _check_local_snapshot_paths (ld : SnapshotLoader)
    (src_to_dest_path : gmap string string) (check_src : bool) : M unit :=
  for_each (entries src_to_dest_path)
    (λ pair (_ : unit),
       let path := if check_src then pair.1 else pair.2 in
       let* (st, res) := is_directory ld path in
       let* _ := return_if_error st in
       if negb res
       then fail (RuntimeError
                    ("snapshot path is not directory or does not exist: " +:+ path))
       else ret tt)
    tt.

(** [_get_existing_files_from_local]; every caller passes an empty
    vector. *)
Definition _get_existing_files_from_local (ld : SnapshotLoader) (local_path : string)
  : M (list string) :=
  let* (st, files) := local_list ld local_path in
  let* _ := return_if_error st in
  ret (file_name <$> files).

(** [io::Path(p).filename()]: what follows the last separator. *)
Definition path_filename (p : string) : string :=
  match last_index slash p with
  | None => p
  | Some i => substr p (i + 1) npos
  end.

(** What the loop of [_list_with_checksum] makes of one listed file:
    nothing when the name has no checksum separator or ends in it,
    otherwise the name before the last dot, the md5 after it, and the
    size. *)
Definition checksum_stat (tmp_file : FileInfo) : option FileStat :=
  let file_name := path_filename (file_name tmp_file) in
  match find_last_of file_name "."%char npos with
  | None => None
  | Some pos =>
      if bool_decide (pos = (String.length file_name - 1)%nat)
      then (* Not found checksum separator, ignore this file *) None
      else Some (FileStat.mk (substr file_name 0 (Some pos))
                             (substr file_name (pos + 1) npos)
                             (file_size tmp_file))
  end.

(** The loop of [_list_with_checksum] over the listed files. *)
Definition index_by_checksum (files : list FileInfo) : gmap string FileStat :=
  foldl
    (λ (md5_files : gmap string FileStat) (tmp_file : FileInfo),
       match checksum_stat tmp_file with
       | None => md5_files
       | Some stat => emplace (FileStat.name stat) stat md5_files
       end)
    ∅ files.

(** [_list_with_checksum]; every caller passes an empty map. *)
Definition _list_with_checksum (fs : RemoteFileSystem) (dir : string)
  : M (gmap string FileStat) :=
  let* (st, files) := remote_list fs dir in
  let* _ := return_if_error st in
  ret (index_by_checksum files).

(** *** Upload *)

(** The test of [upload] on one local file (183-196). *)
Definition need_upload (remote_files : gmap string FileStat) (local_file md5sum : string)
  : bool :=
  match remote_files !! local_file with
  | Some find =>
      (* remote storage file exist, but with different checksum *)
      negb (String.eqb md5sum (FileStat.md5 find))
  | None => true
  end.

(** The body of the loop of [upload] over the local files of a tablet;
    [acc] is [(report_counter, local_files_with_checksum)]. *)
Definition upload_file (ld : SnapshotLoader) (fs : RemoteFileSystem)
    (src_path dest_path : string) (remote_files : gmap string FileStat)
    (finished_num total_num : Z) (local_file : string) (acc : Z * list string)
  : M (Z * list string) :=
  let '(report_counter, local_files_with_checksum) := acc in
  let* report_counter :=
    _report_every ld 10 report_counter finished_num total_num UPLOAD in
  (* calc md5sum of localfile *)
  let* (st, md5sum) := md5sum ld (src_path +:+ "/" +:+ local_file) in
  let* _ := return_if_error st in
  let local_files_with_checksum :=
    (local_files_with_checksum ++ [local_file +:+ "." +:+ md5sum])%list in
  (* check if this local file need upload *)
  if negb (need_upload remote_files local_file md5sum)
  then ret (report_counter, local_files_with_checksum)
  else
    (* upload *)
    let remote_path := dest_path +:+ "/" +:+ local_file in
    let local_path := src_path +:+ "/" +:+ local_file in
    let* _ := upload_with_checksum fs local_path remote_path md5sum in
    ret (report_counter, local_files_with_checksum).

Definition emplace_tablet_files (tablet_id : Z) (files : list string) : M unit :=
  λ s, (Done tt, set_tablet_files s (emplace tablet_id files (tablet_files s))).

(** The body of the loop of [upload] over the tablets; [acc] is
    [(report_counter, finished_num)].  The local snapshot lock taken at
    the top of the body is held until the body is left. *)
Definition upload_tablet (ld : SnapshotLoader) (fs : RemoteFileSystem) (total_num : Z)
    (iter : string * string) (acc : Z * Z) : M (Z * Z) :=
  let '(report_counter, finished_num) := acc in
  let src_path := iter.1 in
  let dest_path := iter.2 in
  let* (tablet_id, schema_hash) :=
    lift (_get_tablet_id_and_schema_hash_from_file_path src_path) in
  (* 2.1 get existing files from remote path *)
  let* remote_files := _list_with_checksum fs dest_path in
  (* 2.2 list local files *)
  let* local_files := _get_existing_files_from_local ld src_path in
  (* 2.3 iterate local files *)
  let* (report_counter, local_files_with_checksum) :=
    for_each local_files
      (upload_file ld fs src_path dest_path remote_files finished_num total_num)
      (report_counter, []) in
  let* _ := emplace_tablet_files tablet_id local_files_with_checksum in
  ret (report_counter, int_incr finished_num).

(** [SnapshotLoader::upload] *)
Definition upload (ld : SnapshotLoader) (src_to_dest_path : gmap string string) : M unit :=
  match _remote_fs ld with
  | None => fail (InternalError "Storage backend not initialized.")
  | Some fs =>
      (* check if job has already been cancelled *)
      let* _ := _report_every ld 0 1 0 0 UPLOAD in
      (* 1. validate local tablet snapshot paths *)
      let* _ := _check_local_snapshot_paths ld src_to_dest_path true in
      (* 2. for each src path, upload it to remote storage *)
      let total_num := to_int32 (Z.of_nat (size src_to_dest_path)) in
      let* _ := for_each (entries src_to_dest_path) (upload_tablet ld fs total_num) (0, 0) in
      ret tt
  end.

(** *** Download *)

Definition push_downloaded_tablet_id (tablet_id : Z) : M unit :=
  λ s, (Done tt, set_downloaded_tablet_ids s (downloaded_tablet_ids s ++ [tablet_id])%list).

(** The test of [download] on one remote file (291-320). *)
Definition need_download (ld : SnapshotLoader) (local_path remote_file : string)
    (file_stat : FileStat) (find : option nat) : M bool :=
  match find with
  | None =>
      (* remote file does not exist in local, download it *)
      ret true
  | Some _ =>
      if _end_with remote_file ".hdr"
      then (* this is a header file, download it. *) ret true
      else
        (* check checksum *)
        let* (st, local_md5sum) := md5sum ld (local_path +:+ "/" +:+ remote_file) in
        if negb (ok st) then ret true
        else ret (negb (String.eqb (FileStat.md5 file_stat) local_md5sum))
  end.

(** The body of the loop of [download] over the remote files of a
    tablet; [acc] is [(report_counter, local_files)]. *)
Definition download_file (ld : SnapshotLoader) (fs : RemoteFileSystem)
    (remote_path local_path : string) (local_tablet_id : Z) (data_dir : DataDir)
    (finished_num total_num : Z) (iter : string * FileStat) (acc : Z * list string)
  : M (Z * list string) :=
  let '(report_counter, local_files) := acc in
  let* report_counter :=
    _report_every ld 10 report_counter finished_num total_num DOWNLOAD in
  let remote_file := iter.1 in
  let file_stat := iter.2 in
  let find := find_index remote_file local_files in
  let* need_download := need_download ld local_path remote_file file_stat find in
  if negb need_download then ret (report_counter, local_files)
  else
    (* begin to download *)
    let full_remote_file :=
      remote_path +:+ "/" +:+ remote_file +:+ "." +:+ FileStat.md5 file_stat in
    (* we need to replace the tablet_id in remote file name with local tablet id *)
    let* local_file_name := lift (_replace_tablet_id remote_file local_tablet_id) in
    let full_local_file := local_path +:+ "/" +:+ local_file_name in
    let file_len := FileStat.size file_stat in
    (* check disk capacity *)
    let* full := reach_capacity_limit ld data_dir file_len in
    if full
    then fail (ExceededLimit ("reach the capacity limit of path " +:+ dir_path data_dir
                              +:+ ", file_size=" +:+ pretty file_len))
    else
      (* remove file which will be downloaded now. *)
      let local_files :=
        match find with
        | Some i => delete i local_files
        | None => local_files
        end in
      let* st := remote_download fs full_remote_file full_local_file in
      let* _ := return_if_error st in
      (* 3. check md5 of the downloaded file *)
      let* (st, downloaded_md5sum) := md5sum ld full_local_file in
      let* _ := return_if_error st in
      if negb (String.eqb downloaded_md5sum (FileStat.md5 file_stat))
      then fail (InternalError ("invalid md5 of downloaded file: " +:+ full_local_file
                                +:+ ", expected: " +:+ FileStat.md5 file_stat
                                +:+ ", get: " +:+ downloaded_md5sum))
      else
        (* local_files always keep the updated local files *)
        ret (report_counter, (local_files ++ [local_file_name])%list).

(** The body of the loop that deletes the local files which are not in
    remote. *)
Definition prune_file (ld : SnapshotLoader) (local_path : string) (remote_tablet_id : Z)
    (has_remote : string → bool) (local_file : string) (_ : unit) : M unit :=
  match _replace_tablet_id local_file remote_tablet_id with
  | Err _ => ret tt
  | Ok new_name =>
      if has_remote new_name then ret tt
      else
        (* delete *)
        let full_local_file := local_path +:+ "/" +:+ local_file in
        let* _ := remove ld full_local_file in
        ret tt
  end.

(** The body of the loop of [download] over the tablets; [acc] is
    [(report_counter, finished_num)]. *)
Definition download_tablet (ld : SnapshotLoader) (fs : RemoteFileSystem) (total_num : Z)
    (iter : string * string) (acc : Z * Z) : M (Z * Z) :=
  let '(report_counter, finished_num) := acc in
  let remote_path := iter.1 in
  let local_path := iter.2 in
  let* (local_tablet_id, schema_hash) :=
    lift (_get_tablet_id_and_schema_hash_from_file_path local_path) in
  let* _ := push_downloaded_tablet_id local_tablet_id in
  let* remote_tablet_id :=
    lift (_get_tablet_id_from_remote_path remote_path uninitialized) in
  (* 2.1. get local files *)
  let* local_files := _get_existing_files_from_local ld local_path in
  (* 2.2. get remote files *)
  let* remote_files := _list_with_checksum fs remote_path in
  if bool_decide (remote_files = ∅)
  then fail (InternalError ("get nothing from remote path: " +:+ remote_path))
  else
    let* tablet := get_tablet ld local_tablet_id in
    match tablet with
    | None =>
        fail (InternalError ("failed to get local tablet: " +:+ pretty local_tablet_id))
    | Some tablet =>
        let* (report_counter, local_files) :=
          for_each (entries remote_files)
            (download_file ld fs remote_path local_path local_tablet_id (data_dir tablet)
               finished_num total_num)
            (report_counter, local_files) in
        (* finally, delete local files which are not in remote *)
        let* _ :=
          for_each local_files
            (prune_file ld local_path remote_tablet_id
               (λ new_name, bool_decide (is_Some (remote_files !! new_name))))
            tt in
        ret (report_counter, int_incr finished_num)
    end.

(** [SnapshotLoader::download] *)
Definition download (ld : SnapshotLoader) (src_to_dest_path : gmap string string) : M unit :=
  match _remote_fs ld with
  | None => fail (InternalError "Storage backend not initialized.")
  | Some fs =>
      (* check if job has already been cancelled *)
      let* _ := _report_every ld 0 1 0 0 DOWNLOAD in
      (* 1. validate local tablet snapshot paths *)
      let* _ := _check_local_snapshot_paths ld src_to_dest_path false in
      (* 2. for each src path, download it to local storage *)
      let total_num := to_int32 (Z.of_nat (size src_to_dest_path)) in
      let* _ :=
        for_each (entries src_to_dest_path) (download_tablet ld fs total_num) (0, 0) in
      ret tt
  end.

(** *** Download from a peer over HTTP

    The HTTP client is outside this file; embedded are the steps of
    [remote_http_download] that decide what is fetched and what is
    accepted. *)

(** Step 2: the size and md5 of every local file (448-466). *)
Definition http_local_files (ld : SnapshotLoader) (local_path : string)
  : M (gmap string LocalFileStat) :=
  let* existing_files := _get_existing_files_from_local ld local_path in
  for_each existing_files
    (λ local_file (local_files : gmap string LocalFileStat),
       let local_file_path := local_path +:+ "/" +:+ local_file in
       let* sz := file_size_ ld local_file_path in
       match sz with
       | inr ec =>
           fail (IOError ("can't retrive file_size of " +:+ local_file_path
                          +:+ ", due to " +:+ ec))
       | inl local_file_size =>
           let* (status, md5) := md5sum ld local_file_path in
           if negb (ok status) then fail status
           else ret (<[local_file := LocalFileStat.mk local_file_size md5]> local_files)
       end)
    ∅.

(** Step 4: the test on one remote file (531-551). *)
Definition http_need_download (local_files : gmap string LocalFileStat)
    (remote_file : string) (remote_filestat : RemoteFileStat) : bool :=
  match local_files !! remote_file with
  | None => true
  | Some local_filestat =>
      if _end_with remote_file ".hdr" then true
      else if negb (LocalFileStat.size local_filestat =? RemoteFileStat.size remote_filestat)
      then true
      else if negb (String.eqb (LocalFileStat.md5 local_filestat)
                               (RemoteFileStat.md5 remote_filestat))
      then true
      else false
  end.

(** Step 4: [need_download_files].  The remote files are held in an
    unordered map; its iteration order is whatever [map_to_list] gives. *)
Definition http_need_download_files (local_files : gmap string LocalFileStat)
    (remote_files : gmap string RemoteFileStat) : list string :=
  foldl
    (λ need_download_files '(remote_file, remote_filestat),
       if http_need_download local_files remote_file remote_filestat
       then (need_download_files ++ [remote_file])%list
       else need_download_files)
    [] (map_to_list remote_files).

(** What [download_cb] does once the client has written the file
    (601-631), up to the change of permission. *)
Definition http_verify_download (ld : SnapshotLoader) (local_file_path : string)
    (remote_file_url remote_file_md5 : string) (file_size : Z) : M unit :=
  (* Check file length *)
  let* sz := file_size_ ld local_file_path in
  match sz with
  | inr ec =>
      fail (IOError ("can't retrive file_size of " +:+ local_file_path
                     +:+ ", due to " +:+ ec))
  | inl local_file_size =>
      if negb (local_file_size =? file_size)
      then fail (InternalError "downloaded file size is not equal")
      else
        if negb (String.eqb remote_file_md5 "") then
          (* keep compatibility *)
          let* (st, local_file_md5) := md5sum ld local_file_path in
          let* _ := return_if_error st in
          if negb (String.eqb local_file_md5 remote_file_md5)
          then fail (RuntimeError ("download file " +:+ remote_file_url
                                   +:+ " md5 is not equal, local=" +:+ local_file_md5
                                   +:+ ", remote=" +:+ remote_file_md5))
          else ret tt
        else ret tt
  end.

(** *** Move *)

(** The body of the loop of [move] that links the snapshot files; [acc]
    is [linked_files]. *)
Definition link_file (ld : SnapshotLoader) (snapshot_path tablet_path : string)
    (file : string) (linked_files : list string) : M (list string) :=
  let full_src_path := snapshot_path +:+ "/" +:+ file in
  let full_dest_path := tablet_path +:+ "/" +:+ file in
  let* linked := link ld full_src_path full_dest_path in
  if negb linked then
    (* clean the already linked files *)
    let* _ :=
      for_each linked_files (λ linked_file (_ : unit),
                               let* _ := remove ld linked_file in ret tt) tt in
    fail (InternalError "move tablet failed")
  else ret (linked_files ++ [full_dest_path])%list.

(** [SnapshotLoader::move] *)
Definition move (ld : SnapshotLoader) (snapshot_path : string) (tablet : Tablet)
    (overwrite : bool) : M unit :=
  let tablet_path := tablet_path tablet in
  let store_path := dir_path (data_dir tablet) in
  (* validate snapshot_path and tablet_path *)
  let* (snapshot_tablet_id, snapshot_schema_hash) :=
    lift (_get_tablet_id_and_schema_hash_from_file_path snapshot_path) in
  let* (tablet_id, schema_hash) :=
    lift (_get_tablet_id_and_schema_hash_from_file_path tablet_path) in
  if negb (tablet_id =? snapshot_tablet_id) || negb (schema_hash =? snapshot_schema_hash)
  then fail (InternalError ("path does not match. snapshot: " +:+ snapshot_path
                            +:+ ", tablet path: " +:+ tablet_path))
  else
  let* store := get_store ld store_path in
  match store with
  | None => fail (InternalError ("failed to get store by path: " +:+ store_path))
  | Some store =>
  let* tablet_path_exists := exists_ ld tablet_path in
  if negb tablet_path_exists
  then fail (InternalError ("tablet path does not exist: " +:+ tablet_path))
  else
  let* snapshot_path_exists := exists_ ld snapshot_path in
  if negb snapshot_path_exists
  then fail (InternalError ("snapshot path does not exist: " +:+ snapshot_path))
  else
  (* rename the rowset ids and tabletid info in rowset meta *)
  let* res := convert_rowset_ids ld snapshot_path tablet_id (replica_id tablet)
                (table_id tablet) (partition_id tablet) schema_hash in
  match res with
  | Some err =>
      fail (InternalError ("failed to convert rowsetids in snapshot: " +:+ snapshot_path
                           +:+ ", tablet path: " +:+ tablet_path +:+ ", err: " +:+ err))
  | None =>
  if negb overwrite then throw (FatalError "only support overwrite now")
  else
  (* Medium migration/clone/checkpoint/compaction may change or check the
     files and tablet meta, so we need to take these locks. *)
  let* migration := try_to_lock ld tablet migration_lock in
  let* base_compact := try_to_lock ld tablet base_compaction_lock in
  let* cumu_compact := try_to_lock ld tablet cumulative_compaction_lock in
  let* cold_compact := try_to_lock ld tablet cold_compaction_lock in
  let* build_idx := try_to_lock ld tablet build_inverted_index_lock in
  let* meta_store := try_to_lock ld tablet meta_store_lock in
  if negb migration || negb base_compact || negb cumu_compact || negb cold_compact
     || negb build_idx || negb meta_store
  then (* This error should be retryable *)
    fail (ObtainLockFailed ("failed to get tablet locks, tablet: " +:+ pretty tablet_id))
  else
  let* snapshot_files := _get_existing_files_from_local ld snapshot_path in
  (* 1. simply delete the old dir and replace it with the snapshot dir *)
  let* removed := remove_all ld tablet_path in
  match removed with
  | Some what =>
      fail (InternalError ("failed to move tablet path: " +:+ tablet_path
                           +:+ ". err: " +:+ what))
  | None =>
  let* created := create_directory ld tablet_path in
  match created with
  | Some what =>
      fail (InternalError ("failed to move tablet path: " +:+ tablet_path
                           +:+ ". err: " +:+ what))
  | None =>
  (* link files one by one *)
  let* _ := for_each snapshot_files (link_file ld snapshot_path tablet_path) [] in
  (* reload header *)
  let* ost := load_tablet_from_dir ld store tablet_id schema_hash tablet_path true in
  if negb (ok ost)
  then fail (InternalError ("failed to reload header of tablet: " +:+ pretty tablet_id))
  else ret tt
  end end end end.

End Operations.

(** ** Vocabulary of the properties *)

(** The character [c] occurs in [s]. *)
Definition occurs (c : ascii) (s : string) : Prop := ∃ x y, s = x +:+ String c y.

(** Every character of [s] is a decimal digit. *)
Fixpoint is_digits (s : string) : bool :=
  match s with
  | EmptyString => true
  | String c s' => bool_decide (is_Some (digit_of c)) && is_digits s'
  end.

(** The first object of a remote listing whose name without checksum
    is [name]. *)
Definition first_listed (files : list FileInfo) (name : string) : option FileStat :=
  head (filter (λ stat, FileStat.name stat = name) (omap checksum_stat files)).

(** The tablet id [upload] and [download] read from a local path. *)
Definition tablet_id_of (local_path : string) : option Z :=
  match _get_tablet_id_and_schema_hash_from_file_path local_path with
  | Ok (tablet_id, _) => Some tablet_id
  | Err _ => None
  end.

Section Vocabulary.

Context {L R E C : Type}.

(** A computation leaves the component [f] of the state as it was,
    however it ends. *)
Definition keeps {A X} (f : @State L R E C → X) (m : @M L R E C A) : Prop :=
  ∀ s, f (m s).2 = f s.

(** The files of a local directory, each followed by a dot and the md5
    of its bytes. *)
Definition checksummed_files (lfs : @LocalFileSystem L) (l : L) (src_path : string)
  : list string :=
  (λ f, f +:+ "." +:+ (fs_md5sum lfs (src_path +:+ "/" +:+ f) l).2)
    <$> (file_name <$> (fs_list lfs src_path l).2).

(** The manifest as a function of the local directories alone: going
    through the source directories in order, each tablet id is given the
    checksummed files of the first directory that carries it. *)
Definition local_manifest (lfs : @LocalFileSystem L) (l : L) (src_paths : list string)
    (init : gmap Z (list string)) : gmap Z (list string) :=
  foldl (λ m src_path,
           match tablet_id_of src_path with
           | Some tablet_id => emplace tablet_id (checksummed_files lfs l src_path) m
           | None => m
           end)
        init src_paths.

End Vocabulary.

(** ** A small concrete world

    Directories hold files, a file is known by its size and the md5 of
    its bytes.  The local disk and the remote store have the same shape;
    the engine and the frontend are stateless. *)

Module Small.

Definition File : Type := Z * string.
Definition Tree : Type := gmap string (gmap string File).

(** A full path as directory and file name. *)
Definition split_path (p : string) : string * string :=
  match last_index slash p with
  | None => ("", p)
  | Some i => (substr p 0 (Some i), substr p (i + 1) npos)
  end.

Definition get_file (t : Tree) (p : string) : option File :=
  let '(d, n) := split_path p in
  t !! d ≫= λ files, files !! n.

Definition put_file (t : Tree) (p : string) (f : File) : Tree :=
  let '(d, n) := split_path p in
  <[d := <[n := f]> (default ∅ (t !! d))]> t.

Definition del_file (t : Tree) (p : string) : Tree :=
  let '(d, n) := split_path p in
  match t !! d with
  | Some files => <[d := delete n files]> t
  | None => t
  end.

Definition list_dir (t : Tree) (d : string) : Status * list FileInfo :=
  match t !! d with
  | Some files => (StatusOK, (λ e : string * File, mkFileInfo e.1 e.2.1) <$> entries files)
  | None => (IOError "no such directory", [])
  end.

Definition the_local_fs : @LocalFileSystem Tree := {|
  fs_is_directory p l := (StatusOK, bool_decide (is_Some (l !! p)));
  fs_list p l := list_dir l p;
  fs_md5sum p l :=
    match get_file l p with
    | Some f => (StatusOK, f.2)
    | None => (IOError "no such file", "")
    end;
  fs_file_size p l :=
    match get_file l p with
    | Some f => inl f.1
    | None => inr "No such file or directory"
    end;
  fs_exists p l := bool_decide (is_Some (l !! p)) || bool_decide (is_Some (get_file l p));
  fs_remove p l :=
    (bool_decide (is_Some (get_file l p)), del_file l p);
  fs_remove_all p l := (None, delete p l);
  fs_create_directory p l := (None, <[p := ∅]> l);
  fs_link src dst l :=
    match get_file l src with
    | Some f => (true, put_file l dst f)
    | None => (false, l)
    end
|}.

Definition the_remote_fs (ty : FileSystemType) : @RemoteFileSystem Tree Tree := {|
  rfs_type := ty;
  rfs_list d r := list_dir r d;
  rfs_upload local_path remote_path l r :=
    match get_file l local_path with
    | Some f => (StatusOK, put_file r remote_path f)
    | None => (IOError "no such file", r)
    end;
  rfs_rename a b r :=
    match get_file r a with
    | Some f => (StatusOK, put_file (del_file r a) b f)
    | None => (IOError "no such file", r)
    end;
  rfs_download remote_path local_path r l :=
    match get_file r remote_path with
    | Some f => (StatusOK, put_file l local_path f)
    | None => (IOError "no such file", l)
    end
|}.

(** Modelled from the spec: [SnapshotManager::convert_rowset_ids] is
    outside this file.  The rowset-id rewrite of the tablet promotion
    and the comment at its call ("rename the rowset ids and tabletid info
    in rowset meta") say that it rewrites the meta data kept in the
    snapshot directory: here it rewrites the header file of the snapshot
    directory and touches nothing else; it fails when there is no
    header. *)
Definition convert_header (snapshot_path : string) (tablet_id : Z) (l : Tree)
  : option string * Tree :=
  let hdr := snapshot_path +:+ "/" +:+ pretty tablet_id +:+ ".hdr" in
  match get_file l hdr with
  | Some f => (None, put_file l hdr (f.1, "converted"))
  | None => (Some "no header", l)
  end.

(** The engine knows the tablets of [tablets], grants the locks of
    [free], has room on every data directory and loads every tablet. *)
Definition the_engine (tablets : gmap Z Tablet) (free : TabletLock → bool)
  : @StorageEngine Tree unit := {|
  eng_get_tablet id _ := tablets !! id;
  eng_get_store p _ := Some (mkDataDir p);
  eng_reach_capacity_limit _ _ _ _ := false;
  eng_convert_rowset_ids snapshot_path tablet_id _ _ _ _ l e :=
    (convert_header snapshot_path tablet_id l, e);
  eng_try_lock _ lk _ := free lk;
  eng_load_tablet_from_dir _ _ _ _ _ _ e := (StatusOK, e)
|}.

(** The frontend answers every report with [answer]. *)
Definition the_frontend (answer : Status * TStatusCode) : @Frontend unit := {|
  fe_snapshotLoaderReport _ c := (answer, c)
|}.

Definition loader (ty : FileSystemType) (tablets : gmap Z Tablet)
    (free : TabletLock → bool) (answer : Status * TStatusCode)
  : @SnapshotLoader Tree Tree unit unit := {|
  _env := {| local_fs := the_local_fs;
             engine := the_engine tablets free;
             frontend := the_frontend answer |};
  _job_id := 1;
  _task_id := 1;
  _remote_fs := Some (the_remote_fs ty)
|}.

Definition start (l r : Tree) : @State Tree Tree unit unit :=
  mkState l r () () [] ∅ [].

End Small.

(** ** Scenarios in the small world *)

Module Scenario.

Import Small.

(** The snapshot of tablet 1001 on the local disk. *)
Definition snapshot_1001 : gmap string File :=
  {[ "1001.hdr" := (10, "aa"); "1001_0_0.dat" := (20, "bb") ]}.

Definition local_disk : Tree :=
  {[ "/snap/1001/5" := snapshot_1001;
     "/data/1001/5" := {[ "1001.hdr" := (10, "old") ]} ]}.

(** A remote directory that already holds the header. *)
Definition remote_partial : Tree :=
  {[ "/up/__1001" := {[ "1001.hdr.aa" := (10, "aa") ]} ]}.

Definition all_free (lk : TabletLock) : bool := true.

(** Another actor holds the base compaction lock. *)
Definition base_compaction_held (lk : TabletLock) : bool :=
  negb (bool_decide (lk = base_compaction_lock)).

Definition tablet_1001 : Tablet := mkTablet "/data/1001/5" (mkDataDir "/data") 1 2 3.

Definition report_ok : Status * TStatusCode := (StatusOK, TStatusCode_OK).

Definition hdfs_loader := loader HDFS {[ 1001 := tablet_1001 ]} all_free report_ok.

Definition contended_loader :=
  loader HDFS {[ 1001 := tablet_1001 ]} base_compaction_held report_ok.

(** A frontend that cannot be reached. *)
Definition unreachable_loader :=
  loader S3 ∅ all_free (IOError "connection refused", TStatusCode_CANCELLED).

(** Two snapshot directories of the same tablet id. *)
Definition two_snapshots : Tree :=
  {[ "/a/1001/5" := {[ "1001.hdr" := (10, "aa") ]};
     "/b/1001/5" := {[ "1001.hdr" := (10, "bb") ]} ]}.

Definition two_sources : gmap string string :=
  {[ "/a/1001/5" := "/up/a"; "/b/1001/5" := "/up/b" ]}.

(** The two remote directories, empty. *)
Definition two_targets : Tree := {[ "/up/a" := ∅; "/up/b" := ∅ ]}.

(** A data file the peer declares without md5. *)
Definition http_local : gmap string LocalFileStat :=
  {[ "2001_0_0.dat" := LocalFileStat.mk 20 "bb" ]}.
Definition http_remote_without_md5 : gmap string RemoteFileStat :=
  {[ "2001_0_0.dat" := RemoteFileStat.mk "http://peer/2001_0_0.dat" "" 20 ]}.
Definition http_remote_with_md5 : gmap string RemoteFileStat :=
  {[ "2001_0_0.dat" := RemoteFileStat.mk "http://peer/2001_0_0.dat" "bb" 20 ]}.

End Scenario.

(** ** Further vocabulary *)

(** The reports among the calls of a log. *)
Definition is_report (c : Call) : bool :=
  match c with
  | CReport _ => true
  | _ => false
  end.

Definition reports (cs : list Call) : nat := length (List.filter is_report cs).

Section Repeated.

Context {L R E C : Type}.

(** [n] calls of [_report_every] in a row on the same counter, as the
    loops over the files make them. *)
Fixpoint report_n (ld : @SnapshotLoader L R E C) (report_threshold : Z)
    (finished_num total_num : Z) (type : TTaskType) (n : nat) (counter : Z)
  : @M L R E C Z :=
  match n with
  | O => ret counter
  | S n' =>
      let* counter := _report_every ld report_threshold counter finished_num total_num type in
      report_n ld report_threshold finished_num total_num type n' counter
  end.

End Repeated.

(** A local file that the pruning loop of a download deletes, said
    with the suffix of its name: a header when the header of the remote
    tablet id is not among the remote files, an index or data file when
    its own name is not. *)
Definition stale (has_remote : string → bool) (remote_tablet_id : Z) (local_file : string)
  : bool :=
  if _end_with local_file ".hdr"
  then negb (has_remote (pretty remote_tablet_id +:+ ".hdr"))
  else (_end_with local_file ".idx" || _end_with local_file ".dat")
       && negb (has_remote local_file).

(** *** The timeout of a peer download *)

(** Conversion to [uint64_t]. *)
Definition to_uint64 (z : Z) : Z := z mod 2 ^ 64.

(** The timeout in seconds that [remote_http_download] gives the
    download of one file (582-585).  The two settings are
    [config::download_low_speed_limit_kbps] and
    [config::download_low_speed_time]; in the arithmetic with the
    [uint64_t] file size they are converted to [uint64_t]. *)
Definition estimate_timeout (download_low_speed_limit_kbps download_low_speed_time : Z)
    (file_size : Z) : Z :=
  let estimate_timeout := file_size / to_uint64 download_low_speed_limit_kbps / 1024 in
  if estimate_timeout <? to_uint64 download_low_speed_time
  then to_uint64 download_low_speed_time
  else estimate_timeout.

(** ** Vocabulary of the call logs *)

(** The calls that [download] makes for the pair [p] of a remote and a
    local directory, the reports apart: the two listings, the look-up of
    the tablet of the local directory, the capacity check, and the
    hashing, download and removal of files of the two directories. *)
Definition pair_call (p : string * string) (c : Call) : Prop :=
  match c with
  | CLocalList d => d = p.2
  | CRemoteList d => d = p.1
  | CGetTablet t => tablet_id_of p.2 = Some t
  | CMd5sum f | CRemove f => ∃ n, f = p.2 +:+ "/" +:+ n
  | CReachCapacityLimit _ _ => True
  | CRemoteDownload rp lp =>
      (∃ n, rp = p.1 +:+ "/" +:+ n) ∧ ∃ n, lp = p.2 +:+ "/" +:+ n
  | _ => False
  end.



Section Logs.

Context {L R E C : Type}.

(** A computation takes a state with the property [I] to a state with
    the property, however it ends. *)
Definition preserves {A} (I : @State L R E C → Prop) (m : @M L R E C A) : Prop :=
  ∀ s, I s → I (m s).2.

(** The state [s0] comes after [s]: its log is the log of [s] followed
    by calls that all satisfy [Q]. *)
Definition since (s : @State L R E C) (Q : Call → Prop) (s0 : @State L R E C) : Prop :=
  ∃ cs, calls s0 = (calls s ++ cs)%list ∧ Forall Q cs.

(** [upload] up to the loop over the pairs, and through the pairs
    [pre] only. *)
Definition upload_until (ld : @SnapshotLoader L R E C) (fs : @RemoteFileSystem L R)
    (src_to_dest_path : gmap string string) (pre : list (string * string)) : M (Z * Z) :=
  let* _ := _report_every ld 0 1 0 0 UPLOAD in
  let* _ := _check_local_snapshot_paths ld src_to_dest_path true in
  let total_num := to_int32 (Z.of_nat (size src_to_dest_path)) in
  for_each pre (upload_tablet ld fs total_num) (0, 0).

(** [download] up to the loop over the pairs, and through the pairs
    [pre] only. *)
Definition download_until (ld : @SnapshotLoader L R E C) (fs : @RemoteFileSystem L R)
    (src_to_dest_path : gmap string string) (pre : list (string * string)) : M (Z * Z) :=
  let* _ := _report_every ld 0 1 0 0 DOWNLOAD in
  let* _ := _check_local_snapshot_paths ld src_to_dest_path false in
  let total_num := to_int32 (Z.of_nat (size src_to_dest_path)) in
  for_each pre (download_tablet ld fs total_num) (0, 0).

End Logs.

(** ** Further scenarios in the small world *)

Module Cases.

Import Small Scenario.

(** The frontend has cancelled the job. *)
Definition cancelled_loader :=
  loader HDFS {[ 1001 := tablet_1001 ]} all_free (StatusOK, TStatusCode_CANCELLED).

(** The remote directory holds the whole snapshot of tablet 1001. *)
Definition remote_complete : Tree :=
  {[ "/up/__1001" := {[ "1001.hdr.aa" := (10, "aa"); "1001_0_0.dat.bb" := (20, "bb") ]} ]}.

(** A remote directory whose only object carries no checksum. *)
Definition remote_without_checksum : Tree :=
  {[ "/up/__1001" := {[ "README" := (1, "xx") ]} ]}.

(** An engine whose data directories are full. *)
Definition crowded_engine : @StorageEngine Tree unit := {|
  eng_get_tablet id _ := Some tablet_1001;
  eng_get_store p _ := Some (mkDataDir p);
  eng_reach_capacity_limit _ _ _ _ := true;
  eng_convert_rowset_ids snapshot_path tablet_id _ _ _ _ l e :=
    (convert_header snapshot_path tablet_id l, e);
  eng_try_lock _ lk _ := true;
  eng_load_tablet_from_dir _ _ _ _ _ _ e := (StatusOK, e)
|}.

Definition crowded_loader : @SnapshotLoader Tree Tree unit unit := {|
  _env := {| local_fs := the_local_fs;
             engine := crowded_engine;
             frontend := the_frontend report_ok |};
  _job_id := 1;
  _task_id := 1;
  _remote_fs := Some (the_remote_fs HDFS)
|}.



End Cases.

(** ** Strings *)

Lemma app_cons (a : ascii) (s t : string) : String a s +:+ t = String a (s +:+ t).
Proof. reflexivity. Qed.

Lemma app_empty_l (s : string) : "" +:+ s = s.
Proof. reflexivity. Qed.

Lemma app_empty_r (s : string) : s +:+ "" = s.
Proof. induction s as [|a s IH]; [done|]. by rewrite app_cons, IH. Qed.

Lemma app_assoc_s (s t u : string) : (s +:+ t) +:+ u = s +:+ (t +:+ u).
Proof. induction s as [|a s IH]; [done|]. by rewrite !app_cons, IH. Qed.

Lemma length_app_s (s t : string) :
  String.length (s +:+ t) = (String.length s + String.length t)%nat.
Proof. induction s as [|a s IH]; [done|]. rewrite app_cons. simpl. by rewrite IH. Qed.

Lemma substring_0_all (s : string) : substring 0 (String.length s) s = s.
Proof. induction s as [|a s IH]; [done|]. simpl. by rewrite IH. Qed.

Lemma substring_0_app (s t : string) : substring 0 (String.length s) (s +:+ t) = s.
Proof.
  induction s as [|a s IH]; [by destruct t|]. rewrite app_cons. simpl. by rewrite IH.
Qed.

Lemma substring_skip (s t : string) (n m : nat) :
  substring (String.length s + n) m (s +:+ t) = substring n m t.
Proof. induction s as [|a s IH]; [done|]. rewrite app_cons. simpl. by rewrite IH. Qed.

Lemma substring_app_tail (s t : string) :
  substring (String.length s) (String.length t) (s +:+ t) = t.
Proof.
  rewrite <- (Nat.add_0_r (String.length s)), substring_skip. apply substring_0_all.
Qed.

Lemma substring_split (n : nat) (s : string) :
  (n ≤ String.length s)%nat →
  substring 0 n s +:+ substring n (String.length s - n) s = s.
Proof.
  revert s. induction n as [|n IH]; intros s Hn.
  - rewrite Nat.sub_0_r, substring_0_all. by destruct s.
  - destruct s as [|a s]; simpl in *; [lia|].
    rewrite app_cons. f_equal. apply IH. lia.
Qed.

(** [_end_with str m] holds exactly when [m] is a suffix of [str]. *)
Lemma end_with_iff (str m : string) :
  _end_with str m = true ↔ ∃ p, str = p +:+ m.
Proof.
  unfold _end_with. rewrite andb_true_iff, Nat.leb_le, String.eqb_eq. split.
  - intros [Hlen Hsub].
    exists (substring 0 (String.length str - String.length m) str).
    pose proof (substring_split (String.length str - String.length m) str) as Hs.
    replace (String.length str - (String.length str - String.length m))%nat
      with (String.length m) in Hs by lia.
    rewrite Hsub in Hs. symmetry. apply Hs. lia.
  - intros [p ->]. rewrite length_app_s. split; [lia|].
    replace (String.length p + String.length m - String.length m)%nat
      with (String.length p) by lia.
    apply substring_app_tail.
Qed.

(** Two suffixes of the same length are the same suffix. *)
Lemma end_with_same_length (str m1 m2 : string) :
  String.length m1 = String.length m2 →
  _end_with str m1 = true → _end_with str m2 = true → m1 = m2.
Proof.
  unfold _end_with. rewrite !andb_true_iff, !String.eqb_eq.
  intros Hl [_ H1] [_ H2]. rewrite <- H1, <- H2, Hl. done.
Qed.

Lemma end_with_hdr_not_idx (s : string) :
  _end_with s ".idx" = true → _end_with s ".hdr" = false.
Proof.
  intros H. destruct (_end_with s ".hdr") eqn:E; [|done].
  by pose proof (end_with_same_length s ".idx" ".hdr" eq_refl H E).
Qed.

Lemma end_with_hdr_not_dat (s : string) :
  _end_with s ".dat" = true → _end_with s ".hdr" = false.
Proof.
  intros H. destruct (_end_with s ".hdr") eqn:E; [|done].
  by pose proof (end_with_same_length s ".dat" ".hdr" eq_refl H E).
Qed.

(** ** Rewriting of file names *)

(** C7: for every file name and every new tablet id, [_replace_tablet_id]
    returns [<new_tablet_id>.hdr] when the name ends in [.hdr], returns
    the name unchanged when it ends in [.idx] or [.dat], and fails with
    the error "invalid tablet file name" for every other name. *)
Theorem replace_tablet_id_by_suffix (file_name : string) (tablet_id : Z) :
  ((∃ p, file_name = p +:+ ".hdr") →
     _replace_tablet_id file_name tablet_id = Ok (pretty tablet_id +:+ ".hdr")) ∧
  ((∃ p, file_name = p +:+ ".idx") ∨ (∃ p, file_name = p +:+ ".dat") →
     _replace_tablet_id file_name tablet_id = Ok file_name) ∧
  (¬ (∃ p, file_name = p +:+ ".hdr") →
   ¬ (∃ p, file_name = p +:+ ".idx") →
   ¬ (∃ p, file_name = p +:+ ".dat") →
     _replace_tablet_id file_name tablet_id =
       Err (InternalError ("invalid tablet file name: " +:+ file_name))).
Proof.
  unfold _replace_tablet_id. repeat split.
  - intros H%end_with_iff. by rewrite H.
  - intros [H%end_with_iff | H%end_with_iff].
    + by rewrite (end_with_hdr_not_idx _ H), H.
    + rewrite (end_with_hdr_not_dat _ H), H. by rewrite orb_true_r.
  - rewrite <- !end_with_iff. intros H1 H2 H3.
    destruct (_end_with file_name ".hdr"); [done|].
    destruct (_end_with file_name ".idx"); [done|].
    by destruct (_end_with file_name ".dat").
Qed.

Lemma replace_tablet_id_by_suffix_witness :
  _replace_tablet_id "10007.hdr" 42 = Ok "42.hdr" ∧
  _replace_tablet_id "10007_2_2_0_0.dat" 42 = Ok "10007_2_2_0_0.dat" ∧
  _replace_tablet_id "10007.txt" 42 =
    Err (InternalError "invalid tablet file name: 10007.txt").
Proof.
  destruct (replace_tablet_id_by_suffix "10007.hdr" 42) as (H1 & _ & _).
  destruct (replace_tablet_id_by_suffix "10007_2_2_0_0.dat" 42) as (_ & H2 & _).
  destruct (replace_tablet_id_by_suffix "10007.txt" 42) as (_ & _ & H3).
  split; [|split].
  - apply H1. by exists "10007".
  - apply H2. right. by exists "10007_2_2_0_0".
  - apply H3; rewrite <- end_with_iff; vm_compute; discriminate.
Defined.

(** The names [_replace_tablet_id] accepts. *)
Lemma replace_tablet_id_pretty_hdr (t : Z) : _end_with (pretty t +:+ ".hdr") ".hdr" = true.
Proof. apply end_with_iff. by eexists. Qed.

(** C8, as the code has it: the names that the rewriting accepts are
    the names that end in [.hdr], [.idx] or [.dat], whatever the tablet
    id.  Rewriting such a name to the local tablet id and the result
    back to the remote tablet id always succeeds, and it gives the
    original name back exactly when the name ends in [.idx] or [.dat] or
    is the header name [<R>.hdr] of the remote tablet id itself; every
    [.hdr] name comes back as [<R>.hdr]. *)
Theorem replace_tablet_id_round_trip (file_name : string) (l r : Z) :
  ((∃ n1, _replace_tablet_id file_name l = Ok n1) ↔
     _end_with file_name ".hdr" = true ∨ _end_with file_name ".idx" = true ∨
     _end_with file_name ".dat" = true) ∧
  ∀ n1, _replace_tablet_id file_name l = Ok n1 →
    ∃ n2, _replace_tablet_id n1 r = Ok n2 ∧
          (n2 = file_name ↔
             _end_with file_name ".idx" = true ∨ _end_with file_name ".dat" = true ∨
             file_name = pretty r +:+ ".hdr") ∧
          (_end_with file_name ".hdr" = true → n2 = pretty r +:+ ".hdr").
Proof.
  split.
  - unfold _replace_tablet_id.
    destruct (_end_with file_name ".hdr"); [split; eauto|].
    destruct (_end_with file_name ".idx"); [split; eauto|].
    destruct (_end_with file_name ".dat"); [split; eauto|].
    simpl. split; [by intros [? ?]|]. intros [?|[?|?]]; done.
  - intros n1. unfold _replace_tablet_id at 1.
    destruct (_end_with file_name ".hdr") eqn:Hh.
    + intros [= <-]. exists (pretty r +:+ ".hdr"). split; [|split; [|done]].
      * unfold _replace_tablet_id. by rewrite replace_tablet_id_pretty_hdr.
      * split; [intros <-; auto|].
        intros [H|[H|H]]; [| |done].
        -- by rewrite (end_with_hdr_not_idx _ H) in Hh.
        -- by rewrite (end_with_hdr_not_dat _ H) in Hh.
    + destruct (_end_with file_name ".idx" || _end_with file_name ".dat") eqn:Hid; [|done].
      intros [= <-]. exists file_name. split; [|split; [|done]].
      * unfold _replace_tablet_id. by rewrite Hh, Hid.
      * split; [|done]. intros _. apply orb_true_iff in Hid. tauto.
Qed.

Lemma replace_tablet_id_round_trip_witness :
  ∃ n2, _replace_tablet_id "3001.hdr" 2001 = Ok n2 ∧
        (n2 = "2001.hdr" ↔
           _end_with "2001.hdr" ".idx" = true ∨ _end_with "2001.hdr" ".dat" = true ∨
           "2001.hdr" = pretty 2001 +:+ ".hdr") ∧
        (_end_with "2001.hdr" ".hdr" = true → n2 = pretty 2001 +:+ ".hdr").
Proof.
  apply (proj2 (replace_tablet_id_round_trip "2001.hdr" 3001 2001) "3001.hdr").
  reflexivity.
Defined.

(** C8 as stated fails: [10007.hdr] is a legal name, and with [L = 3001]
    and [R = 2001] the two rewritings give [2001.hdr]. *)
Lemma replace_tablet_id_round_trip_counterexample :
  ∃ n1 n2, _replace_tablet_id "10007.hdr" 3001 = Ok n1 ∧
           _replace_tablet_id n1 2001 = Ok n2 ∧
           n2 ≠ "10007.hdr".
Proof. exists "3001.hdr", "2001.hdr". by vm_compute. Qed.
(** ** Local snapshot paths *)

Lemma occurs_empty (c : ascii) : ¬ occurs c "".
Proof. intros (x & y & H). by destruct x. Qed.

Lemma occurs_cons (c a : ascii) (s : string) : occurs c (String a s) ↔ a = c ∨ occurs c s.
Proof.
  split.
  - intros (x & y & H). destruct x as [|a' x]; rewrite ?app_cons in H.
    + left. by injection H.
    + right. injection H as -> ->. by exists x, y.
  - intros [-> | (x & y & ->)].
    + by exists "", s.
    + by exists (String a x), y.
Qed.

Lemma last_index_split (c : ascii) (s : string) (i : nat) :
  last_index c s = Some i →
  ∃ x y, s = x +:+ String c y ∧ String.length x = i ∧ last_index c y = None.
Proof.
  revert i. induction s as [|a s IH]; intros i; simpl; [done|].
  destruct (last_index c s) as [j|] eqn:Hj.
  - intros [= <-]. destruct (IH j eq_refl) as (x & y & -> & <- & Hy).
    by exists (String a x), y.
  - destruct (Ascii.eqb_spec a c) as [->|]; [|done].
    intros [= <-]. by exists "", s.
Qed.

Lemma last_index_None (c : ascii) (s : string) : last_index c s = None ↔ ¬ occurs c s.
Proof.
  split.
  - induction s as [|a s IH]; simpl; [intros _; apply occurs_empty|].
    rewrite occurs_cons. destruct (last_index c s); [done|].
    destruct (Ascii.eqb_spec a c); [done|]. intros _ [?|?]; [done|]. by apply IH.
  - intros Hn. destruct (last_index c s) as [i|] eqn:Hi; [|done].
    exfalso. apply Hn. apply last_index_split in Hi as (x & y & -> & _). by exists x, y.
Qed.

Lemma last_index_Some (c : ascii) (s : string) (i : nat) :
  last_index c s = Some i ↔
  ∃ x y, s = x +:+ String c y ∧ String.length x = i ∧ ¬ occurs c y.
Proof.
  split.
  - intros (x & y & ? & ? & ?%last_index_None)%last_index_split. by exists x, y.
  - intros (x & y & -> & <- & Hy%last_index_None).
    induction x as [|a x IH].
    + change ("" +:+ String c y) with (String c y). simpl.
      rewrite Hy. by rewrite Ascii.eqb_refl.
    + rewrite app_cons. simpl. by rewrite IH.
Qed.

Lemma last_index_app (c : ascii) (x y : string) :
  ¬ occurs c y → last_index c (x +:+ String c y) = Some (String.length x).
Proof. intros Hy. apply last_index_Some. by exists x, y. Qed.

(** Every string either has no [c], or splits at its last [c]. *)
Lemma split_at_last (c : ascii) (s : string) :
  ¬ occurs c s ∨ ∃ x y, s = x +:+ String c y ∧ ¬ occurs c y.
Proof.
  destruct (last_index c s) as [i|] eqn:H.
  - right. apply last_index_Some in H as (x & y & ? & _ & ?). by exists x, y.
  - left. by apply last_index_None.
Qed.

Lemma substr_tail (x y : string) :
  substr (x +:+ y) (String.length x) npos = y.
Proof.
  unfold substr, npos. rewrite length_app_s.
  replace (String.length x + String.length y - String.length x)%nat
    with (String.length y) by lia.
  apply substring_app_tail.
Qed.

Lemma find_last_of_npos (s : string) (c : ascii) : find_last_of s c npos = last_index c s.
Proof. reflexivity. Qed.

Lemma find_last_of_prefix (x y : string) (c : ascii) (n : nat) :
  String.length x = S n → find_last_of (x +:+ y) c (Some n) = last_index c x.
Proof. intros H. unfold find_last_of. by rewrite <- H, substring_0_app. Qed.

Lemma path_unfold (p : string) :
  _get_tablet_id_and_schema_hash_from_file_path p =
  match find_last_of p slash npos with
  | None => Err (InternalError ("failed to get tablet id from path: " +:+ p))
  | Some pos =>
      if bool_decide (pos = (String.length p - 1)%nat)
      then Err (InternalError ("failed to get tablet id from path: " +:+ p))
      else
        match find_last_of p slash (pos_minus_1 pos) with
        | None => Err (InternalError ("failed to get tablet id from path: " +:+ p))
        | Some pos2 =>
            Ok (extract_int64 0 (substr p (pos2 + 1) (Some (pos - pos2)%nat)),
                extract_int32 0 (substr p (pos + 1) npos))
        end
  end.
Proof. reflexivity. Qed.

Lemma path_no_slash (p : string) :
  ¬ occurs slash p →
  _get_tablet_id_and_schema_hash_from_file_path p =
    Err (InternalError ("failed to get tablet id from path: " +:+ p)).
Proof.
  intros H%last_index_None. by rewrite path_unfold, find_last_of_npos, H.
Qed.

Lemma path_trailing_slash (a : string) :
  _get_tablet_id_and_schema_hash_from_file_path (a +:+ "/") =
    Err (InternalError ("failed to get tablet id from path: " +:+ (a +:+ "/"))).
Proof.
  rewrite path_unfold, find_last_of_npos.
  change (a +:+ "/") with (a +:+ String slash "").
  rewrite last_index_app by apply occurs_empty.
  rewrite length_app_s. simpl String.length.
  by rewrite bool_decide_true by lia.
Qed.

(** The path splits at its last separator, and something follows it. *)
Lemma path_last_segment (x c : string) :
  c ≠ "" → ¬ occurs slash c →
  _get_tablet_id_and_schema_hash_from_file_path (x +:+ String slash c) =
  match find_last_of (x +:+ String slash c) slash (pos_minus_1 (String.length x)) with
  | None =>
      Err (InternalError ("failed to get tablet id from path: " +:+ (x +:+ String slash c)))
  | Some pos2 =>
      Ok (extract_int64 0 (substr (x +:+ String slash c) (pos2 + 1)
                                  (Some (String.length x - pos2)%nat)),
          extract_int32 0 c)
  end.
Proof.
  intros Hc Hnc. rewrite path_unfold, find_last_of_npos, last_index_app by done.
  assert (0 < String.length c)%nat by (destruct c; [done | simpl; lia]).
  rewrite bool_decide_false by (rewrite length_app_s; simpl; lia).
  assert (substr (x +:+ String slash c) (String.length x + 1) npos = c) as ->; [|done].
  change (x +:+ String slash c) with (x +:+ ("/" +:+ c)).
  rewrite <- app_assoc_s.
  replace (String.length x + 1)%nat with (String.length (x +:+ "/"))
    by (rewrite length_app_s; simpl; lia).
  apply substr_tail.
Qed.

Lemma path_single_slash (b c : string) :
  b ≠ "" → ¬ occurs slash b → ¬ occurs slash c →
  _get_tablet_id_and_schema_hash_from_file_path (b +:+ "/" +:+ c) =
    Err (InternalError ("failed to get tablet id from path: " +:+ (b +:+ "/" +:+ c))).
Proof.
  intros Hb Hnb Hnc. destruct (decide (c = "")) as [->|Hc].
  { apply path_trailing_slash. }
  change (b +:+ "/" +:+ c) with (b +:+ String slash c).
  rewrite path_last_segment by done.
  destruct b as [|b0 b]; [done|]. simpl String.length. simpl pos_minus_1.
  rewrite find_last_of_prefix by done.
  apply last_index_None in Hnb. by rewrite Hnb.
Qed.

Lemma path_leading_slash (c : string) :
  c ≠ "" → ¬ occurs slash c →
  _get_tablet_id_and_schema_hash_from_file_path ("/" +:+ c) = Ok (0, extract_int32 0 c).
Proof.
  intros Hc Hnc. change ("/" +:+ c) with ("" +:+ String slash c).
  rewrite path_last_segment by done.
  simpl String.length. simpl pos_minus_1.
  rewrite find_last_of_npos, last_index_app by done.
  simpl String.length. by destruct c.
Qed.

Lemma path_two_slashes (a b c : string) :
  c ≠ "" → ¬ occurs slash b → ¬ occurs slash c →
  _get_tablet_id_and_schema_hash_from_file_path (a +:+ "/" +:+ b +:+ "/" +:+ c) =
    Ok (extract_int64 0 (b +:+ "/"), extract_int32 0 c).
Proof.
  intros Hc Hnb Hnc.
  set (x := a +:+ String slash b).
  assert (a +:+ "/" +:+ b +:+ "/" +:+ c = x +:+ String slash c) as ->.
  { unfold x. change ("/" +:+ b +:+ "/" +:+ c) with (String slash (b +:+ String slash c)).
    change (a +:+ String slash (b +:+ String slash c))
      with (a +:+ (String slash b +:+ String slash c)).
    by rewrite <- app_assoc_s. }
  rewrite path_last_segment by done.
  assert (String.length x = S (String.length a + String.length b)) as Hx.
  { unfold x. rewrite length_app_s. simpl. lia. }
  rewrite Hx at 1. simpl pos_minus_1.
  rewrite find_last_of_prefix by done. unfold x at 1.
  rewrite last_index_app by done. f_equal. f_equal.
  unfold substr.
  assert (x +:+ String slash c = (a +:+ "/") +:+ ((b +:+ "/") +:+ c)) as ->.
  { unfold x. rewrite !app_assoc_s. done. }
  replace (String.length a + 1)%nat with (String.length (a +:+ "/") + 0)%nat
    by (rewrite length_app_s; simpl; lia).
  rewrite substring_skip.
  replace (String.length x - String.length a)%nat with (String.length (b +:+ "/"))
    by (rewrite Hx, length_app_s; simpl; lia).
  by rewrite substring_0_app.
Qed.

Lemma is_digits_app (s t : string) : is_digits (s +:+ t) = is_digits s && is_digits t.
Proof.
  induction s as [|a s IH]; [done|]. rewrite app_cons. simpl.
  by rewrite IH, andb_assoc.
Qed.

Lemma is_digits_no_slash (s : string) : is_digits s = true → ¬ occurs slash s.
Proof.
  induction s as [|a s IH]; simpl; [intros _; apply occurs_empty|].
  intros [Ha Hs]%andb_true_iff. rewrite occurs_cons. intros [->|?]; [done|].
  by apply IH.
Qed.

Lemma digit_of_pretty_N_char (d : N) :
  (d < 10)%N → digit_of (pretty_N_char d) = Some (Z.of_N d).
Proof.
  intros Hd.
  assert (d = 0 ∨ d = 1 ∨ d = 2 ∨ d = 3 ∨ d = 4 ∨ d = 5 ∨ d = 6 ∨ d = 7 ∨ d = 8 ∨ d = 9)%N
    as H by lia.
  repeat (destruct H as [->|H]; [reflexivity|]). by subst.
Qed.

(** The decimal form of [x], put in front of [s]: its characters are
    digits, and reading them back gives [x]. *)
Lemma pretty_N_go_digits (x : N) (s : string) :
  ∃ p, pretty_N_go x s = p +:+ s ∧ is_digits p = true ∧
       ((0 < x)%N → p ≠ "") ∧
       ∀ acc r, read_digits (p +:+ r) acc
                = read_digits r (10 ^ Z.of_nat (String.length p) * acc + Z.of_N x).
Proof.
  revert s. induction (N.lt_wf_0 x) as [x _ IH]. intros s.
  destruct (decide (x = 0%N)) as [->|Hx].
  { exists "". rewrite pretty_N_go_0. repeat split; [lia|].
    intros acc r. rewrite app_empty_l. simpl. f_equal. lia. }
  rewrite pretty_N_go_step by lia.
  destruct (IH (x `div` 10)%N (N.div_lt x 10 ltac:(lia) ltac:(lia))
              (String (pretty_N_char (x `mod` 10)) s)) as (p & Hp & Hd & _ & Hv).
  assert (x `mod` 10 < 10)%N as Hm by (apply N.mod_lt; lia).
  exists (p +:+ String (pretty_N_char (x `mod` 10)) "").
  rewrite Hp, !app_assoc_s, app_cons, app_empty_l. repeat split.
  - rewrite is_digits_app, Hd. simpl. rewrite digit_of_pretty_N_char by done. done.
  - intros _. destruct p; done.
  - intros acc r. rewrite app_assoc_s, app_cons, app_empty_l, Hv. simpl.
    rewrite digit_of_pretty_N_char by done. f_equal.
    rewrite length_app_s. simpl String.length.
    rewrite Nat2Z.inj_add, Z.pow_add_r by lia.
    pose proof (N.div_mod x 10 ltac:(lia)) as Hdm.
    assert (Z.of_N x = 10 * Z.of_N (x `div` 10) + Z.of_N (x `mod` 10)) as -> by lia.
    change (10 ^ Z.of_nat 1) with 10. ring.
Qed.

Lemma pretty_nonneg_digits (z : Z) :
  0 ≤ z →
  ∃ c p, pretty z = String c p ∧ is_digits (String c p) = true ∧
         ∀ r, read_digits (String c p +:+ r) 0 = read_digits r z.
Proof.
  intros Hz. destruct z as [|q|q]; [| |lia].
  - exists "0"%char, "". repeat split. 
  - unfold pretty, pretty_Z, pretty, pretty_positive, pretty, pretty_N.
    rewrite decide_False by done.
    destruct (pretty_N_go_digits (N.pos q) "") as (p & Hp & Hd & Hne & Hv).
    rewrite Hp, app_empty_r. destruct p as [|c p]; [by destruct Hne|].
    exists c, p. repeat split; [done|]. intros r. rewrite Hv. f_equal. lia.
Qed.

Lemma skip_ws_digit (c : ascii) (s : string) :
  is_Some (digit_of c) → skip_ws (String c s) = String c s.
Proof.
  intros [d Hd]. simpl. destruct (Ascii.is_space c) eqn:Hs; [|done].
  exfalso. revert Hd Hs. unfold digit_of, Ascii.is_nat, Ascii.is_space.
  destruct c as [[] [] [] [] [] [] [] []]; simpl; done.
Qed.

(** Extraction from the decimal form of a number in range gives the
    number, whatever non-digit follows. *)
Lemma extract_int_pretty (lo hi old z : Z) (r : string) :
  lo ≤ 0 → 0 ≤ z ≤ hi → starts_with_digit r = false →
  extract_int lo hi old (pretty z +:+ r) = z.
Proof.
  intros Hlo Hz Hr.
  destruct (pretty_nonneg_digits z) as (c & p & -> & Hd & Hv); [lia|].
  simpl in Hd. apply andb_true_iff in Hd as [Hc%bool_decide_eq_true _].
  unfold extract_int. rewrite app_cons, skip_ws_digit by done.
  assert (c ≠ "-"%char ∧ c ≠ "+"%char) as [Hm Hp].
  { split; intros ->; by destruct Hc. }
  assert ((let '(neg, s2) :=
             match String c (p +:+ r) with
             | String "-"%char r0 => (true, r0)
             | String "+"%char r0 => (false, r0)
             | _ => (false, String c (p +:+ r))
             end in
           if starts_with_digit s2
           then clamp lo hi (if neg then - read_digits s2 0 else read_digits s2 0)
           else 0)
          = clamp lo hi (read_digits (String c (p +:+ r)) 0)) as ->.
  { destruct c as [[] [] [] [] [] [] [] []];
      first [ reflexivity | exfalso; destruct Hc as [? Hc]; by vm_compute in Hc ]. }
  rewrite <- app_cons, Hv.
  assert (read_digits r z = z) as ->.
  { destruct r as [|c' r]; [done|]. simpl in *.
    destruct (digit_of c'); [|done]. by rewrite bool_decide_true in Hr by eauto. }
  unfold clamp. rewrite (proj2 (Z.ltb_ge _ _)) by lia.
  by rewrite (proj2 (Z.ltb_ge _ _)) by lia.
Qed.

Lemma path_numeric (a : string) (t h : Z) :
  0 ≤ t < 2 ^ 63 → 0 ≤ h < 2 ^ 31 →
  _get_tablet_id_and_schema_hash_from_file_path
    (a +:+ "/" +:+ pretty t +:+ "/" +:+ pretty h) = Ok (t, h).
Proof.
  intros Ht Hh.
  destruct (pretty_nonneg_digits t) as (ct & pt & Hpt & Hdt & _); [lia|].
  destruct (pretty_nonneg_digits h) as (ch & ph & Hph & Hdh & _); [lia|].
  rewrite path_two_slashes.
  - f_equal. f_equal.
    + apply extract_int_pretty; [lia | lia | done].
    + rewrite <- (app_empty_r (pretty h)). apply extract_int_pretty; [lia | lia | done].
  - by rewrite Hph.
  - rewrite Hpt. by apply is_digits_no_slash.
  - rewrite Hph. by apply is_digits_no_slash.
Qed.

Lemma path_error_code (p : string) (st : Status) :
  _get_tablet_id_and_schema_hash_from_file_path p = Err st → code st = INTERNAL_ERROR.
Proof.
  rewrite path_unfold. repeat case_match; try done; by intros [= <-].
Qed.

(** C6, as the code has it: the extraction fails with the path-parse
    error exactly on the paths without a separator, the paths that end
    in a separator, and the paths whose only separator is not their
    first character.  On every other path it succeeds whatever the last
    two segments are: the schema hash is what the stream extraction reads
    from the last segment, the tablet id what it reads from the segment
    before it (0 where no number starts).  On a path
    [.../<tablet_id>/<schema_hash>] with the decimal forms of a tablet id
    and a schema hash in range it returns these two numbers. *)
Theorem tablet_id_and_schema_hash_from_file_path_cases (p : string) :
  ((∃ st, _get_tablet_id_and_schema_hash_from_file_path p = Err st) ↔
     ¬ occurs slash p ∨ (∃ a, p = a +:+ "/") ∨
     (∃ b c, b ≠ "" ∧ ¬ occurs slash b ∧ ¬ occurs slash c ∧ p = b +:+ "/" +:+ c)) ∧
  (∀ c, c ≠ "" → ¬ occurs slash c → p = "/" +:+ c →
     _get_tablet_id_and_schema_hash_from_file_path p = Ok (0, extract_int32 0 c)) ∧
  (∀ a b c, c ≠ "" → ¬ occurs slash b → ¬ occurs slash c →
     p = a +:+ "/" +:+ b +:+ "/" +:+ c →
     _get_tablet_id_and_schema_hash_from_file_path p =
       Ok (extract_int64 0 (b +:+ "/"), extract_int32 0 c)) ∧
  (∀ a tablet_id schema_hash,
     0 ≤ tablet_id < 2 ^ 63 → 0 ≤ schema_hash < 2 ^ 31 →
     p = a +:+ "/" +:+ pretty tablet_id +:+ "/" +:+ pretty schema_hash →
     _get_tablet_id_and_schema_hash_from_file_path p = Ok (tablet_id, schema_hash)).
Proof.
  split; [|split; [|split]]; [| | |intros a t h Ht Hh ->; by apply path_numeric].
  - split.
    + intros [st Hst].
      destruct (split_at_last slash p) as [Hn | (x & c & -> & Hc)]; [by left|].
      right. destruct (decide (c = "")) as [-> | Hne]; [left; by exists x|].
      destruct (split_at_last slash x) as [Hn | (a & b & -> & Hb)].
      * destruct (decide (x = "")) as [-> | Hx].
        -- change ("" +:+ String slash c) with ("/" +:+ c) in Hst.
           by rewrite path_leading_slash in Hst.
        -- right. by exists x, c.
      * assert ((a +:+ String slash b) +:+ String slash c
                = a +:+ "/" +:+ b +:+ "/" +:+ c) as Heq by (by rewrite !app_assoc_s).
        rewrite Heq in Hst. by rewrite path_two_slashes in Hst.
    + intros [H | [[a ->] | (b & c & Hb & Hnb & Hnc & ->)]].
      * eexists. by apply path_no_slash.
      * eexists. apply path_trailing_slash.
      * eexists. by apply path_single_slash.
  - intros c Hc Hnc ->. by apply path_leading_slash.
  - intros a b c Hc Hnb Hnc ->. by apply path_two_slashes.
Qed.

Lemma tablet_id_and_schema_hash_from_file_path_cases_witness :
  _get_tablet_id_and_schema_hash_from_file_path "/snap/tablet/hash" =
    Ok (extract_int64 0 "tablet/", extract_int32 0 "hash").
Proof.
  destruct (tablet_id_and_schema_hash_from_file_path_cases "/snap/tablet/hash")
    as (_ & _ & H & _).
  apply (H "/snap" "tablet" "hash"); [done | | | done].
  - apply last_index_None. reflexivity.
  - apply last_index_None. reflexivity.
Defined.

(** C6 as stated fails: the last two segments of [/snap/tablet/hash] are
    not numbers, and the extraction succeeds, with tablet id 0 and
    schema hash 0. *)
Lemma tablet_id_and_schema_hash_from_file_path_counterexample :
  _get_tablet_id_and_schema_hash_from_file_path "/snap/tablet/hash" = Ok (0, 0).
Proof. reflexivity. Qed.
(** ** The diff of the download over HTTP *)

Lemma http_need_download_files_spec (local_files : gmap string LocalFileStat)
    (remote_files : gmap string RemoteFileStat) (remote_file : string) :
  remote_file ∈ http_need_download_files local_files remote_files ↔
  ∃ remote_filestat,
    remote_files !! remote_file = Some remote_filestat ∧
    http_need_download local_files remote_file remote_filestat = true.
Proof.
  unfold http_need_download_files.
  assert (∀ (l : list (string * RemoteFileStat)) (acc : list string),
    remote_file ∈
      foldl (λ need_download_files '(remote_file, remote_filestat),
               if http_need_download local_files remote_file remote_filestat
               then (need_download_files ++ [remote_file])%list
               else need_download_files) acc l ↔
    remote_file ∈ acc ∨
    ∃ st, (remote_file, st) ∈ l ∧ http_need_download local_files remote_file st = true)
    as Hgen.
  { induction l as [|[f st] l IH]; intros acc; simpl.
    - split; [auto|]. intros [?|(? & H & _)]; [done|]. by apply elem_of_nil in H.
    - rewrite IH. destruct (http_need_download local_files f st) eqn:Hf.
      + rewrite elem_of_app, list_elem_of_singleton. split.
        * intros [[?| ->]|(st' & ? & ?)]; eauto.
          -- right. exists st. split; [apply elem_of_cons; auto | done].
          -- right. exists st'. split; [apply elem_of_cons; auto | done].
        * intros [?|(st' & [Heq|?]%elem_of_cons & ?)]; eauto.
          injection Heq as -> ->. auto.
      + split.
        * intros [?|(st' & ? & ?)]; eauto.
          right. exists st'. split; [apply elem_of_cons; auto | done].
        * intros [?|(st' & [Heq|?]%elem_of_cons & ?)]; eauto.
          injection Heq as -> ->. congruence. }
  rewrite Hgen. split.
  - intros [H|(st & H & ?)]; [by apply elem_of_nil in H|].
    exists st. by apply elem_of_map_to_list in H.
  - intros (st & H & ?). right. exists st. by rewrite elem_of_map_to_list.
Qed.

(** C3, as the code has it: for a remote file that is not a header and
    exists locally, the file is left out of the download exactly when the
    local size equals the declared size and the local md5 equals the
    declared md5 as a string.  An empty declared md5 is compared like any
    other: with equal sizes the file is skipped only if the local md5 is
    empty as well, and it is downloaded whenever the local md5 is not
    empty.  What the empty declared md5 does switch off is the md5 check
    of the file once it is downloaded: that check then passes exactly
    when the size on disk is the declared size, and the file is not
    hashed. *)
Theorem http_need_download_present_file (local_files : gmap string LocalFileStat)
    (remote_files : gmap string RemoteFileStat) (remote_file : string)
    (local_filestat : LocalFileStat) (remote_filestat : RemoteFileStat) :
  local_files !! remote_file = Some local_filestat →
  remote_files !! remote_file = Some remote_filestat →
  _end_with remote_file ".hdr" = false →
  (remote_file ∉ http_need_download_files local_files remote_files ↔
     LocalFileStat.size local_filestat = RemoteFileStat.size remote_filestat ∧
     LocalFileStat.md5 local_filestat = RemoteFileStat.md5 remote_filestat) ∧
  (RemoteFileStat.md5 remote_filestat = "" →
   LocalFileStat.md5 local_filestat ≠ "" →
   remote_file ∈ http_need_download_files local_files remote_files) ∧
  (RemoteFileStat.md5 remote_filestat = "" →
   ∀ (L R E C : Type) (ld : @SnapshotLoader L R E C) (local_file_path : string)
     (file_size : Z) (s : @State L R E C),
     let run := http_verify_download ld local_file_path (RemoteFileStat.url remote_filestat)
                  (RemoteFileStat.md5 remote_filestat) file_size s in
     (run.1 = Done tt ↔
        fs_file_size (local_fs (_env ld)) local_file_path (disk s) = inl file_size) ∧
     calls run.2 = (calls s ++ [CFileSize local_file_path])%list).
Proof.
  intros Hl Hr Hh.
  assert (http_need_download local_files remote_file remote_filestat = false ↔
          LocalFileStat.size local_filestat = RemoteFileStat.size remote_filestat ∧
          LocalFileStat.md5 local_filestat = RemoteFileStat.md5 remote_filestat) as Hd.
  { unfold http_need_download. rewrite Hl, Hh.
    destruct (Z.eqb_spec (LocalFileStat.size local_filestat)
                         (RemoteFileStat.size remote_filestat)) as [Hs|Hs];
      destruct (String.eqb_spec (LocalFileStat.md5 local_filestat)
                                (RemoteFileStat.md5 remote_filestat)) as [Hm|Hm];
      simpl; (split; [try done; tauto | try done; intros [? ?]; done]). }
  rewrite http_need_download_files_spec. split; [|split].
  - rewrite <- Hd. split.
    + intros Hn. apply not_true_iff_false. intros Hb. apply Hn. eauto.
    + intros Hf (st & Hst & Ht). congruence.
  - intros He Hne. exists remote_filestat. split; [done|].
    apply not_false_iff_true. intros Hb. apply Hd in Hb as [_ Hm]. congruence.
  - intros -> L R E C ld local_file_path file_size s.
    unfold http_verify_download, bind, file_size_.
    destruct (fs_file_size _ _ _) as [sz|ec]; simpl; [|by split].
    destruct (Z.eqb_spec sz file_size) as [->|Hne]; simpl; [by split|].
    split; [|done]. split; [done|]. intros [= ?]. done.
Qed.
Section Properties.

Context {L R E C : Type}.

Abbreviation State := (@State L R E C).
Abbreviation M := (@M L R E C).
Abbreviation SnapshotLoader := (@SnapshotLoader L R E C).
Abbreviation RemoteFileSystem := (@RemoteFileSystem L R).

Implicit Types (ld : SnapshotLoader) (fs : RemoteFileSystem) (s : State).

(** ** The reporter *)

(** C5: [_report_every] returns OK when the RPC to the frontend fails at
    the transport level; it returns the cancellation error exactly when
    the RPC was made, succeeded, and brought the status code CANCELLED;
    every other run, whatever status code came back, returns OK. *)
Theorem report_every_outcome ld (report_threshold counter finished_num total_num : Z)
    (type : TTaskType) s :
  let request := mkReport (_job_id ld) (_task_id ld) type finished_num total_num in
  let rpcStatus := (fe_snapshotLoaderReport (frontend (_env ld)) request (fe s)).1.1 in
  let status_code := (fe_snapshotLoaderReport (frontend (_env ld)) request (fe s)).1.2 in
  let out := (_report_every ld report_threshold counter finished_num total_num type s).1 in
  let s' := (_report_every ld report_threshold counter finished_num total_num type s).2 in
  (calls s' = if report_threshold <? int_incr counter
              then (calls s ++ [CReport request])%list else calls s) ∧
  (ok rpcStatus = false → ∃ c, out = Done c) ∧
  (out = Failed (Cancelled "Cancelled") ↔
     report_threshold < int_incr counter ∧ ok rpcStatus = true ∧
     status_code = TStatusCode_CANCELLED) ∧
  ((∃ c, out = Done c) ∨ out = Failed (Cancelled "Cancelled")).
Proof.
  cbv zeta. unfold _report_every, snapshotLoaderReport, bind, ret, fail.
  destruct (Z.leb_spec (int_incr counter) report_threshold) as [Hle|Hlt].
  - rewrite (proj2 (Z.ltb_ge _ _)) by lia. simpl.
    split; [done|]. split; [eauto|]. split; [|eauto].
    split; [done|]. intros [? _]. lia.
  - rewrite (proj2 (Z.ltb_lt _ _)) by lia.
    destruct (fe_snapshotLoaderReport _ _ _) as [[rpcStatus status_code] c]. simpl.
    destruct (ok rpcStatus) eqn:Hok; simpl.
    + destruct (bool_decide_reflect (status_code = TStatusCode_CANCELLED)) as [->|Hne];
        simpl.
      * split; [done|]. split; [done|]. split; [|eauto]. split; [|done].
        intros _. split; [lia|done].
      * split; [done|]. split; [done|]. split; [|eauto]. split; [done|].
        intros (_ & _ & ?). done.
    + split; [done|]. split; [eauto|]. split; [|eauto].
      split; [done|]. intros (_ & ? & _). done.
Qed.

(** ** Upload of one file *)

(** C1: what [upload_with_checksum] asks of the remote file system.  On
    HDFS and on a broker the file is uploaded to [<remote>.part] and,
    once that upload has succeeded, renamed to [<remote>.<md5>]; on S3
    it is uploaded to [<remote>.<md5>] at once; any other type raises the
    fatal error and nothing is asked of the file system. *)
Theorem upload_with_checksum_protocol fs (local_path remote_path checksum : string) s :
  let temp := remote_path +:+ ".part" in
  let full_remote_path := remote_path +:+ "." +:+ checksum in
  let out := (upload_with_checksum fs local_path remote_path checksum s).1 in
  let s' := (upload_with_checksum fs local_path remote_path checksum s).2 in
  match rfs_type fs with
  | HDFS | BROKER =>
      let up := rfs_upload fs local_path temp (disk s) (store s) in
      if ok up.1 then
        let mv := rfs_rename fs temp full_remote_path up.2 in
        calls s' = (calls s ++ [CRemoteUpload local_path temp;
                                CRemoteRename temp full_remote_path])%list ∧
        store s' = mv.2 ∧
        out = (if ok mv.1 then Done tt else Failed mv.1)
      else
        calls s' = (calls s ++ [CRemoteUpload local_path temp])%list ∧
        store s' = up.2 ∧
        out = Failed up.1
  | S3 =>
      let up := rfs_upload fs local_path full_remote_path (disk s) (store s) in
      calls s' = (calls s ++ [CRemoteUpload local_path full_remote_path])%list ∧
      store s' = up.2 ∧
      out = (if ok up.1 then Done tt else Failed up.1)
  | OTHER_TYPE tag =>
      out = Thrown (FatalError ("unknown fs type: " +:+ pretty tag)) ∧ s' = s
  end.
Proof.
  cbv zeta. unfold upload_with_checksum.
  unfold remote_upload, remote_rename, return_if_error, bind, ret, fail, throw.
  destruct (rfs_type fs); simpl.
  - destruct (rfs_upload fs _ _ _ _) as [st r]; simpl.
    by destruct (ok st).
  - destruct (rfs_upload fs _ _ _ _) as [st r]; simpl.
    destruct (ok st); simpl; [|done].
    destruct (rfs_rename fs _ _ _) as [st2 r2]; simpl.
    destruct (ok st2); simpl; by rewrite <- app_assoc.
  - destruct (rfs_upload fs _ _ _ _) as [st r]; simpl.
    destruct (ok st); simpl; [|done].
    destruct (rfs_rename fs _ _ _) as [st2 r2]; simpl.
    destruct (ok st2); simpl; by rewrite <- app_assoc.
  - done.
Qed.


(** The calls of [upload_with_checksum] are uploads and renames of the
    staging name and of the checksummed name; unless the type is unknown
    there is at least one. *)
Lemma upload_with_checksum_calls fs (local_path remote_path checksum : string) s :
  let temp := remote_path +:+ ".part" in
  let full_remote_path := remote_path +:+ "." +:+ checksum in
  let run := upload_with_checksum fs local_path remote_path checksum s in
  ∃ cs, calls run.2 = (calls s ++ cs)%list ∧
        Forall (λ c, c = CRemoteUpload local_path temp ∨
                     c = CRemoteUpload local_path full_remote_path ∨
                     c = CRemoteRename temp full_remote_path) cs ∧
        (cs = [] → ∃ e, run.1 = Thrown e).
Proof.
  cbv zeta. unfold upload_with_checksum.
  unfold remote_upload, remote_rename, return_if_error, bind, ret, fail, throw.
  destruct (rfs_type fs); simpl.
  - destruct (rfs_upload fs _ _ _ _) as [st r]; simpl.
    eexists [_]. destruct (ok st); simpl; repeat split; auto; done.
  - destruct (rfs_upload fs _ _ _ _) as [st r]; simpl.
    destruct (ok st); simpl; [|eexists [_]; repeat split; auto; done].
    destruct (rfs_rename fs _ _ _) as [st2 r2]; simpl.
    eexists [_; _].
    destruct (ok st2); simpl; rewrite <- app_assoc; repeat split; auto; done.
  - destruct (rfs_upload fs _ _ _ _) as [st r]; simpl.
    destruct (ok st); simpl; [|eexists [_]; repeat split; auto; done].
    destruct (rfs_rename fs _ _ _) as [st2 r2]; simpl.
    eexists [_; _].
    destruct (ok st2); simpl; rewrite <- app_assoc; repeat split; auto; done.
  - exists []. rewrite app_nil_r. repeat split; eauto.
Qed.

Lemma need_upload_false_iff (remote_files : gmap string FileStat) (local_file md5 : string) :
  need_upload remote_files local_file md5 = false ↔
  ∃ stat, remote_files !! local_file = Some stat ∧ FileStat.md5 stat = md5.
Proof.
  unfold need_upload. destruct (remote_files !! local_file) as [stat|].
  - rewrite negb_false_iff, String.eqb_eq. split.
    + intros ->. by exists stat.
    + by intros (? & [= <-] & ->).
  - split; [done|]. by intros (? & ? & _).
Qed.

(** The checksummed listing holds, for each name, the first object
    listed under it. *)
Lemma index_by_checksum_lookup (files : list FileInfo) (name : string) :
  index_by_checksum files !! name = first_listed files name.
Proof.
  unfold index_by_checksum, first_listed.
  assert (∀ (m : gmap string FileStat),
    foldl (λ (md5_files : gmap string FileStat) (tmp_file : FileInfo),
             match checksum_stat tmp_file with
             | None => md5_files
             | Some stat => emplace (FileStat.name stat) stat md5_files
             end) m files !! name
    = match m !! name with
      | Some stat => Some stat
      | None => head (filter (λ stat, FileStat.name stat = name)
                             (omap checksum_stat files))
      end) as Hgen.
  { induction files as [|f files IH]; intros m; simpl.
    - by destruct (m !! name).
    - rewrite IH. destruct (checksum_stat f) as [stat|]; [|done].
      unfold emplace. rewrite filter_cons.
      destruct (decide (FileStat.name stat = name)) as [<-|Hne].
      + destruct (m !! FileStat.name stat) eqn:Hm; [by rewrite Hm|].
        by rewrite lookup_insert_eq.
      + destruct (m !! FileStat.name stat); [done|]. by rewrite lookup_insert_ne. }
  by rewrite Hgen, lookup_empty.
Qed.

(** The body of the loop of [upload] over the local files: once the
    report has passed and the md5 of the file is computed, the file is
    skipped (the loop goes on with the world as the hashing left it) if
    and only if the map built from the listing of the remote directory
    has an entry under the file's name whose md5 is the md5 just
    computed; the entry is the first object listed under the name
    ([index_by_checksum_lookup]).  In every other
    case, the name absent or listed with another md5, the file goes
    through [upload_with_checksum] to [<dest>/<file>] with the new md5;
    the only calls that follow are uploads and the rename of the staging
    name and of the new checksummed name, so no remote object is
    deleted. *)
Lemma upload_file_skips_iff_listed ld fs (src_path dest_path : string)
    (files : list FileInfo) (finished_num total_num : Z) (local_file : string)
    (counter0 : Z) (with_checksum : list string) s (counter : Z) s1 (st : Status)
    (md5 : string) :
  let remote_files := index_by_checksum files in
  let local_path := src_path +:+ "/" +:+ local_file in
  let remote_path := dest_path +:+ "/" +:+ local_file in
  _report_every ld 10 counter0 finished_num total_num UPLOAD s = (Done counter, s1) →
  fs_md5sum (local_fs (_env ld)) local_path (disk s1) = (st, md5) →
  ok st = true →
  let s2 := logged s1 (CMd5sum local_path) in
  let acc' := (counter, (with_checksum ++ [local_file +:+ "." +:+ md5])%list) in
  let run := upload_file ld fs src_path dest_path remote_files finished_num total_num
               local_file (counter0, with_checksum) s in
  let listed := ∃ stat, remote_files !! local_file = Some stat ∧ FileStat.md5 stat = md5 in
  let up := upload_with_checksum fs local_path remote_path md5 s2 in
  (run = (Done acc', s2) ↔ listed) ∧
  (¬ listed →
     run = (match up.1 with
            | Done _ => Done acc'
            | Failed e => Failed e
            | Thrown e => Thrown e
            end, up.2)) ∧
  (∃ cs, calls run.2 = (calls s2 ++ cs)%list ∧
         Forall (λ c, c = CRemoteUpload local_path (remote_path +:+ ".part") ∨
                      c = CRemoteUpload local_path (remote_path +:+ "." +:+ md5) ∨
                      c = CRemoteRename (remote_path +:+ ".part")
                            (remote_path +:+ "." +:+ md5)) cs).
Proof.
  intros remote_files local_path remote_path Hrep Hmd5 Hok s2 acc' run listed up.
  assert (need_upload remote_files local_file md5 = true →
          run = (match up.1 with
                 | Done _ => Done acc'
                 | Failed e => Failed e
                 | Thrown e => Thrown e
                 end, up.2)) as Hup.
  { intros Hn. unfold run, upload_file, bind at 1. rewrite Hrep.
    unfold bind at 1, md5sum at 1. fold local_path. rewrite Hmd5.
    unfold bind at 1, return_if_error. rewrite Hok. unfold ret at 1.
    rewrite Hn. cbn [negb]. fold local_path remote_path s2. unfold up, bind.
    by destruct (upload_with_checksum fs local_path remote_path md5 s2)
      as [[ [] | e | e ] s3]. }
  assert (need_upload remote_files local_file md5 = false → run = (Done acc', s2)) as Hskip.
  { intros Hn. unfold run, upload_file, bind at 1. rewrite Hrep.
    unfold bind at 1, md5sum at 1. fold local_path. rewrite Hmd5.
    unfold bind at 1, return_if_error. rewrite Hok. unfold ret at 1.
    rewrite Hn. done. }
  pose proof (upload_with_checksum_calls fs local_path remote_path md5 s2)
    as (cs & Hcs & Hall & Hnil). fold up in Hcs, Hnil.
  pose proof (need_upload_false_iff remote_files local_file md5) as Hiff.
  fold listed in Hiff.
  destruct (need_upload remote_files local_file md5) eqn:Hn.
  - assert (¬ listed) as Hnl by (rewrite <- Hiff; done).
    split; [|split].
    + split; [|done]. rewrite (Hup eq_refl). intros Heq. exfalso.
      destruct cs as [|c cs].
      * destruct (Hnil eq_refl) as [e He]. rewrite He in Heq. done.
      * assert (calls up.2 = calls s2) as Hc by (injection Heq as _ ->; done).
        rewrite Hcs in Hc. apply (f_equal length) in Hc.
        rewrite length_app in Hc. simpl in Hc. lia.
    + intros _. by apply Hup.
    + exists cs. by rewrite (Hup eq_refl).
  - assert listed as Hl by (by apply Hiff).
    split; [|split].
    + split; [done|]. intros _. by apply Hskip.
    + done.
    + exists []. rewrite (Hskip eq_refl). simpl. by rewrite app_nil_r.
Qed.


(** ** Frames *)

Lemma State_eq (a b : State) :
  disk a = disk b → store a = store b → eng a = eng b → fe a = fe b →
  calls a = calls b → tablet_files a = tablet_files b →
  downloaded_tablet_ids a = downloaded_tablet_ids b → a = b.
Proof. destruct a, b; simpl; congruence. Qed.

Lemma bind_Done_inv {A B} (m : M A) (k : A → M B) s (b : B) s' :
  bind m k s = (Done b, s') → ∃ a s1, m s = (Done a, s1) ∧ k a s1 = (Done b, s').
Proof.
  unfold bind. destruct (m s) as [[a|e|e] s1]; [eauto | done | done].
Qed.

Lemma bind_Done {A B} (m : M A) (k : A → M B) s (a : A) s1 :
  m s = (Done a, s1) → bind m k s = k a s1.
Proof. unfold bind. by intros ->. Qed.

Lemma keeps_ret {A X} (f : State → X) (a : A) : keeps f (ret a).
Proof. by intros s. Qed.

Lemma keeps_fail {A X} (f : State → X) (st : Status) : keeps f (@fail L R E C A st).
Proof. by intros s. Qed.

Lemma keeps_throw {A X} (f : State → X) (st : Status) : keeps f (@throw L R E C A st).
Proof. by intros s. Qed.

Lemma keeps_bind {A B X} (f : State → X) (m : M A) (k : A → M B) :
  keeps f m → (∀ a, keeps f (k a)) → keeps f (bind m k).
Proof.
  intros Hm Hk s. unfold bind. specialize (Hm s).
  destruct (m s) as [[a|e|e] s1]; simpl in *; [|done..].
  by rewrite Hk.
Qed.

Lemma keeps_for_each {A S X} (f : State → X) (xs : list A) (body : A → S → M S) (acc : S) :
  (∀ x a, keeps f (body x a)) → keeps f (for_each xs body acc).
Proof.
  intros Hb. revert acc. induction xs as [|x xs IH]; intros acc; simpl.
  - apply keeps_ret.
  - apply keeps_bind; [apply Hb | intros; apply IH].
Qed.

Lemma keeps_lift {A X} (f : State → X) (r : Result A) : keeps f (lift r).
Proof. destruct r; [apply keeps_ret | apply keeps_fail]. Qed.

Lemma keeps_return_if_error {X} (f : State → X) (st : Status) :
  keeps f (return_if_error st).
Proof. unfold return_if_error. destruct (ok st); [apply keeps_ret | apply keeps_fail]. Qed.

(** A call to a collaborator keeps every component it does not write. *)
Ltac keeps_call :=
  intros ?;
  cbv [is_directory local_list md5sum file_size_ exists_ remove remove_all
       create_directory link remote_list remote_upload remote_rename remote_download
       get_tablet get_store reach_capacity_limit convert_rowset_ids try_to_lock
       load_tablet_from_dir snapshotLoaderReport push_downloaded_tablet_id
       emplace_tablet_files];
  repeat case_match; reflexivity.

Ltac keeps_step :=
  first
    [ apply keeps_ret | apply keeps_fail | apply keeps_throw
    | apply keeps_lift | apply keeps_return_if_error
    | apply keeps_bind; [|intros]
    | apply keeps_for_each; intros
    | progress (repeat case_match)
    | solve [keeps_call] ].

Ltac keeps_auto := repeat keeps_step.

Lemma report_every_keeps_ids ld (t c f n : Z) (ty : TTaskType) :
  keeps downloaded_tablet_ids (_report_every ld t c f n ty).
Proof. unfold _report_every. keeps_auto. Qed.

Lemma report_every_keeps_disk ld (t c f n : Z) (ty : TTaskType) :
  keeps disk (_report_every ld t c f n ty).
Proof. unfold _report_every. keeps_auto. Qed.

Lemma report_every_keeps_tablet_files ld (t c f n : Z) (ty : TTaskType) :
  keeps tablet_files (_report_every ld t c f n ty).
Proof. unfold _report_every. keeps_auto. Qed.

Lemma get_existing_files_keeps {X} (f : State → X) ld (p : string) :
  (∀ s c, f (logged s c) = f s) →
  keeps f (_get_existing_files_from_local ld p).
Proof.
  intros Hf. unfold _get_existing_files_from_local. keeps_auto.
  intros s. apply Hf.
Qed.

Lemma list_with_checksum_keeps {X} (f : State → X) fs (dir : string) :
  (∀ s c, f (logged s c) = f s) →
  keeps f (_list_with_checksum fs dir).
Proof.
  intros Hf. unfold _list_with_checksum. keeps_auto.
  intros s. apply Hf.
Qed.

(** ** Download *)

Lemma download_file_keeps_ids ld fs (remote_path local_path : string) (tid : Z)
    (dir : DataDir) (f n : Z) (iter : string * FileStat) (acc : Z * list string) :
  keeps downloaded_tablet_ids (download_file ld fs remote_path local_path tid dir f n iter acc).
Proof.
  unfold download_file, need_download. destruct acc.
  keeps_auto; apply report_every_keeps_ids.
Qed.

Lemma prune_file_keeps_ids ld (local_path : string) (tid : Z) (has : string → bool)
    (file : string) (u : unit) :
  keeps downloaded_tablet_ids (prune_file ld local_path tid has file u).
Proof. unfold prune_file. keeps_auto. Qed.

(** The body of the loop of [download] records the local tablet id of
    a pair as soon as the local path is parsed: however the rest of the
    pair goes, the id is at the end of the vector; if the remote path
    then fails to parse,
    the error is returned with the id recorded and no call made; if the
    listing of the local directory then fails, the error is returned
    with the id recorded and that listing as the only call, so nothing
    of the pair was diffed or transferred. *)
Lemma download_tablet_records_id_first ld fs (total_num : Z)
    (remote_path local_path : string) (acc : Z * Z) s (local_tablet_id schema_hash : Z) :
  _get_tablet_id_and_schema_hash_from_file_path local_path
    = Ok (local_tablet_id, schema_hash) →
  let run := download_tablet ld fs total_num (remote_path, local_path) acc s in
  let recorded :=
    set_downloaded_tablet_ids s (downloaded_tablet_ids s ++ [local_tablet_id])%list in
  downloaded_tablet_ids run.2 = (downloaded_tablet_ids s ++ [local_tablet_id])%list ∧
  (∀ st, _get_tablet_id_from_remote_path remote_path uninitialized = Err st →
         run = (Failed st, recorded)) ∧
  (∀ remote_tablet_id st files,
     _get_tablet_id_from_remote_path remote_path uninitialized = Ok remote_tablet_id →
     fs_list (local_fs (_env ld)) local_path (disk s) = (st, files) →
     ok st = false →
     run = (Failed st, logged recorded (CLocalList local_path))).
Proof.
  intros Hparse run recorded.
  assert (run = (let* _ := push_downloaded_tablet_id local_tablet_id in
                 let* remote_tablet_id :=
                   lift (_get_tablet_id_from_remote_path remote_path uninitialized) in
                 let* local_files := _get_existing_files_from_local ld local_path in
                 let* remote_files := _list_with_checksum fs remote_path in
                 if bool_decide (remote_files = ∅)
                 then fail (InternalError ("get nothing from remote path: " +:+ remote_path))
                 else
                   let* tablet := get_tablet ld local_tablet_id in
                   match tablet with
                   | None =>
                       fail (InternalError ("failed to get local tablet: "
                                            +:+ pretty local_tablet_id))
                   | Some tablet =>
                       let* (report_counter, local_files) :=
                         for_each (entries remote_files)
                           (download_file ld fs remote_path local_path local_tablet_id
                              (data_dir tablet) acc.2 total_num)
                           (acc.1, local_files) in
                       let* _ :=
                         for_each local_files
                           (prune_file ld local_path remote_tablet_id
                              (λ new_name, bool_decide (is_Some (remote_files !! new_name))))
                           tt in
                       ret (report_counter, int_incr acc.2)
                   end) s) as Hrun.
  { unfold run, download_tablet. destruct acc as [rc fin]. simpl fst. simpl snd.
    unfold bind at 1. rewrite Hparse. reflexivity. }
  split; [|split].
  - rewrite Hrun. unfold bind at 1. unfold push_downloaded_tablet_id at 1.
    match goal with |- downloaded_tablet_ids (?m ?s0).2 = _ =>
      assert (keeps downloaded_tablet_ids m) as Hk
    end.
    { keeps_auto;
        first [ apply get_existing_files_keeps; done
              | apply list_with_checksum_keeps; done
              | apply download_file_keeps_ids
              | apply prune_file_keeps_ids ]. }
    rewrite Hk. reflexivity.
  - intros st Hst. rewrite Hrun. unfold bind at 1, push_downloaded_tablet_id at 1.
    rewrite Hst. reflexivity.
  - intros remote_tablet_id st files Hr Hlist Hok. rewrite Hrun.
    unfold bind at 1, push_downloaded_tablet_id at 1. rewrite Hr.
    unfold lift, bind at 1, ret at 1.
    unfold _get_existing_files_from_local, bind at 1, bind at 1, local_list at 1.
    cbn [disk set_downloaded_tablet_ids]. rewrite Hlist.
    unfold return_if_error. rewrite Hok. reflexivity.
Qed.

(** ** Move *)

(** C4, as the code has it: when [move] gets as far as the tablet locks
    (the two paths parse to the same tablet id and schema hash, the
    store and both directories exist, the rowset ids of the snapshot
    were converted, [overwrite] is set) and one of the six locks is not
    granted, it returns the retryable "obtain lock failed" error.  By
    then it has run [convert_rowset_ids] on the snapshot directory and
    tried the six locks: the disk and the engine are as that conversion
    left them, and nothing else was done; the tablet directory was not
    removed, recreated or linked into, and the tablet was not
    reloaded. *)
Theorem move_obtain_lock_failed ld (snapshot_path : string) (tablet : Tablet) s
    (tablet_id schema_hash : Z) (dir : DataDir) (l : L) (e : E) (lk : TabletLock) :
  let lfs := local_fs (_env ld) in
  let eg := engine (_env ld) in
  _get_tablet_id_and_schema_hash_from_file_path snapshot_path
    = Ok (tablet_id, schema_hash) →
  _get_tablet_id_and_schema_hash_from_file_path (tablet_path tablet)
    = Ok (tablet_id, schema_hash) →
  eng_get_store eg (dir_path (data_dir tablet)) (eng s) = Some dir →
  fs_exists lfs (tablet_path tablet) (disk s) = true →
  fs_exists lfs snapshot_path (disk s) = true →
  eng_convert_rowset_ids eg snapshot_path tablet_id (replica_id tablet)
    (table_id tablet) (partition_id tablet) schema_hash (disk s) (eng s)
    = (None, l, e) →
  eng_try_lock eg tablet lk e = false →
  move ld snapshot_path tablet true s =
    (Failed (ObtainLockFailed
               ("failed to get tablet locks, tablet: " +:+ pretty tablet_id)),
     mkState l (store s) e (fe s)
       (calls s ++
          [CGetStore (dir_path (data_dir tablet));
           CExists (tablet_path tablet);
           CExists snapshot_path;
           CConvertRowsetIds snapshot_path tablet_id (replica_id tablet)
             (table_id tablet) (partition_id tablet) schema_hash;
           CTryLock migration_lock;
           CTryLock base_compaction_lock;
           CTryLock cumulative_compaction_lock;
           CTryLock cold_compaction_lock;
           CTryLock build_inverted_index_lock;
           CTryLock meta_store_lock])%list
       (tablet_files s) (downloaded_tablet_ids s)).
Proof.
  cbv zeta. intros Hp1 Hp2 Hstore Hex1 Hex2 Hconv Hlk.
  unfold move. rewrite Hp1, Hp2.
  unfold lift at 1, bind at 1, ret at 1.
  unfold lift at 1, bind at 1, ret at 1.
  rewrite !Z.eqb_refl. cbn [negb orb].
  unfold bind at 1, get_store at 1. rewrite Hstore.
  unfold bind at 1, exists_ at 1. cbn [disk logged]. rewrite Hex1. cbn [negb].
  unfold bind at 1, exists_ at 1. cbn [disk logged]. rewrite Hex2. cbn [negb].
  unfold bind at 1, convert_rowset_ids at 1. cbn [disk eng logged]. rewrite Hconv.
  cbn [negb].
  do 6 (unfold bind at 1, try_to_lock at 1).
  cbn [eng logged set_eng set_disk disk store fe calls tablet_files
       downloaded_tablet_ids].
  match goal with
  | |- (if ?b then _ else _) _ = _ => assert (b = true) as ->
  end.
  { destruct lk; rewrite Hlk; cbn [negb]; by rewrite ?orb_true_r. }
  unfold fail. apply (f_equal (pair _)).
  apply State_eq;
    cbn [disk store eng fe calls tablet_files downloaded_tablet_ids
         logged set_eng set_disk]; try reflexivity.
  do 9 rewrite <- app_assoc. reflexivity.
Qed.

(** ** The manifest of an upload *)

Lemma upload_with_checksum_keeps_disk fs (lp rp c : string) :
  keeps (@disk L R E C) (upload_with_checksum fs lp rp c).
Proof. unfold upload_with_checksum. keeps_auto. Qed.

Lemma upload_with_checksum_keeps_tablet_files fs (lp rp c : string) :
  keeps (@tablet_files L R E C) (upload_with_checksum fs lp rp c).
Proof. unfold upload_with_checksum. keeps_auto. Qed.

Lemma upload_file_keeps_disk ld fs (src dest : string) (rf : gmap string FileStat)
    (f n : Z) (file : string) (acc : Z * list string) :
  keeps disk (upload_file ld fs src dest rf f n file acc).
Proof.
  unfold upload_file. destruct acc.
  keeps_auto; first [apply report_every_keeps_disk | apply upload_with_checksum_keeps_disk].
Qed.

Lemma upload_file_keeps_tablet_files ld fs (src dest : string)
    (rf : gmap string FileStat) (f n : Z) (file : string) (acc : Z * list string) :
  keeps tablet_files (upload_file ld fs src dest rf f n file acc).
Proof.
  unfold upload_file. destruct acc.
  keeps_auto; first [apply report_every_keeps_tablet_files
                   | apply upload_with_checksum_keeps_tablet_files].
Qed.

Lemma keeps_Done {A X} (f : State → X) (m : M A) s (out : Outcome A) s' :
  keeps f m → m s = (out, s') → f s' = f s.
Proof. intros Hk Hm. specialize (Hk s). by rewrite Hm in Hk. Qed.

(** A file that went through the loop body has its checksummed name
    appended. *)
Lemma upload_file_Done ld fs (src dest : string) (rf : gmap string FileStat)
    (fin tot : Z) (file : string) (rc : Z) (names : list string) s
    (rc' : Z) (names' : list string) s' :
  upload_file ld fs src dest rf fin tot file (rc, names) s = (Done (rc', names'), s') →
  names' = (names ++ [file +:+ "." +:+
              (fs_md5sum (local_fs (_env ld)) (src +:+ "/" +:+ file) (disk s)).2])%list.
Proof.
  unfold upload_file. intros H.
  apply bind_Done_inv in H as (rc1 & s1 & Hrep & H).
  apply bind_Done_inv in H as ([st m] & s2 & Hmd5 & H).
  apply bind_Done_inv in H as ([] & s3 & _ & H).
  assert (disk s1 = disk s) as Hd
    by (eapply keeps_Done; [apply report_every_keeps_disk | exact Hrep]).
  unfold md5sum in Hmd5. injection Hmd5 as Hm _. rewrite Hd in Hm.
  rewrite Hm. simpl.
  destruct (negb (need_upload rf file m)).
  - by injection H as _ <- _.
  - apply bind_Done_inv in H as ([] & s4 & _ & H). by injection H as _ <- _.
Qed.

Lemma for_each_upload_file_Done ld fs (src dest : string) (rf : gmap string FileStat)
    (fin tot : Z) (files : list string) (rc : Z) (names : list string) s
    (rc' : Z) (names' : list string) s' :
  for_each files (upload_file ld fs src dest rf fin tot) (rc, names) s
    = (Done (rc', names'), s') →
  names' = (names ++ ((λ f, f +:+ "." +:+
              (fs_md5sum (local_fs (_env ld)) (src +:+ "/" +:+ f) (disk s)).2)
                       <$> files))%list.
Proof.
  revert rc names s.
  induction files as [|f files IH]; intros rc names s; cbn [for_each fmap list_fmap].
  - intros [= _ <- _]. by rewrite app_nil_r.
  - intros H. apply bind_Done_inv in H as ([rc1 names1] & s1 & Hf & H).
    assert (disk s1 = disk s) as Hd
      by (eapply keeps_Done; [apply upload_file_keeps_disk | exact Hf]).
    apply upload_file_Done in Hf as ->. apply IH in H as ->.
    rewrite Hd, <- app_assoc. reflexivity.
Qed.

Lemma upload_tablet_keeps_disk ld fs (n : Z) (iter : string * string) (acc : Z * Z) :
  keeps disk (upload_tablet ld fs n iter acc).
Proof.
  unfold upload_tablet. destruct acc.
  keeps_auto;
    first [ apply list_with_checksum_keeps; done
          | apply get_existing_files_keeps; done
          | apply upload_file_keeps_disk ].
Qed.

(** A tablet that went through the loop body has its checksummed files
    emplaced under its tablet id. *)
Lemma upload_tablet_Done ld fs (n : Z) (src dest : string) (acc acc' : Z * Z) s s' :
  upload_tablet ld fs n (src, dest) acc s = (Done acc', s') →
  ∃ tablet_id,
    tablet_id_of src = Some tablet_id ∧
    tablet_files s' =
      emplace tablet_id (checksummed_files (local_fs (_env ld)) (disk s) src)
              (tablet_files s).
Proof.
  unfold upload_tablet. destruct acc as [rc fin]. simpl fst. simpl snd. intros H.
  apply bind_Done_inv in H as ([tid sh] & s1 & Hp & H).
  apply bind_Done_inv in H as (rf & s2 & Hrf & H).
  apply bind_Done_inv in H as (local_files & s3 & Hlf & H).
  apply bind_Done_inv in H as ([rc1 names] & s4 & Hloop & H).
  apply bind_Done_inv in H as ([] & s5 & Hemp & H).
  injection H as _ <-.
  unfold lift in Hp.
  destruct (_get_tablet_id_and_schema_hash_from_file_path src) as [[t h]|] eqn:Hparse;
    [|done].
  injection Hp as -> -> <-.
  exists tid. split; [unfold tablet_id_of; by rewrite Hparse|].
  assert (disk s2 = disk s ∧ tablet_files s2 = tablet_files s) as [Hd2 Ht2].
  { split; (eapply keeps_Done; [apply list_with_checksum_keeps | exact Hrf]); done. }
  unfold _get_existing_files_from_local in Hlf.
  apply bind_Done_inv in Hlf as ([st files] & s2' & Hl & Hlf).
  apply bind_Done_inv in Hlf as ([] & s2'' & Hchk & Hlf).
  injection Hlf as <- <-.
  unfold local_list in Hl. injection Hl as Hl <-.
  unfold return_if_error in Hchk. destruct (ok st); [|done]. injection Hchk as <-.
  apply for_each_upload_file_Done in Hloop as Hnames. simpl in Hnames.
  assert (tablet_files s4 = tablet_files s) as Ht4.
  { transitivity (tablet_files (logged s2 (CLocalList src))); [|done].
    eapply keeps_Done; [|exact Hloop].
    apply keeps_for_each. intros. apply upload_file_keeps_tablet_files. }
  unfold emplace_tablet_files in Hemp. injection Hemp as <-.
  cbn [tablet_files set_tablet_files]. rewrite Ht4, Hnames.
  unfold checksummed_files. rewrite Hd2 in Hl |- *. by rewrite Hl.
Qed.

Lemma for_each_upload_tablet_Done ld fs (n : Z) (pairs : list (string * string))
    (acc acc' : Z * Z) s s' :
  for_each pairs (upload_tablet ld fs n) acc s = (Done acc', s') →
  tablet_files s' =
    local_manifest (local_fs (_env ld)) (disk s) pairs.*1 (tablet_files s) ∧
  ∀ src, src ∈ pairs.*1 → is_Some (tablet_id_of src).
Proof.
  revert acc s.
  induction pairs as [|[src dest] pairs IH]; intros acc s; cbn [for_each fmap list_fmap].
  - intros [= _ <-]. split; [done|]. intros src H. by apply elem_of_nil in H.
  - intros H. apply bind_Done_inv in H as (acc1 & s1 & Ht & H).
    assert (disk s1 = disk s) as Hd
      by (eapply keeps_Done; [apply upload_tablet_keeps_disk | exact Ht]).
    apply upload_tablet_Done in Ht as (tid & Htid & Ht).
    apply IH in H as [-> Hall]. rewrite Hd, Ht. unfold local_manifest. simpl.
    rewrite Htid. split; [done|].
    intros src' [->|?]%elem_of_cons; [by rewrite Htid | by apply Hall].
Qed.

Lemma check_local_snapshot_paths_keeps {X} (f : State → X) ld
    (m : gmap string string) (b : bool) :
  (∀ s c, f (logged s c) = f s) →
  keeps f (_check_local_snapshot_paths ld m b).
Proof.
  intros Hf. unfold _check_local_snapshot_paths. keeps_auto; intros s; apply Hf.
Qed.

(** The manifest of a successful upload is the manifest of the local
    directories. *)
Lemma upload_Done ld (src_to_dest_path : gmap string string) s s' :
  upload ld src_to_dest_path s = (Done tt, s') →
  tablet_files s' =
    local_manifest (local_fs (_env ld)) (disk s) (entries src_to_dest_path).*1
                   (tablet_files s) ∧
  ∀ src, src ∈ (entries src_to_dest_path).*1 → is_Some (tablet_id_of src).
Proof.
  unfold upload. destruct (_remote_fs ld) as [fs|]; [|done]. intros H.
  apply bind_Done_inv in H as (c & s1 & Hrep & H).
  apply bind_Done_inv in H as ([] & s2 & Hchk & H).
  apply bind_Done_inv in H as (acc & s3 & Hloop & H).
  injection H as <-.
  assert (disk s2 = disk s ∧ tablet_files s2 = tablet_files s) as [Hd Ht].
  { split.
    - transitivity (disk s1).
      + eapply keeps_Done; [apply check_local_snapshot_paths_keeps | exact Hchk]. done.
      + eapply keeps_Done; [apply report_every_keeps_disk | exact Hrep].
    - transitivity (tablet_files s1).
      + eapply keeps_Done; [apply check_local_snapshot_paths_keeps | exact Hchk]. done.
      + eapply keeps_Done; [apply report_every_keeps_tablet_files | exact Hrep]. }
  apply for_each_upload_tablet_Done in Hloop as [Hm Hall].
  by rewrite Hm, Hd, Ht.
Qed.

Lemma emplace_lookup_keep `{Countable K} {V} (k k' : K) (v v' : V) (m : gmap K V) :
  m !! k' = Some v' → emplace k v m !! k' = Some v'.
Proof.
  intros Hk. unfold emplace. destruct (m !! k) eqn:Hm; [done|].
  destruct (decide (k = k')) as [->|]; [congruence|]. by rewrite lookup_insert_ne.
Qed.

Lemma local_manifest_keep (lfs : @LocalFileSystem L) (l : L) (srcs : list string)
    (init : gmap Z (list string)) (t : Z) (v : list string) :
  init !! t = Some v → local_manifest lfs l srcs init !! t = Some v.
Proof.
  revert init. induction srcs as [|a srcs IH]; intros init Hi; [done|].
  unfold local_manifest. simpl. apply IH.
  destruct (tablet_id_of a); [by apply emplace_lookup_keep | done].
Qed.

(** Where no two directories carry the same tablet id, each tablet id
    is given the files of its own directory. *)
Lemma local_manifest_lookup (lfs : @LocalFileSystem L) (l : L) (srcs : list string)
    (init : gmap Z (list string)) :
  NoDup srcs →
  (∀ a b, a ∈ srcs → b ∈ srcs → tablet_id_of a = tablet_id_of b → a = b) →
  (∀ a t, a ∈ srcs → tablet_id_of a = Some t → init !! t = None) →
  ∀ src t, src ∈ srcs → tablet_id_of src = Some t →
    local_manifest lfs l srcs init !! t = Some (checksummed_files lfs l src).
Proof.
  revert init. induction srcs as [|a srcs IH]; intros init Hnd Hinj Hfree src t Hin Ht.
  { by apply elem_of_nil in Hin. }
  apply NoDup_cons in Hnd as [Ha Hnd].
  unfold local_manifest. simpl.
  apply elem_of_cons in Hin as [->|Hin].
  - rewrite Ht. apply local_manifest_keep. unfold emplace.
    rewrite (Hfree a t); [|apply elem_of_cons; auto|done]. apply lookup_insert_eq.
  - apply IH; try done.
    + intros x y Hx Hy. apply Hinj; apply elem_of_cons; auto.
    + intros x tx Hx Htx. destruct (tablet_id_of a) as [ta|] eqn:Hta.
      * unfold emplace. rewrite (Hfree a ta); [|apply elem_of_cons; auto|done].
        rewrite lookup_insert_ne.
        -- apply (Hfree x); [apply elem_of_cons; auto|done].
        -- intros ->. assert (a = x) as ->; [|done].
           apply Hinj; [apply elem_of_cons; auto..|congruence].
      * apply (Hfree x); [apply elem_of_cons; auto|done].
Qed.

Lemma entries_keys {V} (m : gmap string V) :
  NoDup (entries m).*1 ∧ ∀ k, k ∈ (entries m).*1 ↔ is_Some (m !! k).
Proof.
  unfold entries.
  assert ((merge_sort key_le (map_to_list m)).*1 ≡ₚ (map_to_list m).*1) as Hp.
  { apply fmap_Permutation, merge_sort_Permutation. }
  split.
  - rewrite Hp. apply NoDup_fst_map_to_list.
  - intros k. rewrite Hp. rewrite list_elem_of_fmap. split.
    + intros ([k' v] & -> & Hkv%elem_of_map_to_list). by exists v.
    + intros [v Hv]. exists (k, v). split; [done|]. by apply elem_of_map_to_list.
Qed.

(** C9, as the code has it: the manifest of a successful upload that
    starts from an empty map is the manifest of the local directories,
    a function of the local disk and the source paths alone, whatever
    was on the remote side and whether a file was transferred or
    skipped.  Where no two source directories carry the same tablet id,
    it maps the tablet id of each source directory to the files of that
    directory, each followed by a dot and its md5. *)
Theorem upload_manifest ld (src_to_dest_path : gmap string string) s s' :
  upload ld src_to_dest_path s = (Done tt, s') →
  tablet_files s = ∅ →
  tablet_files s' =
    local_manifest (local_fs (_env ld)) (disk s) (entries src_to_dest_path).*1 ∅ ∧
  ((∀ a b, is_Some (src_to_dest_path !! a) → is_Some (src_to_dest_path !! b) →
           tablet_id_of a = tablet_id_of b → a = b) →
   ∀ src dest, src_to_dest_path !! src = Some dest →
     ∃ tablet_id,
       tablet_id_of src = Some tablet_id ∧
       tablet_files s' !! tablet_id =
         Some (checksummed_files (local_fs (_env ld)) (disk s) src)).
Proof.
  intros Hup Hempty. apply upload_Done in Hup as [Hm Hall]. rewrite Hempty in Hm.
  split; [done|]. intros Hinj src dest Hsrc.
  destruct (entries_keys src_to_dest_path) as [Hnd Hkeys].
  assert (src ∈ (entries src_to_dest_path).*1) as Hin by (apply Hkeys; eauto).
  destruct (Hall src Hin) as [t Ht]. exists t. split; [done|].
  rewrite Hm. apply local_manifest_lookup; try done.
  intros a b Ha%Hkeys Hb%Hkeys. by apply Hinj.
Qed.
End Properties.


(** ** The properties at work in the small world *)

Import Scenario.

Lemma report_every_outcome_witness :
  ∃ c, (_report_every unreachable_loader 0 1 0 0 UPLOAD (Small.start ∅ ∅)).1 = Done c.
Proof.
  destruct (report_every_outcome unreachable_loader 0 1 0 0 UPLOAD (Small.start ∅ ∅))
    as (_ & H & _).
  apply H. reflexivity.
Defined.

Lemma upload_file_skips_iff_listed_witness :
  upload_file hdfs_loader (Small.the_remote_fs HDFS) "/snap/1001/5" "/up/__1001"
    (index_by_checksum [mkFileInfo "1001.hdr.aa" 10]) 0 1 "1001.hdr" (0, [])
    (Small.start local_disk remote_partial)
  = (Done (1, ["1001.hdr.aa"]),
     logged (Small.start local_disk remote_partial) (CMd5sum "/snap/1001/5/1001.hdr")).
Proof.
  destruct (upload_file_skips_iff_listed hdfs_loader (Small.the_remote_fs HDFS)
              "/snap/1001/5" "/up/__1001" [mkFileInfo "1001.hdr.aa" 10] 0 1 "1001.hdr"
              0 [] (Small.start local_disk remote_partial) 1
              (Small.start local_disk remote_partial) StatusOK "aa")
    as ([_ H] & _); [reflexivity | reflexivity | reflexivity |].
  apply H. exists (FileStat.mk "1001.hdr" "aa" 10). split; reflexivity.
Defined.

Lemma http_need_download_present_file_witness :
  "2001_0_0.dat" ∉ http_need_download_files http_local http_remote_with_md5.
Proof.
  destruct (http_need_download_present_file http_local http_remote_with_md5
              "2001_0_0.dat" (LocalFileStat.mk 20 "bb")
              (RemoteFileStat.mk "http://peer/2001_0_0.dat" "bb" 20))
    as [H _]; [reflexivity | reflexivity | reflexivity |].
  apply H. split; reflexivity.
Defined.

(** C3 as stated fails: the file is present locally with the declared
    size, it is not a header, the declared md5 is empty, and the file is
    put on the list of files to download. *)
Lemma http_need_download_empty_md5_counterexample :
  http_local !! "2001_0_0.dat" = Some (LocalFileStat.mk 20 "bb") ∧
  http_remote_without_md5 !! "2001_0_0.dat"
    = Some (RemoteFileStat.mk "http://peer/2001_0_0.dat" "" 20) ∧
  _end_with "2001_0_0.dat" ".hdr" = false ∧
  http_need_download_files http_local http_remote_without_md5 = ["2001_0_0.dat"].
Proof. repeat split; reflexivity. Qed.

Lemma move_obtain_lock_failed_witness :
  (move contended_loader "/snap/1001/5" tablet_1001 true (Small.start local_disk ∅)).1
  = Failed (ObtainLockFailed "failed to get tablet locks, tablet: 1001").
Proof.
  rewrite (move_obtain_lock_failed contended_loader "/snap/1001/5" tablet_1001
             (Small.start local_disk ∅) 1001 5 (mkDataDir "/data")
             (Small.put_file local_disk "/snap/1001/5/1001.hdr" (10, "converted")) ()
             base_compaction_lock);
    reflexivity.
Defined.

(** C4 as stated fails: with the base compaction lock held by another
    actor, [move] returns the "obtain lock failed" error, and the header
    of the snapshot directory has been rewritten by the call. *)
Lemma move_obtain_lock_failed_counterexample :
  let before := Small.start local_disk ∅ in
  let run := move contended_loader "/snap/1001/5" tablet_1001 true before in
  run.1 = Failed (ObtainLockFailed "failed to get tablet locks, tablet: 1001") ∧
  Small.get_file (disk before) "/snap/1001/5/1001.hdr" = Some (10, "aa") ∧
  Small.get_file (disk run.2) "/snap/1001/5/1001.hdr" = Some (10, "converted").
Proof. cbv zeta. repeat split; vm_compute; reflexivity. Qed.

Lemma upload_manifest_witness :
  ∃ tablet_id,
    tablet_id_of "/snap/1001/5" = Some tablet_id ∧
    tablet_files
      (upload hdfs_loader {[ "/snap/1001/5" := "/up/__1001" ]}
         (Small.start local_disk remote_partial)).2 !! tablet_id
    = Some (checksummed_files Small.the_local_fs local_disk "/snap/1001/5").
Proof.
  assert (upload hdfs_loader {[ "/snap/1001/5" := "/up/__1001" ]}
            (Small.start local_disk remote_partial)
          = (Done tt, (upload hdfs_loader {[ "/snap/1001/5" := "/up/__1001" ]}
                         (Small.start local_disk remote_partial)).2)) as Hrun.
  { vm_compute. reflexivity. }
  destruct (upload_manifest _ _ _ _ Hrun eq_refl) as [_ H].
  apply (H ltac:(intros a b Ha%lookup_singleton_is_Some
                   Hb%lookup_singleton_is_Some _; congruence)
           "/snap/1001/5" "/up/__1001").
  vm_compute. reflexivity.
Defined.

(** C9 as stated fails: two source directories carry the tablet id
    1001; the upload succeeds, and the manifest gives 1001 the files of
    the first directory, not those of [/b/1001/5]. *)
Lemma upload_manifest_counterexample :
  let run := upload hdfs_loader two_sources (Small.start two_snapshots two_targets) in
  run.1 = Done tt ∧
  tablet_id_of "/b/1001/5" = Some 1001 ∧
  checksummed_files Small.the_local_fs two_snapshots "/b/1001/5" = ["1001.hdr.bb"] ∧
  tablet_files run.2 !! 1001 = Some ["1001.hdr.aa"].
Proof. cbv zeta. repeat split; vm_compute; reflexivity. Qed.

Lemma download_tablet_records_id_first_witness :
  download_tablet hdfs_loader (Small.the_remote_fs HDFS) 1 ("/up/1001", "/snap/1001/5")
    (0, 0) (Small.start local_disk remote_partial)
  = (Failed (InternalError "invalid remove file path: /up/1001"),
     set_downloaded_tablet_ids (Small.start local_disk remote_partial) [1001]).
Proof.
  destruct (download_tablet_records_id_first hdfs_loader (Small.the_remote_fs HDFS) 1
              "/up/1001" "/snap/1001/5" (0, 0) (Small.start local_disk remote_partial)
              1001 5 eq_refl) as (_ & H & _).
  apply H. reflexivity.
Defined.

(** [download] as a whole: the remote directory cannot be listed, the
    error is returned, nothing was transferred, and the tablet id is in
    the vector. *)
Example download_error_keeps_tablet_id :
  let run := download hdfs_loader {[ "/up/__1001" := "/snap/1001/5" ]}
               (Small.start local_disk ∅) in
  run.1 = Failed (IOError "no such directory") ∧
  downloaded_tablet_ids run.2 = [1001] ∧
  Forall (λ c, ∀ a b, c ≠ CRemoteDownload a b) (calls run.2).
Proof.
  cbv zeta. split; [|split]; [by vm_compute..|].
  vm_compute. repeat constructor; discriminate.
Qed.

(** ** Further examples *)

Example path_of_a_snapshot :
  _get_tablet_id_and_schema_hash_from_file_path "/snap/1001/2345" = Ok (1001, 2345).
Proof. reflexivity. Qed.

Example path_with_a_leading_separator_only :
  _get_tablet_id_and_schema_hash_from_file_path "/123" = Ok (0, 123).
Proof. reflexivity. Qed.

Example path_with_one_inner_separator :
  _get_tablet_id_and_schema_hash_from_file_path "a/123"
  = Err (InternalError "failed to get tablet id from path: a/123").
Proof. reflexivity. Qed.

(** Two remote objects with the same stripped name: the index keeps the
    first one listed. *)
Example index_by_checksum_keeps_first :
  index_by_checksum [mkFileInfo "1001_0_0.dat.cc" 20; mkFileInfo "1001_0_0.dat.bb" 20]
    !! "1001_0_0.dat"
  = Some (FileStat.mk "1001_0_0.dat" "cc" 20).
Proof. vm_compute. reflexivity. Qed.

(** The first upload of the snapshot of tablet 1001 to an HDFS store:
    the manifest, and what the remote directory holds afterwards. *)
Example fresh_upload :
  let run := upload hdfs_loader {[ "/snap/1001/5" := "/up/__1001" ]}
               (Small.start local_disk {[ "/up/__1001" := ∅ ]}) in
  run.1 = Done tt ∧
  tablet_files run.2 !! 1001 = Some ["1001.hdr.aa"; "1001_0_0.dat.bb"] ∧
  (Small.list_dir (store run.2) "/up/__1001").2
  = [mkFileInfo "1001.hdr.aa" 10; mkFileInfo "1001_0_0.dat.bb" 20].
Proof. cbv zeta. repeat split; vm_compute; reflexivity. Qed.

(** * Further properties of the code *)

(** ** More on the path codec *)

(** X1: [_end_with] is the suffix test: it answers true exactly when the
    string is some prefix followed by the pattern. *)
Theorem end_with_is_suffix (str match_ : string) :
  _end_with str match_ = true ↔ ∃ prefix, str = prefix +:+ match_.
Proof. apply end_with_iff. Qed.

Lemma is_digits_no_char (c : ascii) (s : string) :
  digit_of c = None → is_digits s = true → ¬ occurs c s.
Proof.
  intros Hc. induction s as [|a s IH]; simpl; [intros _; apply occurs_empty|].
  intros [Ha%bool_decide_eq_true Hs]%andb_true_iff. rewrite occurs_cons.
  intros [->|?]; [|by apply IH]. rewrite Hc in Ha. by destruct Ha.
Qed.

Lemma remote_path_tail (x y : string) (old : Z) :
  ¬ occurs "_" y →
  _get_tablet_id_from_remote_path (x +:+ "_" +:+ y) old = Ok (extract_int64 old y).
Proof.
  intros Hy. unfold _get_tablet_id_from_remote_path.
  rewrite find_last_of_npos.
  change (x +:+ "_" +:+ y) with (x +:+ String "_" y).
  rewrite last_index_app by done.
  replace (x +:+ String "_" y) with ((x +:+ "_") +:+ y) by (by rewrite app_assoc_s).
  replace (String.length x + 1)%nat with (String.length (x +:+ "_"))
    by (rewrite length_app_s; simpl; lia).
  by rewrite substr_tail.
Qed.

(** X2: [_get_tablet_id_from_remote_path] fails exactly on the paths
    without an underscore, with the error "invalid remove file path";
    otherwise it extracts an integer from what follows the last
    underscore, and on a path that ends in an underscore and the decimal
    form of a tablet id it gives that id. *)
Theorem tablet_id_from_remote_path_cases (remote_path : string) (old : Z) :
  ((∃ st, _get_tablet_id_from_remote_path remote_path old = Err st) ↔
     ¬ occurs "_" remote_path) ∧
  (¬ occurs "_" remote_path →
     _get_tablet_id_from_remote_path remote_path old =
       Err (InternalError ("invalid remove file path: " +:+ remote_path))) ∧
  (∀ x y, ¬ occurs "_" y → remote_path = x +:+ "_" +:+ y →
     _get_tablet_id_from_remote_path remote_path old = Ok (extract_int64 old y)) ∧
  (∀ x tablet_id, 0 ≤ tablet_id < 2 ^ 63 → remote_path = x +:+ "_" +:+ pretty tablet_id →
     _get_tablet_id_from_remote_path remote_path old = Ok tablet_id).
Proof.
  assert (¬ occurs "_" remote_path →
          _get_tablet_id_from_remote_path remote_path old =
            Err (InternalError ("invalid remove file path: " +:+ remote_path))) as Hno.
  { intros H%last_index_None. unfold _get_tablet_id_from_remote_path.
    by rewrite find_last_of_npos, H. }
  split; [|split; [done|split]].
  - split.
    + intros [st Hst] Hn.
      destruct (split_at_last "_" remote_path) as [?|(x & y & -> & Hy)]; [done|].
      change (x +:+ String "_" y) with (x +:+ "_" +:+ y) in Hst.
      by rewrite remote_path_tail in Hst.
    + intros H. eexists. by apply Hno.
  - intros x y Hy ->. by apply remote_path_tail.
  - intros x t Ht ->.
    destruct (pretty_nonneg_digits t) as (c & p & Hp & Hd & _); [lia|].
    rewrite remote_path_tail.
    + f_equal. rewrite <- (app_empty_r (pretty t)).
      apply extract_int_pretty; [lia|lia|done].
    + rewrite Hp. by apply is_digits_no_char.
Qed.

Lemma tablet_id_from_remote_path_cases_witness :
  _get_tablet_id_from_remote_path
    "bos://xxx/../__tbl_10004/__part_10003/__idx_10004/__10005" 0 = Ok 10005.
Proof.
  destruct (tablet_id_from_remote_path_cases
              "bos://xxx/../__tbl_10004/__part_10003/__idx_10004/__10005" 0)
    as (_ & _ & _ & H).
  apply (H "bos://xxx/../__tbl_10004/__part_10003/__idx_10004/_" 10005); [lia|reflexivity].
Defined.

(** X3: whether [_replace_tablet_id] accepts a name does not depend on
    the tablet id, and rewriting a rewritten name is rewriting the name:
    the second id wins. *)
Theorem replace_tablet_id_twice (file_name : string) (a b : Z) :
  match _replace_tablet_id file_name a with
  | Ok n1 => _replace_tablet_id n1 b = _replace_tablet_id file_name b
  | Err e => _replace_tablet_id file_name b = Err e
  end.
Proof.
  unfold _replace_tablet_id at 1 3 4.
  destruct (_end_with file_name ".hdr") eqn:Hh.
  - unfold _replace_tablet_id. by rewrite replace_tablet_id_pretty_hdr.
  - destruct (_end_with file_name ".idx" || _end_with file_name ".dat") eqn:Hid; [|done].
    unfold _replace_tablet_id. by rewrite Hh, Hid.
Qed.

(** Extraction from an optional minus sign and the decimal form of a
    number, whatever non-digit follows: the number, or the bound of the
    type it is beyond. *)
Lemma extract_int_signed (lo hi old z : Z) (neg : bool) (r : string) :
  0 ≤ z → starts_with_digit r = false →
  extract_int lo hi old ((if neg then "-" else "") +:+ pretty z +:+ r)
    = clamp lo hi (if neg then - z else z).
Proof.
  intros Hz Hr.
  destruct (pretty_nonneg_digits z) as (c & p & Hp & Hd & Hv); [lia|].
  rewrite Hp. simpl in Hd. apply andb_true_iff in Hd as [Hc%bool_decide_eq_true _].
  assert (read_digits (String c p +:+ r) 0 = z) as Hread.
  { rewrite Hv. destruct r as [|c' r]; [done|]. simpl in *.
    destruct (digit_of c'); [|done]. by rewrite bool_decide_true in Hr by eauto. }
  assert (starts_with_digit (String c p +:+ r) = true) as Hstart.
  { rewrite app_cons. simpl. by apply bool_decide_eq_true. }
  destruct neg.
  - change ("-" +:+ String c p +:+ r) with (String "-" (String c p +:+ r)).
    unfold extract_int. cbn [skip_ws]. change (Ascii.is_space "-") with false.
    cbn iota. by rewrite Hstart, Hread.
  - rewrite app_empty_l. unfold extract_int.
    rewrite app_cons, skip_ws_digit by done. rewrite <- app_cons.
    assert (c ≠ "-"%char ∧ c ≠ "+"%char) as [Hm Hpl].
    { split; intros ->; by destruct Hc. }
    rewrite app_cons.
    assert ((let '(neg, s2) :=
               match String c (p +:+ r) with
               | String "-"%char r0 => (true, r0)
               | String "+"%char r0 => (false, r0)
               | _ => (false, String c (p +:+ r))
               end in
             if starts_with_digit s2
             then clamp lo hi (if neg then - read_digits s2 0 else read_digits s2 0)
             else 0)
            = clamp lo hi (read_digits (String c (p +:+ r)) 0)) as ->.
    { destruct c as [[] [] [] [] [] [] [] []];
        first [ reflexivity | exfalso; destruct Hc as [? Hc]; by vm_compute in Hc ]. }
    by rewrite <- app_cons, Hread.
Qed.

Lemma pretty_nonneg_no_char (z : Z) (c : ascii) :
  0 ≤ z → digit_of c = None → ¬ occurs c (pretty z) ∧ pretty z ≠ "".
Proof.
  intros Hz Hc. destruct (pretty_nonneg_digits z) as (a & p & Hp & Hd & _); [done|].
  rewrite Hp. split; [by apply is_digits_no_char|done].
Qed.

(** X4: a number in a path that is too large for its type is not
    rejected: the parse returns OK with the bound of the type.  On a
    local path [<a>/<t>/<h>] of decimal numbers the tablet id is [t] or,
    beyond it, the largest [int64_t], and the schema hash is [h] or the
    largest [int32_t]; with minus signs, the negated numbers or the
    smallest values; and a remote path [<x>_<t>] gives [t] or the
    largest [int64_t]. *)
Theorem parsed_ids_saturate (a x : string) (t h old : Z) :
  0 ≤ t → 0 ≤ h →
  _get_tablet_id_and_schema_hash_from_file_path
    (a +:+ "/" +:+ pretty t +:+ "/" +:+ pretty h)
    = Ok (Z.min t (2 ^ 63 - 1), Z.min h (2 ^ 31 - 1)) ∧
  _get_tablet_id_and_schema_hash_from_file_path
    (a +:+ "/" +:+ ("-" +:+ pretty t) +:+ "/" +:+ ("-" +:+ pretty h))
    = Ok (Z.max (- t) (- 2 ^ 63), Z.max (- h) (- 2 ^ 31)) ∧
  _get_tablet_id_from_remote_path (x +:+ "_" +:+ pretty t) old
    = Ok (Z.min t (2 ^ 63 - 1)).
Proof.
  intros Ht Hh.
  destruct (pretty_nonneg_no_char t slash Ht eq_refl) as [Hts Htn].
  destruct (pretty_nonneg_no_char h slash Hh eq_refl) as [Hhs Hhn].
  destruct (pretty_nonneg_no_char t "_" Ht eq_refl) as [Htu _].
  assert (∀ s, ¬ occurs slash s → ¬ occurs slash ("-" +:+ s)) as Hminus.
  { intros s Hs. change ("-" +:+ s) with (String "-" s). rewrite occurs_cons.
    intros [?|?]; done. }
  split; [|split].
  - rewrite path_two_slashes by done. unfold extract_int64, extract_int32.
    rewrite <- (app_empty_r (pretty h)).
    rewrite (extract_int_signed _ _ _ t false "/") by done.
    rewrite (extract_int_signed _ _ _ h false "") by done.
    f_equal. unfold clamp. f_equal; repeat case_match; lia.
  - rewrite path_two_slashes by (first [by apply Hminus | done]).
    unfold extract_int64, extract_int32.
    rewrite <- (app_empty_r ("-" +:+ pretty h)), !app_assoc_s.
    rewrite (extract_int_signed _ _ _ t true "/") by done.
    rewrite (extract_int_signed _ _ _ h true "") by done.
    f_equal. unfold clamp. f_equal; repeat case_match; lia.
  - rewrite remote_path_tail by done. unfold extract_int64.
    rewrite <- (app_empty_r (pretty t)).
    rewrite (extract_int_signed _ _ _ t false "") by done.
    f_equal. unfold clamp. repeat case_match; lia.
Qed.

Lemma parsed_ids_saturate_witness :
  _get_tablet_id_and_schema_hash_from_file_path "/snap/99999999999999999999/99999999999"
    = Ok (9223372036854775807, 2147483647) ∧
  _get_tablet_id_and_schema_hash_from_file_path "/snap/-99999999999999999999/-99999999999"
    = Ok (-9223372036854775808, -2147483648) ∧
  _get_tablet_id_from_remote_path "/up/__99999999999999999999" 0
    = Ok 9223372036854775807.
Proof.
  apply (parsed_ids_saturate "/snap" "/up/_" 99999999999999999999 99999999999 0); lia.
Defined.

(** ** Names with a checksum *)

Lemma path_filename_plain (n : string) : ¬ occurs slash n → path_filename n = n.
Proof. intros H%last_index_None. unfold path_filename. by rewrite H. Qed.

Lemma path_filename_last (d n : string) :
  ¬ occurs slash n → path_filename (d +:+ "/" +:+ n) = n.
Proof.
  intros H. unfold path_filename.
  change (d +:+ "/" +:+ n) with (d +:+ String slash n).
  rewrite last_index_app by done.
  replace (d +:+ String slash n) with ((d +:+ "/") +:+ n) by (by rewrite app_assoc_s).
  replace (String.length d + 1)%nat with (String.length (d +:+ "/"))
    by (rewrite length_app_s; simpl; lia).
  apply substr_tail.
Qed.

Lemma checksum_stat_of_filename (f : FileInfo) (n m : string) :
  path_filename (file_name f) = n +:+ "." +:+ m → m ≠ "" → ¬ occurs "." m →
  checksum_stat f = Some (FileStat.mk n m (file_size f)).
Proof.
  intros Hf Hm Hdot. unfold checksum_stat. rewrite Hf, find_last_of_npos.
  change (n +:+ "." +:+ m) with (n +:+ String "." m).
  rewrite last_index_app by done.
  rewrite bool_decide_false.
  - f_equal. f_equal.
    + unfold substr. apply substring_0_app.
    + replace (n +:+ String "." m) with ((n +:+ ".") +:+ m) by (by rewrite app_assoc_s).
      replace (String.length n + 1)%nat with (String.length (n +:+ "."))
        by (rewrite length_app_s; simpl; lia).
      apply substr_tail.
  - rewrite length_app_s. simpl. destruct m; [done|]. simpl. lia.
Qed.

Lemma occurs_app (c : ascii) (s t : string) :
  occurs c (s +:+ t) ↔ occurs c s ∨ occurs c t.
Proof.
  induction s as [|a s IH].
  - rewrite app_empty_l. pose proof (occurs_empty c). tauto.
  - rewrite app_cons, !occurs_cons, IH. tauto.
Qed.

(** X5: the checksum suffix is decoded as it is encoded.  An object
    named [<name>.<md5>], under any directory, with a non-empty md5
    without dot or separator, is listed as [<name>] with [<md5>] and its
    size; and whatever entry the listing makes of an object, the last
    component of the object's path is the entry's name, a dot and the
    entry's md5, which is not empty and holds no dot. *)
Theorem checksum_stat_round_trip (f : FileInfo) :
  (∀ d n m, m ≠ "" → ¬ occurs "." m → ¬ occurs slash n → ¬ occurs slash m →
     file_name f = n +:+ "." +:+ m ∨ file_name f = d +:+ "/" +:+ n +:+ "." +:+ m →
     checksum_stat f = Some (FileStat.mk n m (file_size f))) ∧
  (∀ stat, checksum_stat f = Some stat →
     path_filename (file_name f) = FileStat.name stat +:+ "." +:+ FileStat.md5 stat ∧
     FileStat.md5 stat ≠ "" ∧ ¬ occurs "." (FileStat.md5 stat) ∧
     FileStat.size stat = file_size f).
Proof.
  split.
  - intros d n m Hm Hdot Hn Hms Hf.
    assert (¬ occurs slash (n +:+ "." +:+ m)) as Hnm.
    { rewrite occurs_app. change ("." +:+ m) with (String "." m).
      rewrite occurs_cons. intros [?|[?|?]]; done. }
    apply checksum_stat_of_filename; [|done..].
    destruct Hf as [-> | ->]; [by apply path_filename_plain|by apply path_filename_last].
  - unfold checksum_stat. rewrite find_last_of_npos. intros stat.
    destruct (last_index "." (path_filename (file_name f))) as [pos|] eqn:Hl; [|done].
    apply last_index_Some in Hl as (x & y & Hxy & Hlen & Hy).
    rewrite Hxy. case_bool_decide as Hpos; [done|]. intros [= <-].
    cbn [FileStat.name FileStat.md5 FileStat.size].
    assert (y ≠ "") as Hne.
    { intros ->. apply Hpos. rewrite length_app_s. simpl. lia. }
    assert (substring 0 pos (x +:+ String "." y) = x) as ->.
    { rewrite <- Hlen. apply substring_0_app. }
    assert (substring (pos + 1) (String.length (x +:+ String "." y) - (pos + 1))
              (x +:+ String "." y) = y) as ->.
    { change (substr (x +:+ String "." y) (pos + 1) npos = y).
      replace (x +:+ String "." y) with ((x +:+ ".") +:+ y) by (by rewrite app_assoc_s).
      replace (pos + 1)%nat with (String.length (x +:+ "."))
        by (rewrite length_app_s; simpl; lia).
      apply substr_tail. }
    done.
Qed.

Lemma checksum_stat_round_trip_witness :
  checksum_stat (mkFileInfo "/up/__1001/1001_0_0.dat.bb" 20)
    = Some (FileStat.mk "1001_0_0.dat" "bb" 20).
Proof.
  apply (proj1 (checksum_stat_round_trip (mkFileInfo "/up/__1001/1001_0_0.dat.bb" 20))
           "/up/__1001" "1001_0_0.dat" "bb").
  - done.
  - apply last_index_None. reflexivity.
  - apply last_index_None. reflexivity.
  - apply last_index_None. reflexivity.
  - right. reflexivity.
Defined.

Section Coverage.

Context {L R E C : Type}.

Abbreviation State := (@State L R E C).
Abbreviation M := (@M L R E C).
Abbreviation SnapshotLoader := (@SnapshotLoader L R E C).
Abbreviation RemoteFileSystem := (@RemoteFileSystem L R).

Implicit Types (ld : SnapshotLoader) (fs : RemoteFileSystem) (s : State).

(** *** Listing with checksums *)

(** X6: a successful [_list_with_checksum] has made one call, the
    listing of the directory, and changed nothing else.  Its map gives
    for each name the first listed object that carries the name with a
    checksum: every entry is filed under its own name and comes from a
    listed object, and every listed object with a checksum has its name
    in the map. *)
Theorem list_with_checksum_result fs (dir : string) s (m : gmap string FileStat) s' :
  _list_with_checksum fs dir s = (Done m, s') →
  let files := (rfs_list fs dir (store s)).2 in
  s' = logged s (CRemoteList dir) ∧
  ok (rfs_list fs dir (store s)).1 = true ∧
  (∀ name, m !! name = first_listed files name) ∧
  (∀ name stat, m !! name = Some stat →
     FileStat.name stat = name ∧ ∃ f, f ∈ files ∧ checksum_stat f = Some stat) ∧
  (∀ f stat, f ∈ files → checksum_stat f = Some stat → is_Some (m !! FileStat.name stat)).
Proof.
  unfold _list_with_checksum, bind, remote_list, return_if_error.
  destruct (rfs_list fs dir (store s)) as [st files] eqn:Hl. simpl.
  destruct (ok st) eqn:Hok; [|done]. intros [= <- <-].
  split; [done|]. split; [done|]. split; [apply index_by_checksum_lookup|]. split.
  - intros name stat. rewrite index_by_checksum_lookup. unfold first_listed.
    intros H%head_Some_elem_of.
    apply list_elem_of_filter in H as [Hn H].
    apply list_elem_of_omap in H as (f & Hf & Hc). eauto.
  - intros f stat Hf Hc. rewrite index_by_checksum_lookup. unfold first_listed.
    apply head_is_Some. intros Hnil.
    assert (stat ∈ filter (λ st0, FileStat.name st0 = FileStat.name stat)
                     (omap checksum_stat files)) as Hin.
    { apply list_elem_of_filter. split; [done|]. apply list_elem_of_omap. eauto. }
    rewrite Hnil in Hin. by apply elem_of_nil in Hin.
Qed.

(** *** Validation of the local paths *)

(** A loop whose body looks at the disk, logs one call and changes
    nothing else stops at the first element the body fails on. *)
Lemma for_each_reading {A} (xs : list A) (body : A → unit → M unit)
    (out : A → L → Outcome unit) (call : A → Call) s :
  (∀ x u s, body x u s = (out x (disk s), logged s (call x))) →
  let run := for_each xs body tt s in
  (run.1 = Done tt ↔ Forall (λ x, out x (disk s) = Done tt) xs) ∧
  (run.1 = Done tt ∨ ∃ x, x ∈ xs ∧ out x (disk s) ≠ Done tt ∧ run.1 = out x (disk s)) ∧
  (run.1 = Done tt → run.2 = foldl logged s (call <$> xs)).
Proof.
  intros Hbody. revert s. induction xs as [|x xs IH]; intros s run.
  - subst run. simpl. split; [|split]; [|by left|done].
    split; [constructor|done].
  - subst run. cbn [for_each]. unfold bind. rewrite Hbody.
    destruct (out x (disk s)) as [[]|e|e] eqn:Hx.
    + destruct (IH (logged s (call x))) as (IH1 & IH2 & IH3).
      cbn [logged disk] in IH1, IH2. split; [|split].
      * rewrite IH1, Forall_cons. tauto.
      * destruct IH2 as [?|(y & Hy & IH2)]; [by left|].
        right. exists y. split; [by right|]. done.
      * intros H. by rewrite IH3.
    + split; [|split]; [| |done].
      * split; [done|]. intros H%Forall_cons_1. destruct H as [H _]. congruence.
      * right. exists x. split; [by left|]. rewrite Hx. done.
    + split; [|split]; [| |done].
      * split; [done|]. intros H%Forall_cons_1. destruct H as [H _]. congruence.
      * right. exists x. split; [by left|]. rewrite Hx. done.
Qed.

Lemma check_local_snapshot_paths_loop ld (src_to_dest_path : gmap string string)
    (check_src : bool) s :
  let out (pair : string * string) (l : L) : Outcome unit :=
    let path := if check_src then pair.1 else pair.2 in
    let r := fs_is_directory (local_fs (_env ld)) path l in
    if ok r.1
    then if r.2 then Done tt
         else Failed (RuntimeError
                        ("snapshot path is not directory or does not exist: " +:+ path))
    else Failed r.1 in
  let run := _check_local_snapshot_paths ld src_to_dest_path check_src s in
  (run.1 = Done tt ↔ Forall (λ x, out x (disk s) = Done tt) (entries src_to_dest_path)) ∧
  (run.1 = Done tt ∨
   ∃ x, x ∈ entries src_to_dest_path ∧ out x (disk s) ≠ Done tt ∧ run.1 = out x (disk s)).
Proof.
  intros out run.
  edestruct (for_each_reading (entries src_to_dest_path)
               (λ pair (_ : unit),
                  let path := if check_src then pair.1 else pair.2 in
                  let* (st, res) := is_directory ld path in
                  let* _ := return_if_error st in
                  if negb res
                  then fail (RuntimeError
                               ("snapshot path is not directory or does not exist: "
                                +:+ path))
                  else ret tt)
               out (λ pair, CIsDirectory (if check_src then pair.1 else pair.2)) s)
    as (H1 & H2 & _); [|split; [exact H1|exact H2]].
  intros pair u s0. unfold bind, is_directory, return_if_error, out. cbn zeta.
  destruct (fs_is_directory _ _ _) as [st res]. simpl.
  destruct (ok st); [|done]. by destruct res.
Qed.

Lemma elem_of_entries {V} (m : gmap string V) (k : string) (v : V) :
  (k, v) ∈ entries m ↔ m !! k = Some v.
Proof. unfold entries. rewrite merge_sort_Permutation. apply elem_of_map_to_list. Qed.

(** X7: [_check_local_snapshot_paths] answers OK exactly when every
    path it is asked about (the sources or the destinations of the map)
    is reported a directory by the local file system.  Otherwise it
    fails on one of the paths, with the error of [is_directory] or with
    the runtime error "snapshot path is not directory or does not
    exist".  Either way it only looks: the disk, the remote store and the
    engine are as before. *)
Theorem check_local_snapshot_paths_ok_iff ld (src_to_dest_path : gmap string string)
    (check_src : bool) s :
  let path_of (src dest : string) := if check_src then src else dest in
  let is_dir (src dest : string) :=
    fs_is_directory (local_fs (_env ld)) (path_of src dest) (disk s) in
  let run := _check_local_snapshot_paths ld src_to_dest_path check_src s in
  (run.1 = Done tt ↔
     ∀ src dest, src_to_dest_path !! src = Some dest →
       ok (is_dir src dest).1 = true ∧ (is_dir src dest).2 = true) ∧
  (run.1 = Done tt ∨
   ∃ src dest, src_to_dest_path !! src = Some dest ∧
     ((ok (is_dir src dest).1 = false ∧ run.1 = Failed (is_dir src dest).1) ∨
      (ok (is_dir src dest).1 = true ∧ (is_dir src dest).2 = false ∧
       run.1 = Failed (RuntimeError ("snapshot path is not directory or does not exist: "
                                     +:+ path_of src dest))))) ∧
  disk run.2 = disk s ∧ store run.2 = store s ∧ eng run.2 = eng s.
Proof.
  intros path_of is_dir run.
  destruct (check_local_snapshot_paths_loop ld src_to_dest_path check_src s) as [H1 H2].
  fold run in H1, H2. cbn zeta in H1, H2.
  split; [|split].
  - rewrite H1, Forall_forall. split.
    + intros H src dest Hl%elem_of_entries. specialize (H _ Hl). simpl in H.
      fold (path_of src dest) in H. fold (is_dir src dest) in H.
      destruct (ok (is_dir src dest).1); [|done]. by destruct ((is_dir src dest).2).
    + intros H [src dest] Hl%elem_of_entries. destruct (H _ _ Hl) as [Ha Hb]. simpl.
      fold (path_of src dest). fold (is_dir src dest). by rewrite Ha, Hb.
  - destruct H2 as [?|([src dest] & Hl%elem_of_entries & Hne & H2)]; [by left|].
    right. exists src, dest. split; [done|]. simpl in Hne, H2.
    fold (path_of src dest) in Hne, H2. fold (is_dir src dest) in Hne, H2.
    destruct (ok (is_dir src dest).1); [|by left].
    destruct ((is_dir src dest).2); [done|]. right. done.
  - repeat split; apply check_local_snapshot_paths_keeps; done.
Qed.

(** *** The cadence of the reports *)

Lemma reports_app (a b : list Call) : reports (a ++ b) = (reports a + reports b)%nat.
Proof. unfold reports. by rewrite List.filter_app, length_app. Qed.

Lemma to_int32_small (z : Z) : - 2 ^ 31 ≤ z < 2 ^ 31 → to_int32 z = z.
Proof. intros H. unfold to_int32. rewrite Z.mod_small; lia. Qed.

Lemma report_every_quiet ld (t c fin tot : Z) (ty : TTaskType) s :
  int_incr c ≤ t → _report_every ld t c fin tot ty s = (Done (int_incr c), s).
Proof.
  intros H. unfold _report_every. by rewrite (proj2 (Z.leb_le _ _)) by done.
Qed.

Lemma report_every_rpc ld (t c fin tot : Z) (ty : TTaskType) s :
  t < int_incr c →
  let request := mkReport (_job_id ld) (_task_id ld) ty fin tot in
  let answer := fe_snapshotLoaderReport (frontend (_env ld)) request (fe s) in
  _report_every ld t c fin tot ty s =
    (if negb (ok answer.1.1) then Done (int_incr c)
     else if bool_decide (answer.1.2 = TStatusCode_CANCELLED)
          then Failed (Cancelled "Cancelled") else Done 0,
     logged (set_fe s answer.2) (CReport request)).
Proof.
  intros H request answer. unfold _report_every.
  rewrite (proj2 (Z.leb_gt _ _)) by done.
  unfold bind, snapshotLoaderReport. fold request. fold answer.
  destruct answer as [[st code] c']. simpl.
  destruct (ok st); simpl; [|done]. by case_bool_decide.
Qed.

(** X8: with a frontend that answers every report and never cancels,
    the counter of [_report_every] cycles through [0..threshold]: a
    report is sent on every call that finds the counter at the
    threshold, so once in [threshold + 1] calls (once in eleven files for
    the threshold 10 of the transfer loops), and no call fails. *)
Theorem report_every_cadence ld (report_threshold finished_num total_num : Z)
    (type : TTaskType) (n : nat) (counter : Z) s :
  (∀ request c,
     ok (fe_snapshotLoaderReport (frontend (_env ld)) request c).1.1 = true ∧
     (fe_snapshotLoaderReport (frontend (_env ld)) request c).1.2 ≠ TStatusCode_CANCELLED) →
  0 ≤ counter ≤ report_threshold → report_threshold < 2 ^ 31 - 1 →
  let run := report_n ld report_threshold finished_num total_num type n counter s in
  run.1 = Done ((counter + Z.of_nat n) mod (report_threshold + 1)) ∧
  Z.of_nat (reports (calls run.2)) =
    Z.of_nat (reports (calls s)) + (counter + Z.of_nat n) / (report_threshold + 1).
Proof.
  intros Hfe Hc Ht. revert counter s Hc.
  induction n as [|n IH]; intros counter s Hc run.
  - subst run. simpl. change (Z.of_nat 0) with 0. clear Hfe.
    rewrite Z.add_0_r, Z.mod_small, Z.div_small by lia. split; [done|lia].
  - subst run. cbn [report_n]. unfold bind.
    assert (int_incr counter = counter + 1) as Hincr.
    { unfold int_incr. apply to_int32_small. clear Hfe. lia. }
    destruct (decide (counter < report_threshold)) as [Hlt|Hge].
    + rewrite report_every_quiet by (clear Hfe; lia). rewrite Hincr.
      destruct (IH (counter + 1) s) as [IH1 IH2]; [clear Hfe; lia|].
      clear Hfe. split.
      * rewrite IH1. f_equal. f_equal. lia.
      * rewrite IH2. f_equal. f_equal. lia.
    + assert (counter = report_threshold) as -> by (clear Hfe; lia).
      rewrite report_every_rpc by (clear Hfe; lia).
      specialize (Hfe (mkReport (_job_id ld) (_task_id ld) type finished_num total_num)
                      (fe s)).
      destruct Hfe as [Hok Hcode].
      cbn zeta. rewrite Hok. cbn [negb]. rewrite bool_decide_false by done.
      match goal with |- context [report_n _ _ _ _ _ n 0 ?s1] =>
        destruct (IH 0 s1) as [IH1 IH2]; [lia|] end.
      clear Hok Hcode IH. split.
      * rewrite IH1. f_equal.
        replace (report_threshold + Z.of_nat (S n))
          with (Z.of_nat n + 1 * (report_threshold + 1)) by lia.
        by rewrite Z.mod_add by lia.
      * rewrite IH2. cbn [logged calls set_fe]. rewrite reports_app.
        replace (report_threshold + Z.of_nat (S n))
          with (Z.of_nat n + 1 * (report_threshold + 1)) by lia.
        rewrite Z.div_add by lia. unfold reports at 2. simpl. rewrite Z.add_0_l. lia.
Qed.

(** X9: with a frontend that cannot be reached, a counter that has
    reached the threshold is never reset: every further call sends the
    report again and returns OK, the counter growing by one each time. *)
Theorem report_every_unreachable ld (report_threshold finished_num total_num : Z)
    (type : TTaskType) (n : nat) (counter : Z) s :
  (∀ request c,
     ok (fe_snapshotLoaderReport (frontend (_env ld)) request c).1.1 = false) →
  report_threshold ≤ counter → - 2 ^ 31 ≤ counter → counter + Z.of_nat n < 2 ^ 31 →
  let run := report_n ld report_threshold finished_num total_num type n counter s in
  run.1 = Done (counter + Z.of_nat n) ∧
  reports (calls run.2) = (reports (calls s) + n)%nat.
Proof.
  intros Hfe. revert counter s.
  induction n as [|n IH]; intros counter s Ht Hlo Hhi run.
  - subst run. simpl. clear Hfe. split; [f_equal; lia|lia].
  - subst run. cbn [report_n]. unfold bind.
    assert (int_incr counter = counter + 1) as Hincr.
    { unfold int_incr. apply to_int32_small. clear Hfe. lia. }
    rewrite report_every_rpc by (clear Hfe; lia). cbn zeta. rewrite Hfe. cbn [negb].
    rewrite Hincr.
    match goal with |- context [report_n _ _ _ _ _ n _ ?s1] =>
      destruct (IH (counter + 1) s1) as [IH1 IH2]; [clear Hfe; lia..|] end.
    clear Hfe IH. split.
    + rewrite IH1. f_equal. lia.
    + rewrite IH2. cbn [logged calls set_fe]. rewrite reports_app.
      unfold reports at 2. simpl. lia.
Qed.

(** *** What the transfers leave alone *)

Ltac frame_call :=
  intros ?;
  cbv [is_directory local_list md5sum file_size_ exists_ remove remove_all
       create_directory link remote_list remote_upload remote_rename remote_download
       get_tablet get_store reach_capacity_limit convert_rowset_ids try_to_lock
       load_tablet_from_dir snapshotLoaderReport push_downloaded_tablet_id
       emplace_tablet_files];
  repeat case_match; reflexivity.

Ltac frame_step :=
  first
    [ apply keeps_ret | apply keeps_fail | apply keeps_throw
    | apply keeps_lift | apply keeps_return_if_error
    | apply keeps_bind; [|intros]
    | apply keeps_for_each; intros
    | progress (repeat case_match)
    | solve [frame_call] ].

Ltac frame_auto := repeat frame_step.

Lemma report_every_frame ld (t c f n : Z) (ty : TTaskType) :
  keeps disk (_report_every ld t c f n ty) ∧
  keeps store (_report_every ld t c f n ty) ∧
  keeps eng (_report_every ld t c f n ty) ∧
  keeps tablet_files (_report_every ld t c f n ty) ∧
  keeps downloaded_tablet_ids (_report_every ld t c f n ty).
Proof. repeat split; unfold _report_every; frame_auto. Qed.

Lemma upload_with_checksum_frame fs (lp rp c : string) :
  keeps (@eng L R E C) (upload_with_checksum fs lp rp c) ∧
  keeps (@downloaded_tablet_ids L R E C) (upload_with_checksum fs lp rp c).
Proof. split; unfold upload_with_checksum; frame_auto. Qed.

Lemma upload_tablet_frame ld fs (n : Z) (iter : string * string) (acc : Z * Z) :
  keeps eng (upload_tablet ld fs n iter acc) ∧
  keeps downloaded_tablet_ids (upload_tablet ld fs n iter acc).
Proof.
  split; unfold upload_tablet; destruct acc as [rc fin].
  - apply keeps_bind; [apply keeps_lift|intros [tid sh]].
    apply keeps_bind; [by apply list_with_checksum_keeps|intros rf].
    apply keeps_bind; [by apply get_existing_files_keeps|intros lf].
    apply keeps_bind; [|intros [rc' names]; frame_auto].
    apply keeps_for_each. intros file [rc' names]. unfold upload_file.
    apply keeps_bind; [apply report_every_frame|intros].
    apply keeps_bind; [frame_auto|intros [st md5]].
    apply keeps_bind; [frame_auto|intros].
    case_match; [frame_auto|].
    apply keeps_bind; [apply upload_with_checksum_frame|intros; frame_auto].
  - apply keeps_bind; [apply keeps_lift|intros [tid sh]].
    apply keeps_bind; [by apply list_with_checksum_keeps|intros rf].
    apply keeps_bind; [by apply get_existing_files_keeps|intros lf].
    apply keeps_bind; [|intros [rc' names]; frame_auto].
    apply keeps_for_each. intros file [rc' names]. unfold upload_file.
    apply keeps_bind; [apply report_every_frame|intros].
    apply keeps_bind; [frame_auto|intros [st md5]].
    apply keeps_bind; [frame_auto|intros].
    case_match; [frame_auto|].
    apply keeps_bind; [apply upload_with_checksum_frame|intros; frame_auto].
Qed.

(** X10: [upload] reads the local disk and never writes it, and it has
    no dealings with the storage engine: however it ends, the disk and
    the engine are as it found them, and no tablet id is recorded. *)
Theorem upload_frame ld (src_to_dest_path : gmap string string) s :
  let s' := (upload ld src_to_dest_path s).2 in
  disk s' = disk s ∧ eng s' = eng s ∧
  downloaded_tablet_ids s' = downloaded_tablet_ids s.
Proof.
  assert (keeps disk (upload ld src_to_dest_path) ∧
          keeps eng (upload ld src_to_dest_path) ∧
          keeps downloaded_tablet_ids (upload ld src_to_dest_path)) as (H1 & H2 & H3).
  { repeat split; unfold upload; destruct (_remote_fs ld) as [fs|];
      try apply keeps_fail;
      (apply keeps_bind; [apply report_every_frame|intros]);
      (apply keeps_bind; [by apply check_local_snapshot_paths_keeps|intros]);
      (apply keeps_bind; [|intros; apply keeps_ret]);
      apply keeps_for_each; intros;
      first [apply upload_tablet_keeps_disk | apply upload_tablet_frame]. }
  intros s'. repeat split; [apply H1|apply H2|apply H3].
Qed.

Lemma need_download_frame {X} (f : State → X) ld (lp rf : string) (st : FileStat)
    (find : option nat) :
  (∀ s c, f (logged s c) = f s) →
  keeps f (need_download ld lp rf st find).
Proof.
  intros Hf. unfold need_download. destruct find; [|apply keeps_ret].
  case_match; [apply keeps_ret|].
  apply keeps_bind; [intros s; apply Hf|intros [st' md5]].
  case_match; apply keeps_ret.
Qed.

Lemma download_tablet_frame ld fs (n : Z) (iter : string * string) (acc : Z * Z) :
  keeps store (download_tablet ld fs n iter acc) ∧
  keeps tablet_files (download_tablet ld fs n iter acc).
Proof.
  split; unfold download_tablet; destruct acc as [rc fin].
  - apply keeps_bind; [apply keeps_lift|intros [tid sh]].
    apply keeps_bind; [frame_auto|intros].
    apply keeps_bind; [apply keeps_lift|intros rid].
    apply keeps_bind; [by apply get_existing_files_keeps|intros lf].
    apply keeps_bind; [by apply list_with_checksum_keeps|intros rf].
    case_match; [apply keeps_fail|].
    apply keeps_bind; [frame_auto|intros [tablet|]]; [|apply keeps_fail].
    apply keeps_bind; [|intros [rc' lf']].
    + apply keeps_for_each. intros [file stat] [rc' lf']. unfold download_file.
      apply keeps_bind; [apply report_every_frame|intros].
      apply keeps_bind; [by apply need_download_frame|intros].
      case_match; [apply keeps_ret|]. frame_auto.
    + apply keeps_bind; [|intros; apply keeps_ret].
      apply keeps_for_each. intros. unfold prune_file. frame_auto.
  - apply keeps_bind; [apply keeps_lift|intros [tid sh]].
    apply keeps_bind; [frame_auto|intros].
    apply keeps_bind; [apply keeps_lift|intros rid].
    apply keeps_bind; [by apply get_existing_files_keeps|intros lf].
    apply keeps_bind; [by apply list_with_checksum_keeps|intros rf].
    case_match; [apply keeps_fail|].
    apply keeps_bind; [frame_auto|intros [tablet|]]; [|apply keeps_fail].
    apply keeps_bind; [|intros [rc' lf']].
    + apply keeps_for_each. intros [file stat] [rc' lf']. unfold download_file.
      apply keeps_bind; [apply report_every_frame|intros].
      apply keeps_bind; [by apply need_download_frame|intros].
      case_match; [apply keeps_ret|]. frame_auto.
    + apply keeps_bind; [|intros; apply keeps_ret].
      apply keeps_for_each. intros. unfold prune_file. frame_auto.
Qed.

(** X11: [download] reads the remote store and never writes it: however
    it ends, the remote store is as it found it, and so is the manifest
    of uploaded files. *)
Theorem download_frame ld (src_to_dest_path : gmap string string) s :
  let s' := (download ld src_to_dest_path s).2 in
  store s' = store s ∧ tablet_files s' = tablet_files s.
Proof.
  assert (keeps store (download ld src_to_dest_path) ∧
          keeps tablet_files (download ld src_to_dest_path)) as (H1 & H2).
  { split; unfold download; destruct (_remote_fs ld) as [fs|];
      try apply keeps_fail;
      (apply keeps_bind; [apply report_every_frame|intros]);
      (apply keeps_bind; [by apply check_local_snapshot_paths_keeps|intros]);
      (apply keeps_bind; [|intros; apply keeps_ret]);
      apply keeps_for_each; intros; apply download_tablet_frame. }
  intros s'. split; [apply H1|apply H2].
Qed.

Lemma link_file_frame {X} (f : State → X) ld (sp tp file : string) (acc : list string) :
  (∀ s c, f (logged s c) = f s) → (∀ s l, f (set_disk s l) = f s) →
  keeps f (link_file ld sp tp file acc).
Proof.
  intros Hl Hd. unfold link_file.
  assert (∀ p, keeps f (remove ld p)) as Hrm.
  { intros p s. unfold remove. destruct (fs_remove _ _ _). simpl. by rewrite Hl, Hd. }
  apply keeps_bind.
  - intros s. unfold link. destruct (fs_link _ _ _ _). simpl. by rewrite Hl, Hd.
  - intros linked. case_match; [|apply keeps_ret].
    apply keeps_bind; [|intros; apply keeps_fail].
    apply keeps_for_each. intros. apply keeps_bind; [apply Hrm|intros; apply keeps_ret].
Qed.

(** X12: [move] works on the local disk and the engine only: however it
    ends, the remote store and the frontend are as it found them (it
    sends no report), and so are the manifest and the recorded tablet
    ids. *)
Theorem move_frame ld (snapshot_path : string) (tablet : Tablet) (overwrite : bool) s :
  let s' := (move ld snapshot_path tablet overwrite s).2 in
  store s' = store s ∧ fe s' = fe s ∧ tablet_files s' = tablet_files s ∧
  downloaded_tablet_ids s' = downloaded_tablet_ids s.
Proof.
  assert (∀ {X} (f : State → X),
            (∀ s c, f (logged s c) = f s) → (∀ s l, f (set_disk s l) = f s) →
            (∀ s e, f (set_eng s e) = f s) →
            keeps f (move ld snapshot_path tablet overwrite)) as Hgen.
  { intros X f Hl Hd He. unfold move.
    assert (∀ lk, keeps f (try_to_lock ld tablet lk)) as Hlk.
    { intros lk s0. apply Hl. }
    apply keeps_bind; [apply keeps_lift|intros [t1 h1]].
    apply keeps_bind; [apply keeps_lift|intros [t2 h2]].
    case_match; [apply keeps_fail|].
    apply keeps_bind; [intros s0; apply Hl|intros [dir|]]; [|apply keeps_fail].
    apply keeps_bind; [intros s0; apply Hl|intros ex1].
    case_match; [apply keeps_fail|].
    apply keeps_bind; [intros s0; apply Hl|intros ex2].
    case_match; [apply keeps_fail|].
    apply keeps_bind.
    { intros s0. unfold convert_rowset_ids. destruct (eng_convert_rowset_ids _ _ _ _ _ _ _ _ _)
        as [[r l] e]. simpl. by rewrite Hl, He, Hd. }
    intros [err|]; [apply keeps_fail|].
    case_match; [apply keeps_throw|].
    do 6 (apply keeps_bind; [apply Hlk|intros ?]).
    case_match; [apply keeps_fail|].
    apply keeps_bind; [by apply get_existing_files_keeps|intros files].
    apply keeps_bind.
    { intros s0. unfold remove_all. destruct (fs_remove_all _ _ _). simpl. by rewrite Hl, Hd. }
    intros [what|]; [apply keeps_fail|].
    apply keeps_bind.
    { intros s0. unfold create_directory. destruct (fs_create_directory _ _ _). simpl.
      by rewrite Hl, Hd. }
    intros [what|]; [apply keeps_fail|].
    apply keeps_bind.
    { apply keeps_for_each. intros. by apply link_file_frame. }
    intros linked.
    apply keeps_bind.
    { intros s0. unfold load_tablet_from_dir.
      destruct (eng_load_tablet_from_dir _ _ _ _ _ _ _ _). simpl. by rewrite Hl, He. }
    intros ost. case_match; [apply keeps_fail|apply keeps_ret]. }
  intros s'. repeat split; apply Hgen; done.
Qed.

(** *** Before the first tablet *)

Lemma report_every_ends ld (t c f n : Z) (ty : TTaskType) s :
  let run := _report_every ld t c f n ty s in
  (∃ c', run.1 = Done c') ∨ run.1 = Failed (Cancelled "Cancelled").
Proof.
  intros run. subst run. destruct (decide (int_incr c ≤ t)) as [Hq|Hr].
  - rewrite report_every_quiet by done. left. by eexists.
  - rewrite report_every_rpc by lia. cbn zeta. simpl.
    destruct (negb _); [left; by eexists|]. case_bool_decide; [by right|left; by eexists].
Qed.

(** X13: a job that the frontend has cancelled is stopped before it
    starts.  When the frontend answers the first report of [upload] or
    [download] with the status code CANCELLED, the transfer returns the
    error Cancelled after that one call: no path is checked, nothing is
    listed and nothing is transferred. *)
Theorem cancelled_before_start ld fs (src_to_dest_path : gmap string string) s
    (type : TTaskType) :
  _remote_fs ld = Some fs →
  let request := mkReport (_job_id ld) (_task_id ld) type 0 0 in
  let answer := fe_snapshotLoaderReport (frontend (_env ld)) request (fe s) in
  ok answer.1.1 = true → answer.1.2 = TStatusCode_CANCELLED →
  (match type with
   | UPLOAD => upload ld src_to_dest_path s
   | DOWNLOAD => download ld src_to_dest_path s
   end) = (Failed (Cancelled "Cancelled"), logged (set_fe s answer.2) (CReport request)).
Proof.
  intros Hfs request answer Hok Hcode.
  assert (_report_every ld 0 1 0 0 type s =
            (Failed (Cancelled "Cancelled"), logged (set_fe s answer.2) (CReport request)))
    as Hprobe.
  { rewrite report_every_rpc by (by vm_compute). cbn zeta. fold request. fold answer.
    rewrite Hok, Hcode. done. }
  destruct type; [unfold upload|unfold download]; rewrite Hfs; unfold bind at 1;
    by rewrite Hprobe.
Qed.

(** X14: the paths are validated before anything is transferred.  When
    the local file system does not report one of the source directories
    of [upload] to be a directory, the upload fails and the remote store
    and the manifest are untouched; when it does not report one of the
    destination directories of [download] to be one, the download fails,
    the disk is untouched and no tablet id is recorded. *)
Theorem transfer_rejects_non_directory ld (src_to_dest_path : gmap string string) s
    (src dest : string) (type : TTaskType) :
  src_to_dest_path !! src = Some dest →
  let path := match type with UPLOAD => src | DOWNLOAD => dest end in
  ok (fs_is_directory (local_fs (_env ld)) path (disk s)).1 = false ∨
  (fs_is_directory (local_fs (_env ld)) path (disk s)).2 = false →
  let run := match type with
             | UPLOAD => upload ld src_to_dest_path s
             | DOWNLOAD => download ld src_to_dest_path s
             end in
  (∃ e, run.1 = Failed e) ∧
  store run.2 = store s ∧ tablet_files run.2 = tablet_files s ∧
  disk run.2 = disk s ∧ downloaded_tablet_ids run.2 = downloaded_tablet_ids s.
Proof.
  intros Hl path Hbad run.
  set (check_src := match type with UPLOAD => true | DOWNLOAD => false end).
  assert (∃ fs_opt,
            run = match fs_opt with
                  | None => fail (InternalError "Storage backend not initialized.") s
                  | Some k =>
                      (let* _ := _report_every ld 0 1 0 0 type in
                       let* _ := _check_local_snapshot_paths ld src_to_dest_path check_src in
                       k) s
                  end) as [fs_opt Hrun].
  { subst run check_src. destruct type; [unfold upload|unfold download];
      destruct (_remote_fs ld) as [fs|];
      first [ by exists None | eexists (Some _); reflexivity ]. }
  cut (∃ e s', run = (Failed e, s') ∧ store s' = store s ∧
                 tablet_files s' = tablet_files s ∧ disk s' = disk s ∧
                 downloaded_tablet_ids s' = downloaded_tablet_ids s).
  { intros (e & s' & -> & ?). simpl. eauto. }
  rewrite Hrun. clear Hrun run. destruct fs_opt as [k|]; [|by eauto 10].
  unfold bind.
  pose proof (report_every_ends ld 0 1 0 0 type s) as Hends.
  destruct (report_every_frame ld 0 1 0 0 type) as (Fd & Fs & Fe & Ft & Fi).
  specialize (Fd s). specialize (Fs s). specialize (Ft s). specialize (Fi s).
  destruct (_report_every ld 0 1 0 0 type s) as [[c|e|e] s1]; simpl in *.
  2: { by eauto 10. }
  2: { destruct Hends as [[? ?]|?]; done. }
  destruct (check_local_snapshot_paths_loop ld src_to_dest_path check_src s1) as [H1 H2].
  pose proof (check_local_snapshot_paths_keeps store ld src_to_dest_path check_src
                (λ _ _, eq_refl) s1) as Ks.
  pose proof (check_local_snapshot_paths_keeps tablet_files ld src_to_dest_path check_src
                (λ _ _, eq_refl) s1) as Kt.
  pose proof (check_local_snapshot_paths_keeps disk ld src_to_dest_path check_src
                (λ _ _, eq_refl) s1) as Kd.
  pose proof (check_local_snapshot_paths_keeps downloaded_tablet_ids ld src_to_dest_path
                check_src (λ _ _, eq_refl) s1) as Ki.
  destruct (_check_local_snapshot_paths ld src_to_dest_path check_src s1) as [[[]|e|e] s2];
    simpl in *.
  - exfalso. destruct H1 as [H1 _]. specialize (H1 eq_refl).
    rewrite Forall_forall in H1. specialize (H1 (src, dest)).
    rewrite elem_of_entries in H1. specialize (H1 Hl). simpl in H1.
    assert ((if check_src then src else dest) = path) as Hp by (by destruct type).
    rewrite Hp, Fd in H1.
    destruct Hbad as [Hbad|Hbad]; rewrite Hbad in H1; [done|].
    by destruct (ok _).
  - exists e, s2. split; [done|]. repeat split; congruence.
  - exfalso. destruct H2 as [?|(x & _ & _ & H2)]; [done|]. simpl in H2.
    revert H2. clear. repeat case_match; done.
Qed.

(** *** The files of a download *)

Lemma index_by_checksum_nothing (files : list FileInfo) :
  (∀ f, f ∈ files → checksum_stat f = None) → index_by_checksum files = ∅.
Proof.
  intros H. apply map_eq. intros name.
  rewrite index_by_checksum_lookup, lookup_empty. unfold first_listed.
  assert (omap checksum_stat files = []) as ->; [|done].
  induction files as [|f files IH]; [done|]. simpl.
  rewrite (H f) by (by left). apply IH. intros g Hg. apply H. by right.
Qed.

(** X15: a remote directory without any checksummed object is a hard
    error for [download].  When the listing of the remote directory
    succeeds but none of its objects has a checksum suffix, the tablet
    fails with "get nothing from remote path" after the two listings:
    nothing is downloaded and no local file is deleted, although the
    tablet id has already been recorded. *)
Theorem download_tablet_empty_listing ld fs (total_num : Z)
    (remote_path local_path : string) (acc : Z * Z) s
    (local_tablet_id schema_hash remote_tablet_id : Z)
    (st : Status) (local_files : list FileInfo) (st_remote : Status)
    (remote_files : list FileInfo) :
  _get_tablet_id_and_schema_hash_from_file_path local_path
    = Ok (local_tablet_id, schema_hash) →
  _get_tablet_id_from_remote_path remote_path uninitialized = Ok remote_tablet_id →
  fs_list (local_fs (_env ld)) local_path (disk s) = (st, local_files) → ok st = true →
  rfs_list fs remote_path (store s) = (st_remote, remote_files) → ok st_remote = true →
  (∀ f, f ∈ remote_files → checksum_stat f = None) →
  let run := download_tablet ld fs total_num (remote_path, local_path) acc s in
  run.1 = Failed (InternalError ("get nothing from remote path: " +:+ remote_path)) ∧
  calls run.2 = (calls s ++ [CLocalList local_path; CRemoteList remote_path])%list ∧
  disk run.2 = disk s ∧
  downloaded_tablet_ids run.2 = (downloaded_tablet_ids s ++ [local_tablet_id])%list.
Proof.
  intros Hp Hr Hl Hok Hrl Hrok Hnone run.
  assert (run =
            (Failed (InternalError ("get nothing from remote path: " +:+ remote_path)),
             logged (logged (set_downloaded_tablet_ids s
                               (downloaded_tablet_ids s ++ [local_tablet_id])%list)
                       (CLocalList local_path)) (CRemoteList remote_path))) as ->.
  { subst run. unfold download_tablet. destruct acc as [rc fin]. cbn [fst snd].
    rewrite Hp, Hr. unfold lift, bind at 1, ret at 1.
    unfold bind at 1, push_downloaded_tablet_id at 1.
    unfold bind at 1, ret at 1.
    unfold bind at 1, _get_existing_files_from_local, bind at 1, local_list at 1.
    cbn [disk set_downloaded_tablet_ids]. rewrite Hl.
    unfold bind at 1, return_if_error at 1. rewrite Hok. unfold ret at 1, ret at 1.
    unfold bind at 1, _list_with_checksum, bind at 1, remote_list at 1.
    cbn [store logged set_downloaded_tablet_ids]. rewrite Hrl.
    unfold bind at 1, return_if_error at 1. rewrite Hrok. unfold ret at 1, ret at 1.
    rewrite (index_by_checksum_nothing _ Hnone).
    rewrite bool_decide_true by done. unfold fail. done. }
  cbn [fst snd logged set_downloaded_tablet_ids calls disk downloaded_tablet_ids].
  repeat split. by rewrite <- app_assoc.
Qed.

Lemma find_index_None (x : string) (v : list string) :
  find_index x v = None ↔ x ∉ v.
Proof.
  induction v as [|y v IH]; simpl.
  - split; [intros _; apply not_elem_of_nil|done].
  - rewrite not_elem_of_cons. destruct (String.eqb y x) eqn:Hyx.
    + apply String.eqb_eq in Hyx as ->. split; [done|]. intros [? _]. done.
    + apply String.eqb_neq in Hyx. rewrite fmap_None, IH. split; [|tauto].
      intros ?. split; [congruence|done].
Qed.

(** X16: in the loop of [download] over the remote files, a file is
    skipped exactly when its name is among the local files, it is not a
    header, the md5 of the local file can be computed and it equals the
    md5 of the listing.  A file that is missing locally and a header are
    fetched without the local file being hashed at all.  The test never
    fails and never writes. *)
Theorem need_download_skips_iff ld (local_path remote_file : string) (file_stat : FileStat)
    (local_files : list string) s :
  let sum := fs_md5sum (local_fs (_env ld)) (local_path +:+ "/" +:+ remote_file) (disk s) in
  let run := need_download ld local_path remote_file file_stat
               (find_index remote_file local_files) s in
  (run.1 = Done false ↔
     remote_file ∈ local_files ∧ _end_with remote_file ".hdr" = false ∧
     ok sum.1 = true ∧ sum.2 = FileStat.md5 file_stat) ∧
  (run.1 = Done false ∨ run.1 = Done true) ∧
  (remote_file ∉ local_files ∨ _end_with remote_file ".hdr" = true →
     run = (Done true, s)) ∧
  disk run.2 = disk s.
Proof.
  intros sum run. subst run. unfold need_download.
  destruct (find_index remote_file local_files) as [i|] eqn:Hfind.
  - assert (remote_file ∈ local_files) as Hin.
    { apply dec_stable. intros Hn%find_index_None. congruence. }
    destruct (_end_with remote_file ".hdr") eqn:Hh.
    + unfold ret. simpl. split; [|split; [by right|split; [done|done]]].
      split; [done|]. intros (_ & ? & _). done.
    + unfold bind, md5sum. fold sum. destruct sum as [st md5] eqn:Hsum. simpl.
      destruct (ok st) eqn:Hok; simpl.
      * split; [|split; [|split; [|done]]].
        -- split.
           ++ intros [= H%negb_false_iff%String.eqb_eq]. done.
           ++ intros (_ & _ & _ & <-). by rewrite String.eqb_refl.
        -- destruct (negb _); [by right|by left].
        -- intros [?|?]; done.
      * split; [|split; [by right|split; [|done]]].
        -- split; [done|]. intros (_ & _ & ? & _). done.
        -- intros [?|?]; done.
  - apply find_index_None in Hfind. unfold ret. simpl.
    split; [|split; [by right|split; [done|done]]].
    split; [done|]. intros (? & _). done.
Qed.

(** X17: the capacity of the data directory is checked before a file is
    downloaded.  When a file is to be fetched and the data directory
    reports that the file would take it over its limit, [download] stops
    with the error EXCEEDED_LIMIT; the download is not attempted and the
    disk is as it was. *)
Theorem download_file_capacity ld fs (remote_path local_path : string)
    (local_tablet_id : Z) (dir : DataDir) (finished_num total_num : Z)
    (remote_file : string) (file_stat : FileStat) (report_counter : Z)
    (local_files : list string) s (counter : Z) s1 s2 (local_file_name : string) :
  _report_every ld 10 report_counter finished_num total_num DOWNLOAD s = (Done counter, s1) →
  need_download ld local_path remote_file file_stat (find_index remote_file local_files) s1
    = (Done true, s2) →
  _replace_tablet_id remote_file local_tablet_id = Ok local_file_name →
  eng_reach_capacity_limit (engine (_env ld)) dir (FileStat.size file_stat)
    (disk s2) (eng s2) = true →
  let run := download_file ld fs remote_path local_path local_tablet_id dir
               finished_num total_num (remote_file, file_stat)
               (report_counter, local_files) s in
  run = (Failed (ExceededLimit ("reach the capacity limit of path " +:+ dir_path dir
                                +:+ ", file_size=" +:+ pretty (FileStat.size file_stat))),
         logged s2 (CReachCapacityLimit (dir_path dir) (FileStat.size file_stat))) ∧
  disk run.2 = disk s.
Proof.
  intros Hrep Hneed Hname Hfull run.
  assert (run = (Failed (ExceededLimit ("reach the capacity limit of path " +:+ dir_path dir
                                +:+ ", file_size=" +:+ pretty (FileStat.size file_stat))),
         logged s2 (CReachCapacityLimit (dir_path dir) (FileStat.size file_stat)))) as Hrun.
  { subst run. unfold download_file. cbn [fst snd].
    rewrite (bind_Done _ _ _ _ _ Hrep). rewrite (bind_Done _ _ _ _ _ Hneed). cbn [negb].
    rewrite Hname. unfold lift, bind at 1, ret at 1.
    unfold bind at 1, reach_capacity_limit at 1. by rewrite Hfull. }
  split; [done|]. rewrite Hrun. cbn [snd logged disk].
  transitivity (disk s1).
  - eapply keeps_Done; [|exact Hneed]. by apply need_download_frame.
  - eapply keeps_Done; [|exact Hrep]. apply report_every_frame.
Qed.

(** X18: a file that the loop of [download] has passed is either
    skipped, the disk and the list of local files unchanged, or in
    place and verified: it was written under its rewritten name, that
    name is the last of the local files, and the md5 of the file on disk
    is the md5 of the listing. *)
Theorem download_file_verified ld fs (remote_path local_path : string)
    (local_tablet_id : Z) (dir : DataDir) (finished_num total_num : Z)
    (remote_file : string) (file_stat : FileStat) (report_counter : Z)
    (local_files : list string) s (counter : Z) (local_files' : list string) s' :
  download_file ld fs remote_path local_path local_tablet_id dir finished_num total_num
    (remote_file, file_stat) (report_counter, local_files) s
    = (Done (counter, local_files'), s') →
  (local_files' = local_files ∧ disk s' = disk s) ∨
  (∃ local_file_name,
     _replace_tablet_id remote_file local_tablet_id = Ok local_file_name ∧
     local_files' =
       (match find_index remote_file local_files with
        | Some i => delete i local_files
        | None => local_files
        end ++ [local_file_name])%list ∧
     CRemoteDownload
       (remote_path +:+ "/" +:+ remote_file +:+ "." +:+ FileStat.md5 file_stat)
       (local_path +:+ "/" +:+ local_file_name) ∈ calls s' ∧
     ok (fs_md5sum (local_fs (_env ld)) (local_path +:+ "/" +:+ local_file_name)
           (disk s')).1 = true ∧
     (fs_md5sum (local_fs (_env ld)) (local_path +:+ "/" +:+ local_file_name)
        (disk s')).2 = FileStat.md5 file_stat).
Proof.
  unfold download_file. cbn [fst snd]. intros H.
  apply bind_Done_inv in H as (c & s1 & Hrep & H).
  apply bind_Done_inv in H as (need & s2 & Hneed & H).
  assert (disk s2 = disk s) as Hd2.
  { transitivity (disk s1).
    - eapply keeps_Done; [|exact Hneed]. by apply need_download_frame.
    - eapply keeps_Done; [|exact Hrep]. apply report_every_frame. }
  destruct need; cbn [negb] in H.
  2: { injection H as <- <- <-. left. done. }
  right.
  apply bind_Done_inv in H as (name & s3 & Hname & H).
  destruct (_replace_tablet_id remote_file local_tablet_id) as [name'|] eqn:Hrep_id;
    [|done]. injection Hname as -> ->.
  apply bind_Done_inv in H as (full & s4 & Hcap & H).
  injection Hcap as <- <-. case_match; [done|].
  apply bind_Done_inv in H as (st & s5 & Hdl & H).
  apply bind_Done_inv in H as ([] & s6 & Hst & H).
  apply bind_Done_inv in H as ([st2 md5] & s7 & Hsum & H).
  apply bind_Done_inv in H as ([] & s8 & Hst2 & H).
  unfold return_if_error in Hst, Hst2.
  destruct (ok st) eqn:Hok; [|done]. injection Hst as <-.
  destruct (ok st2) eqn:Hok2; [|done]. injection Hst2 as <-.
  destruct (negb (String.eqb md5 (FileStat.md5 file_stat))) eqn:Heq; [done|].
  apply negb_false_iff, String.eqb_eq in Heq as ->.
  injection H as <- <- <-.
  unfold md5sum in Hsum. injection Hsum as Hsum <-.
  unfold remote_download in Hdl. destruct (rfs_download _ _ _ _ _) as [st' l'].
  injection Hdl as -> <-.
  exists name. cbn [logged disk set_disk calls] in *. rewrite Hsum. simpl.
  repeat split; try done.
  rewrite !elem_of_app. left. right. by left.
Qed.

(** What the pruning loop does with one local file. *)
Lemma prune_file_stale ld (local_path : string) (remote_tablet_id : Z)
    (has_remote : string → bool) (local_file : string) s :
  prune_file ld local_path remote_tablet_id has_remote local_file tt s =
    (Done tt,
     if stale has_remote remote_tablet_id local_file
     then logged (set_disk s (fs_remove (local_fs (_env ld))
                                (local_path +:+ "/" +:+ local_file) (disk s)).2)
                 (CRemove (local_path +:+ "/" +:+ local_file))
     else s).
Proof.
  unfold prune_file, stale, _replace_tablet_id.
  destruct (_end_with local_file ".hdr").
  - destruct (has_remote _); [done|]. unfold bind, remove.
    by destruct (fs_remove _ _ _).
  - destruct (_end_with local_file ".idx" || _end_with local_file ".dat"); [|done].
    destruct (has_remote _); [done|]. unfold bind, remove.
    by destruct (fs_remove _ _ _).
Qed.

(** X19: the pruning loop at the end of a download never fails, a
    failed removal being ignored, and it asks for the removal of exactly
    the stale files, in the order of the list: the headers when
    [<remote tablet id>.hdr] is not a remote file, and the index and data
    files whose own name is not a remote file.  A file with any other
    suffix is never removed.  The remote store and the engine are not
    touched. *)
Theorem prune_removes_stale_files ld (local_path : string) (remote_tablet_id : Z)
    (has_remote : string → bool) (local_files : list string) s :
  let run := for_each local_files
               (prune_file ld local_path remote_tablet_id has_remote) tt s in
  run.1 = Done tt ∧
  calls run.2 =
    (calls s ++ ((λ f, CRemove (local_path +:+ "/" +:+ f))
                   <$> List.filter (stale has_remote remote_tablet_id) local_files))%list ∧
  store run.2 = store s ∧ eng run.2 = eng s ∧
  (∀ f, f ∈ local_files →
     _end_with f ".hdr" = false → _end_with f ".idx" = false → _end_with f ".dat" = false →
     CRemove (local_path +:+ "/" +:+ f) ∉
       ((λ f, CRemove (local_path +:+ "/" +:+ f))
          <$> List.filter (stale has_remote remote_tablet_id) local_files)).
Proof.
  intros run.
  assert (run.1 = Done tt ∧
          calls run.2 =
            (calls s ++ ((λ f, CRemove (local_path +:+ "/" +:+ f))
               <$> List.filter (stale has_remote remote_tablet_id) local_files))%list ∧
          store run.2 = store s ∧ eng run.2 = eng s) as (H1 & H2 & H3 & H4).
  { subst run. revert s. induction local_files as [|f files IH]; intros s.
    - simpl. by rewrite app_nil_r.
    - cbn [for_each]. unfold bind. rewrite prune_file_stale.
      cbn [List.filter]. destruct (stale has_remote remote_tablet_id f).
      + destruct (IH (logged (set_disk s (fs_remove (local_fs (_env ld))
                                (local_path +:+ "/" +:+ f) (disk s)).2)
                 (CRemove (local_path +:+ "/" +:+ f)))) as (I1 & I2 & I3 & I4).
        rewrite I1, I2, I3, I4. cbn [logged set_disk calls store eng].
        by rewrite fmap_cons, <- app_assoc.
      + apply IH. }
  repeat split; try done.
  intros f Hf Hh Hi Hd Hin.
  apply list_elem_of_fmap in Hin as (g & Hg & Hin).
  assert (g = f) as ->.
  { injection Hg as Hg. 
    assert (∀ a b c : string, a +:+ b = a +:+ c → b = c) as Hinj.
    { intros a. induction a as [|ch a IHa]; intros b c; [done|].
      rewrite !app_cons. intros [= H]. by apply IHa. }
    apply Hinj, (Hinj "/") in Hg. done. }
  apply list_elem_of_In, List.filter_In in Hin as [_ Hst].
  unfold stale in Hst. by rewrite Hh, Hi, Hd in Hst.
Qed.

(** *** Download from a peer *)

Lemma http_need_download_files_filter (local_files : gmap string LocalFileStat)
    (remote_files : gmap string RemoteFileStat) :
  http_need_download_files local_files remote_files =
    (filter (λ p : string * RemoteFileStat,
               http_need_download local_files p.1 p.2 = true)
            (map_to_list remote_files)).*1.
Proof.
  unfold http_need_download_files.
  assert (∀ (l : list (string * RemoteFileStat)) (acc : list string),
    foldl (λ need_download_files '(remote_file, remote_filestat),
             if http_need_download local_files remote_file remote_filestat
             then (need_download_files ++ [remote_file])%list
             else need_download_files) acc l
    = (acc ++ (filter (λ p : string * RemoteFileStat,
                         http_need_download local_files p.1 p.2 = true) l).*1)%list)
    as Hgen.
  { induction l as [|[f st] l IH]; intros acc; simpl.
    - by rewrite app_nil_r.
    - rewrite IH, filter_cons. simpl.
      destruct (http_need_download local_files f st) eqn:Hf.
      + rewrite decide_True by done. by rewrite fmap_cons, <- app_assoc.
      + rewrite decide_False by done. done. }
  by rewrite Hgen.
Qed.

(** X20: the list of files that [remote_http_download] decides to fetch
    names remote files only and names none twice; it holds every remote
    file that is missing locally, every header, and every file whose
    local size differs from the declared size. *)
Theorem http_need_download_files_sound (local_files : gmap string LocalFileStat)
    (remote_files : gmap string RemoteFileStat) :
  let files := http_need_download_files local_files remote_files in
  NoDup files ∧
  (∀ f, f ∈ files → is_Some (remote_files !! f)) ∧
  (∀ f, is_Some (remote_files !! f) →
     local_files !! f = None ∨ _end_with f ".hdr" = true → f ∈ files) ∧
  (∀ f remote_filestat local_filestat,
     remote_files !! f = Some remote_filestat → local_files !! f = Some local_filestat →
     LocalFileStat.size local_filestat ≠ RemoteFileStat.size remote_filestat →
     f ∈ files).
Proof.
  intros files. split; [|split; [|split]].
  - subst files. rewrite http_need_download_files_filter.
    eapply sublist_NoDup; [apply (NoDup_fst_map_to_list remote_files)|].
    apply fmap_sublist, sublist_filter.
  - intros f. subst files. rewrite http_need_download_files_spec.
    intros (st & H & _). eauto.
  - intros f [st Hst] H. subst files. apply http_need_download_files_spec.
    exists st. split; [done|]. unfold http_need_download.
    destruct H as [-> | H]; [done|]. destruct (local_files !! f); [|done]. by rewrite H.
  - intros f rst lst Hr Hl Hne. subst files. apply http_need_download_files_spec.
    exists rst. split; [done|]. unfold http_need_download. rewrite Hl.
    destruct (_end_with f ".hdr"); [done|].
    by rewrite (proj2 (Z.eqb_neq _ _) Hne).
Qed.

(** X21: the checks that [download_cb] makes on a file the client has
    written, before it changes the permission of the file, pass exactly
    when the size on disk is the declared size and, if an md5 was
    declared, the md5 of the file can be computed and equals it.  With
    an empty declared md5 the file is not even hashed.  The checks never
    write. *)
Theorem http_verify_download_accepts ld (local_file_path remote_file_url : string)
    (remote_file_md5 : string) (file_size : Z) s :
  let run := http_verify_download ld local_file_path remote_file_url remote_file_md5
               file_size s in
  let sum := fs_md5sum (local_fs (_env ld)) local_file_path (disk s) in
  (run.1 = Done tt ↔
     fs_file_size (local_fs (_env ld)) local_file_path (disk s) = inl file_size ∧
     (remote_file_md5 = "" ∨ (ok sum.1 = true ∧ sum.2 = remote_file_md5))) ∧
  (remote_file_md5 = "" →
     calls run.2 = (calls s ++ [CFileSize local_file_path])%list) ∧
  disk run.2 = disk s.
Proof.
  intros run sum. subst run. unfold http_verify_download, bind, file_size_.
  destruct (fs_file_size _ _ _) as [sz|ec] eqn:Hsz.
  2: { simpl. split; [|done]. split; [done|]. intros [? _]. done. }
  destruct (sz =? file_size) eqn:Hsize; cbn [negb].
  2: { simpl. apply Z.eqb_neq in Hsize. split; [|done]. split; [done|].
       intros [[= ?] _]. done. }
  apply Z.eqb_eq in Hsize as ->.
  destruct (String.eqb remote_file_md5 "") eqn:Hmd5; cbn [negb].
  { apply String.eqb_eq in Hmd5 as ->. simpl. split; [|done]. split; [auto|done]. }
  apply String.eqb_neq in Hmd5.
  unfold md5sum, return_if_error. cbn [logged disk]. fold sum.
  destruct sum as [st md5] eqn:Hsum. simpl.
  destruct (ok st) eqn:Hok; simpl.
  - destruct (String.eqb md5 remote_file_md5) eqn:Heq; simpl.
    + apply String.eqb_eq in Heq as ->. split; [|done]. split; [auto|done].
    + apply String.eqb_neq in Heq. split; [|done]. split; [done|].
      intros [_ [?|[_ ?]]]; done.
  - split; [|done]. split; [done|]. intros [_ [?|[? _]]]; done.
Qed.

Lemma http_local_files_loop ld (local_path : string) (names : list string)
    (acc : gmap string LocalFileStat) s (m : gmap string LocalFileStat) s' :
  for_each names
    (λ local_file (local_files : gmap string LocalFileStat),
       let local_file_path := local_path +:+ "/" +:+ local_file in
       let* sz := file_size_ ld local_file_path in
       match sz with
       | inr ec =>
           fail (IOError ("can't retrive file_size of " +:+ local_file_path
                          +:+ ", due to " +:+ ec))
       | inl local_file_size =>
           let* (status, md5) := md5sum ld local_file_path in
           if negb (ok status) then fail status
           else ret (<[local_file := LocalFileStat.mk local_file_size md5]> local_files)
       end)
    acc s = (Done m, s') →
  disk s' = disk s ∧
  (∀ f, is_Some (m !! f) ↔ is_Some (acc !! f) ∨ f ∈ names) ∧
  (∀ f stat, m !! f = Some stat →
     acc !! f = Some stat ∨
     (f ∈ names ∧
      fs_file_size (local_fs (_env ld)) (local_path +:+ "/" +:+ f) (disk s)
        = inl (LocalFileStat.size stat) ∧
      ok (fs_md5sum (local_fs (_env ld)) (local_path +:+ "/" +:+ f) (disk s)).1 = true ∧
      (fs_md5sum (local_fs (_env ld)) (local_path +:+ "/" +:+ f) (disk s)).2
        = LocalFileStat.md5 stat)).
Proof.
  revert acc s. induction names as [|x names IH]; intros acc s H.
  - injection H as <- <-. split; [done|]. split.
    + intros f. rewrite elem_of_nil. tauto.
    + intros f stat Hf. by left.
  - cbn [for_each] in H. apply bind_Done_inv in H as (acc1 & s1 & Hstep & H).
    apply bind_Done_inv in Hstep as (sz & s2 & Hsz & Hstep).
    unfold file_size_ in Hsz. injection Hsz as <- <-.
    destruct (fs_file_size _ _ _) as [size|ec] eqn:Hsize; [|done].
    apply bind_Done_inv in Hstep as ([st md5] & s3 & Hsum & Hstep).
    unfold md5sum in Hsum. injection Hsum as Hsum <-. cbn [logged disk] in Hsum.
    cbn beta iota in Hstep. revert Hstep. destruct (ok st) eqn:Hok; [|done].
    intros [= <- <-].
    apply IH in H as (Hd & Hdom & Hval). cbn [logged disk] in Hd, Hval.
    split; [done|]. split.
    + intros f. rewrite Hdom, elem_of_cons.
      destruct (decide (f = x)) as [->|Hne].
      * rewrite lookup_insert_eq. split; [auto|]. intros _. left. by eexists.
      * rewrite lookup_insert_ne by done. split; intros [?|?]; auto.
        destruct H as [?|?]; [done|auto].
    + intros f stat Hf. destruct (Hval f stat Hf) as [Hacc|(Hin & ?)].
      * destruct (decide (f = x)) as [->|Hne].
        -- rewrite lookup_insert_eq in Hacc. injection Hacc as <-. right.
           split; [by left|]. rewrite Hsize, Hsum. simpl. done.
        -- rewrite lookup_insert_ne in Hacc by done. by left.
      * right. split; [by right|done].
Qed.

(** X22: when the second step of [remote_http_download] succeeds, its
    map has exactly the files that the local directory lists, each with
    the size and the md5 that the local file system gives for it; the
    step only reads the disk. *)
Theorem http_local_files_stat ld (local_path : string) s
    (local_files : gmap string LocalFileStat) s' :
  http_local_files ld local_path s = (Done local_files, s') →
  let names := file_name <$> (fs_list (local_fs (_env ld)) local_path (disk s)).2 in
  disk s' = disk s ∧
  (∀ f, is_Some (local_files !! f) ↔ f ∈ names) ∧
  (∀ f stat, local_files !! f = Some stat →
     fs_file_size (local_fs (_env ld)) (local_path +:+ "/" +:+ f) (disk s)
       = inl (LocalFileStat.size stat) ∧
     ok (fs_md5sum (local_fs (_env ld)) (local_path +:+ "/" +:+ f) (disk s)).1 = true ∧
     (fs_md5sum (local_fs (_env ld)) (local_path +:+ "/" +:+ f) (disk s)).2
       = LocalFileStat.md5 stat).
Proof.
  unfold http_local_files. intros H.
  apply bind_Done_inv in H as (names & s1 & Hls & H).
  unfold _get_existing_files_from_local in Hls.
  apply bind_Done_inv in Hls as ([st files] & s2 & Hl & Hls).
  unfold local_list in Hl. injection Hl as Hl <-.
  apply bind_Done_inv in Hls as ([] & s3 & Hst & Hls).
  unfold return_if_error in Hst. destruct (ok st); [|done].
  injection Hst as <-. injection Hls as <- <-.
  apply http_local_files_loop in H as (Hd & Hdom & Hval).
  cbn [logged disk] in Hd, Hval. rewrite Hl. simpl.
  split; [done|]. split.
  - intros f. rewrite Hdom, lookup_empty. split; [intros [[? ?]|?]; done|auto].
  - intros f stat Hf. destruct (Hval f stat Hf) as [?|(_ & ?)]; done.
Qed.

(** X27: the timeout of a peer download is never below the configured
    floor, and it is long enough for the file at the configured low
    speed limit, up to the second lost in the integer division: the file
    is smaller than [(timeout + 1) * limit * 1024]. *)
Theorem estimate_timeout_bounds (download_low_speed_limit_kbps download_low_speed_time : Z)
    (file_size : Z) :
  0 < download_low_speed_limit_kbps < 2 ^ 64 →
  0 ≤ download_low_speed_time < 2 ^ 64 →
  0 ≤ file_size < 2 ^ 64 →
  let timeout :=
    estimate_timeout download_low_speed_limit_kbps download_low_speed_time file_size in
  download_low_speed_time ≤ timeout < 2 ^ 64 ∧
  file_size < (timeout + 1) * download_low_speed_limit_kbps * 1024 ∧
  (timeout = download_low_speed_time ∨
   timeout * download_low_speed_limit_kbps * 1024 ≤ file_size).
Proof.
  intros Hl Ht Hs timeout. subst timeout. unfold estimate_timeout, to_uint64.
  rewrite !Z.mod_small by lia.
  rewrite Z.div_div by lia.
  set (d := download_low_speed_limit_kbps * 1024).
  assert (0 < d) as Hd by lia.
  pose proof (Z.mul_div_le file_size d Hd) as Hle.
  pose proof (Z.mul_succ_div_gt file_size d Hd) as Hgt.
  assert (0 ≤ file_size / d ≤ file_size) as Hq.
  { split; [apply Z.div_pos; lia|]. apply Z.div_le_upper_bound; [lia|]. nia. }
  destruct (Z.ltb_spec (file_size / d) download_low_speed_time).
  - split; [lia|]. split; [|by left]. nia.
  - split; [lia|]. split; [nia|]. right. nia.
Qed.

(** *** The promotion of a snapshot *)

Lemma path_error_is_internal (p : string) (st : Status) :
  _get_tablet_id_and_schema_hash_from_file_path p = Err st → st = InternalError (msg st).
Proof. intros H%path_error_code. destruct st as [c m]. simpl in *. by subst. Qed.

(** X23: [move] checks before it writes.  When the two paths do not
    parse to the same tablet id and schema hash, when the engine has no
    store for the data directory of the tablet, or when one of the two
    directories does not exist, it returns an internal error and leaves
    the disk and the engine as they were. *)
Theorem move_rejects_before_writing ld (snapshot_path : string) (tablet : Tablet)
    (overwrite : bool) s :
  (∀ id, _get_tablet_id_and_schema_hash_from_file_path snapshot_path = Ok id →
         _get_tablet_id_and_schema_hash_from_file_path (tablet_path tablet) ≠ Ok id) ∨
  eng_get_store (engine (_env ld)) (dir_path (data_dir tablet)) (eng s) = None ∨
  fs_exists (local_fs (_env ld)) (tablet_path tablet) (disk s) = false ∨
  fs_exists (local_fs (_env ld)) snapshot_path (disk s) = false →
  let run := move ld snapshot_path tablet overwrite s in
  (∃ m, run.1 = Failed (InternalError m)) ∧ disk run.2 = disk s ∧ eng run.2 = eng s.
Proof.
  intros Hbad run.
  cut (∃ m s', run = (Failed (InternalError m), s') ∧ disk s' = disk s ∧ eng s' = eng s).
  { intros (m & s' & -> & ? & ?). simpl. eauto. }
  subst run. unfold move.
  destruct (_get_tablet_id_and_schema_hash_from_file_path snapshot_path)
    as [[t1 h1]|e1] eqn:Hp1.
  2: { apply path_error_is_internal in Hp1. rewrite Hp1. by eauto. }
  destruct (_get_tablet_id_and_schema_hash_from_file_path (tablet_path tablet))
    as [[t2 h2]|e2] eqn:Hp2.
  2: { apply path_error_is_internal in Hp2. rewrite Hp2. by eauto. }
  unfold lift at 1, bind at 1, ret at 1. unfold lift at 1, bind at 1, ret at 1.
  destruct (negb (t2 =? t1) || negb (h2 =? h1)) eqn:Hmatch; [by eauto|].
  apply orb_false_iff in Hmatch as [Ht%negb_false_iff%Z.eqb_eq Hh%negb_false_iff%Z.eqb_eq].
  subst t2 h2.
  destruct Hbad as [Hbad|Hbad]; [by destruct (Hbad _ eq_refl)|].
  unfold bind at 1, get_store at 1.
  destruct (eng_get_store _ _ _) as [dir|]; [|by eauto].
  destruct Hbad as [Hbad|Hbad]; [done|].
  unfold bind at 1, exists_ at 1. cbn [logged disk].
  destruct (fs_exists _ (tablet_path tablet) _); cbn [negb]; [|by eauto].
  destruct Hbad as [Hbad|Hbad]; [done|].
  unfold bind at 1, exists_ at 1. cbn [logged disk]. rewrite Hbad. cbn [negb].
  by eauto.
Qed.

(** X24: [move] without [overwrite] is not supported, and it says so
    late.  With both paths valid and matching, the store found and both
    directories present, the rowset ids of the snapshot are converted
    first; only then an exception with the fatal error "only support
    overwrite now" is thrown.  No lock is tried and the tablet directory
    is not touched, but the conversion has been done. *)
Theorem move_without_overwrite ld (snapshot_path : string) (tablet : Tablet) s
    (tablet_id schema_hash : Z) (dir : DataDir) (l : L) (e : E) :
  let lfs := local_fs (_env ld) in
  let eg := engine (_env ld) in
  _get_tablet_id_and_schema_hash_from_file_path snapshot_path
    = Ok (tablet_id, schema_hash) →
  _get_tablet_id_and_schema_hash_from_file_path (tablet_path tablet)
    = Ok (tablet_id, schema_hash) →
  eng_get_store eg (dir_path (data_dir tablet)) (eng s) = Some dir →
  fs_exists lfs (tablet_path tablet) (disk s) = true →
  fs_exists lfs snapshot_path (disk s) = true →
  eng_convert_rowset_ids eg snapshot_path tablet_id (replica_id tablet)
    (table_id tablet) (partition_id tablet) schema_hash (disk s) (eng s)
    = (None, l, e) →
  move ld snapshot_path tablet false s =
    (Thrown (FatalError "only support overwrite now"),
     mkState l (store s) e (fe s)
       (calls s ++
          [CGetStore (dir_path (data_dir tablet));
           CExists (tablet_path tablet);
           CExists snapshot_path;
           CConvertRowsetIds snapshot_path tablet_id (replica_id tablet)
             (table_id tablet) (partition_id tablet) schema_hash])%list
       (tablet_files s) (downloaded_tablet_ids s)).
Proof.
  cbv zeta. intros Hp1 Hp2 Hstore Hex1 Hex2 Hconv.
  unfold move. rewrite Hp1, Hp2.
  unfold lift at 1, bind at 1, ret at 1.
  unfold lift at 1, bind at 1, ret at 1.
  rewrite !Z.eqb_refl. cbn [negb orb].
  unfold bind at 1, get_store at 1. rewrite Hstore.
  unfold bind at 1, exists_ at 1. cbn [disk logged]. rewrite Hex1. cbn [negb].
  unfold bind at 1, exists_ at 1. cbn [disk logged]. rewrite Hex2. cbn [negb].
  unfold bind at 1, convert_rowset_ids at 1. cbn [disk eng logged]. rewrite Hconv.
  cbn [negb]. unfold throw. apply (f_equal (pair _)).
  apply State_eq;
    cbn [disk store eng fe calls tablet_files downloaded_tablet_ids
         logged set_eng set_disk]; try reflexivity.
  do 3 rewrite <- app_assoc. reflexivity.
Qed.

Lemma cleanup_loop ld (linked_files : list string) s :
  ∃ s', for_each linked_files
          (λ linked_file (_ : unit), let* _ := remove ld linked_file in ret tt) tt s
        = (Done tt, s') ∧
        calls s' = (calls s ++ (CRemove <$> linked_files))%list.
Proof.
  revert s. induction linked_files as [|f files IH]; intros s.
  - exists s. simpl. by rewrite app_nil_r.
  - cbn [for_each]. unfold bind at 1. unfold bind at 1, remove at 1.
    destruct (fs_remove _ _ _) as [r l']. unfold ret at 1.
    destruct (IH (logged (set_disk s l') (CRemove f))) as (s' & I1 & I2).
    exists s'. split; [done|]. rewrite I2. cbn [logged set_disk calls].
    by rewrite fmap_cons, <- app_assoc.
Qed.

(** The loop of [move] that links the snapshot files. *)
Lemma link_loop ld (snapshot_path tablet_path : string) (files : list string)
    (linked_files : list string) s :
  let src f := snapshot_path +:+ "/" +:+ f in
  let dst f := tablet_path +:+ "/" +:+ f in
  ∃ out s',
    for_each files (link_file ld snapshot_path tablet_path) linked_files s = (out, s') ∧
    match out with
    | Done linked =>
        linked = (linked_files ++ (dst <$> files))%list ∧
        calls s' = (calls s ++ ((λ f, CLink (src f) (dst f)) <$> files))%list
    | Failed e =>
        e = InternalError "move tablet failed" ∧
        ∃ before bad after,
          files = (before ++ bad :: after)%list ∧
          calls s' =
            (calls s ++ ((λ f, CLink (src f) (dst f)) <$> (before ++ [bad]))
                     ++ (CRemove <$> (linked_files ++ (dst <$> before))))%list
    | Thrown _ => False
    end.
Proof.
  intros src dst. revert linked_files s.
  induction files as [|f files IH]; intros linked_files s.
  - eexists _, _. split; [reflexivity|]. simpl. by rewrite !app_nil_r.
  - cbn [for_each]. unfold bind at 1. unfold link_file at 1.
    unfold bind at 1, link at 1.
    destruct (fs_link _ _ _ _) as [[] l'].
    + cbn [negb]. unfold ret at 1.
      destruct (IH (linked_files ++ [tablet_path +:+ "/" +:+ f])%list
                   (logged (set_disk s l')
                      (CLink (snapshot_path +:+ "/" +:+ f) (tablet_path +:+ "/" +:+ f))))
        as (out & s1 & -> & IH').
      exists out, s1. split; [by destruct out|].
      destruct out as [linked|e|e].
      * destruct IH' as [-> ->]. cbn [logged set_disk calls].
        by rewrite fmap_cons, <- !app_assoc.
      * destruct IH' as (-> & before & bad & after & -> & ->). split; [done|].
        exists (f :: before), bad, after. split; [done|].
        cbn [logged set_disk calls]. rewrite <- !app_assoc. reflexivity.
      * done.
    + cbn [negb]. unfold bind at 1.
      destruct (cleanup_loop ld linked_files
                  (logged (set_disk s l')
                     (CLink (snapshot_path +:+ "/" +:+ f) (tablet_path +:+ "/" +:+ f))))
        as (s1 & -> & C2).
      eexists _, _. split; [reflexivity|]. split; [done|].
      exists [], f, files. split; [done|]. rewrite C2. cbn [logged set_disk calls].
      simpl. by rewrite app_nil_r, <- app_assoc.
Qed.

(** X25: the loop of [move] that links the snapshot files into the
    tablet directory links them in order under the same names.  When a
    link fails, the loop removes the links it has made so far, in the
    order it made them, makes no further link, and fails with "move
    tablet failed"; it never throws. *)
Theorem link_files_all_or_cleanup ld (snapshot_path tablet_path : string)
    (files : list string) s :
  let src f := snapshot_path +:+ "/" +:+ f in
  let dst f := tablet_path +:+ "/" +:+ f in
  let run := for_each files (link_file ld snapshot_path tablet_path) [] s in
  match run.1 with
  | Done linked =>
      linked = dst <$> files ∧
      calls run.2 = (calls s ++ ((λ f, CLink (src f) (dst f)) <$> files))%list
  | Failed e =>
      e = InternalError "move tablet failed" ∧
      ∃ before bad after,
        files = (before ++ bad :: after)%list ∧
        calls run.2 =
          (calls s ++ ((λ f, CLink (src f) (dst f)) <$> before)
                   ++ [CLink (src bad) (dst bad)]
                   ++ (CRemove <$> (dst <$> before)))%list
  | Thrown _ => False
  end.
Proof.
  intros src dst run.
  destruct (link_loop ld snapshot_path tablet_path files [] s) as (out & s' & Hrun & H).
  subst run. rewrite Hrun. cbn [fst snd]. destruct out as [linked|e|e]; [done| |done].
  destruct H as (-> & before & bad & after & -> & H). split; [done|].
  exists before, bad, after. split; [done|]. rewrite H.
  by rewrite fmap_app, <- !app_assoc.
Qed.

(** X26: what a successful [move] has done.  It was asked to overwrite;
    both paths parse to the same tablet id and schema hash; the
    conversion of the rowset ids succeeded; and its calls are, in this
    order: the look-up of the store, the two existence tests, the
    conversion of the rowset ids, the six lock attempts, the listing of
    the snapshot directory, the removal and the re-creation of the
    tablet directory, one link for each file that the listing of the
    snapshot directory gave (taken on the disk as the conversion left
    it), in the order of the listing, and the reload of the tablet from
    its directory with [restore] set. *)
Theorem move_done_calls ld (snapshot_path : string) (tablet : Tablet) (overwrite : bool)
    s s' :
  move ld snapshot_path tablet overwrite s = (Done tt, s') →
  overwrite = true ∧
  ∃ (tablet_id schema_hash : Z) (dir : DataDir) (l : L) (e : E),
    _get_tablet_id_and_schema_hash_from_file_path snapshot_path
      = Ok (tablet_id, schema_hash) ∧
    _get_tablet_id_and_schema_hash_from_file_path (tablet_path tablet)
      = Ok (tablet_id, schema_hash) ∧
    eng_get_store (engine (_env ld)) (dir_path (data_dir tablet)) (eng s) = Some dir ∧
    eng_convert_rowset_ids (engine (_env ld)) snapshot_path tablet_id (replica_id tablet)
      (table_id tablet) (partition_id tablet) schema_hash (disk s) (eng s)
      = (None, l, e) ∧
    ok (fs_list (local_fs (_env ld)) snapshot_path l).1 = true ∧
    calls s' =
      (calls s ++
         [CGetStore (dir_path (data_dir tablet));
          CExists (tablet_path tablet);
          CExists snapshot_path;
          CConvertRowsetIds snapshot_path tablet_id (replica_id tablet)
            (table_id tablet) (partition_id tablet) schema_hash;
          CTryLock migration_lock;
          CTryLock base_compaction_lock;
          CTryLock cumulative_compaction_lock;
          CTryLock cold_compaction_lock;
          CTryLock build_inverted_index_lock;
          CTryLock meta_store_lock;
          CLocalList snapshot_path;
          CRemoveAll (tablet_path tablet);
          CCreateDirectory (tablet_path tablet)]
         ++ ((λ f, CLink (snapshot_path +:+ "/" +:+ f) (tablet_path tablet +:+ "/" +:+ f))
               <$> (file_name <$> (fs_list (local_fs (_env ld)) snapshot_path l).2))
         ++ [CLoadTabletFromDir (dir_path dir) tablet_id schema_hash
               (tablet_path tablet) true])%list.
Proof.
  unfold move. intros H.
  apply bind_Done_inv in H as ([t1 h1] & s1 & Hp1 & H).
  destruct (_get_tablet_id_and_schema_hash_from_file_path snapshot_path)
    as [id1|] eqn:Ep1; [|done]. injection Hp1 as -> <-.
  apply bind_Done_inv in H as ([t2 h2] & s2 & Hp2 & H).
  destruct (_get_tablet_id_and_schema_hash_from_file_path (tablet_path tablet))
    as [id2|] eqn:Ep2; [|done]. injection Hp2 as -> <-.
  destruct (negb (t2 =? t1) || negb (h2 =? h1)) eqn:Hmatch; [done|].
  apply orb_false_iff in Hmatch as [Ht%negb_false_iff%Z.eqb_eq Hh%negb_false_iff%Z.eqb_eq].
  subst t2 h2.
  apply bind_Done_inv in H as (dir & s3 & Hst & H).
  unfold get_store in Hst. injection Hst as Hst <-.
  destruct dir as [dir|]; [|done].
  apply bind_Done_inv in H as (ex1 & s4 & Hex1 & H).
  unfold exists_ in Hex1. injection Hex1 as _ <-.
  destruct ex1; [|done]. cbn [negb] in H.
  apply bind_Done_inv in H as (ex2 & s5 & Hex2 & H).
  unfold exists_ in Hex2. injection Hex2 as _ <-.
  destruct ex2; [|done]. cbn [negb] in H.
  apply bind_Done_inv in H as (res & s6 & Hconv & H).
  unfold convert_rowset_ids in Hconv. cbn [logged disk eng] in Hconv.
  destruct (eng_convert_rowset_ids _ _ _ _ _ _ _ _ _) as [[r l6] e6] eqn:Econv.
  injection Hconv as -> <-. destruct res; [done|].
  destruct overwrite; [|done]. cbn [negb] in H. split; [done|].
  apply bind_Done_inv in H as (k1 & s7 & Hk1 & H). injection Hk1 as _ <-.
  apply bind_Done_inv in H as (k2 & s8 & Hk2 & H). injection Hk2 as _ <-.
  apply bind_Done_inv in H as (k3 & s9 & Hk3 & H). injection Hk3 as _ <-.
  apply bind_Done_inv in H as (k4 & s10 & Hk4 & H). injection Hk4 as _ <-.
  apply bind_Done_inv in H as (k5 & s11 & Hk5 & H). injection Hk5 as _ <-.
  apply bind_Done_inv in H as (k6 & s12 & Hk6 & H). injection Hk6 as _ <-.
  case_match; [done|].
  apply bind_Done_inv in H as (files & s13 & Hfiles & H).
  unfold _get_existing_files_from_local in Hfiles.
  apply bind_Done_inv in Hfiles as ([stl lfiles] & s14 & Hl & Hfiles).
  unfold local_list in Hl. injection Hl as Hl <-.
  cbn [logged set_eng set_disk disk] in Hl.
  apply bind_Done_inv in Hfiles as ([] & s15 & Hre & Hfiles).
  unfold return_if_error in Hre. destruct (ok stl) eqn:Hok; [|done]. injection Hre as <-.
  injection Hfiles as <- <-.
  apply bind_Done_inv in H as (removed & s16 & Hrm & H).
  unfold remove_all in Hrm. destruct (fs_remove_all _ _ _) as [rm l16].
  injection Hrm as -> <-. destruct removed; [done|].
  apply bind_Done_inv in H as (created & s17 & Hcr & H).
  unfold create_directory in Hcr. destruct (fs_create_directory _ _ _) as [cr l17].
  injection Hcr as -> <-. destruct created; [done|].
  apply bind_Done_inv in H as (linked & s18 & Hlink & H).
  apply bind_Done_inv in H as (ost & s19 & Hload & H).
  unfold load_tablet_from_dir in Hload.
  destruct (eng_load_tablet_from_dir _ _ _ _ _ _ _ _) as [ost' e19].
  injection Hload as -> <-.
  destruct (negb (ok ost)); [done|]. injection H as <-.
  match type of Hlink with for_each _ _ _ ?s0 = _ =>
    destruct (link_loop ld snapshot_path (tablet_path tablet) (file_name <$> lfiles) [] s0)
      as (out & s0' & Hrun & Hloop) end.
  rewrite Hlink in Hrun. injection Hrun as <- <-.
  destruct Hloop as [_ Hcalls].
  exists t1, h1, dir, l6, e6. rewrite Hl. cbn [fst snd].
  repeat split; try done.
  cbn [calls logged set_eng]. rewrite Hcalls.
  cbn [disk store eng fe calls tablet_files downloaded_tablet_ids
       logged set_eng set_disk].
  rewrite <- !app_assoc. reflexivity.
Qed.

(** *** Whole transfers *)

Lemma bind_invariant {A B} (I : State → Prop) (m : M A) (k : A → M B) s :
  I (m s).2 → (∀ a s1, m s = (Done a, s1) → I s1 → I (k a s1).2) → I (bind m k s).2.
Proof.
  intros Hm Hk. unfold bind. destruct (m s) as [[a|e|e] s1]; [|done..].
  by apply Hk.
Qed.

Lemma for_each_invariant {A S} (I : State → Prop) (xs : list A) (body : A → S → M S)
    (acc : S) s :
  (∀ x a s0, x ∈ xs → I s0 → I (body x a s0).2) → I s → I (for_each xs body acc s).2.
Proof.
  revert acc s. induction xs as [|x xs IH]; intros acc s Hbody Hs; [done|].
  cbn [for_each]. apply bind_invariant.
  - apply Hbody; [by left|done].
  - intros a s1 Hrun Hs1. apply IH; [|done].
    intros y b s0 Hy. apply Hbody. by right.
Qed.

Lemma list_with_checksum_Done fs (dir : string) s (m : gmap string FileStat) s' :
  _list_with_checksum fs dir s = (Done m, s') →
  m = index_by_checksum (rfs_list fs dir (store s)).2 ∧ s' = logged s (CRemoteList dir).
Proof.
  unfold _list_with_checksum, bind, remote_list, return_if_error.
  destruct (rfs_list fs dir (store s)) as [st files]. simpl.
  destruct (ok st); [|done]. by intros [= <- <-].
Qed.

Lemma get_existing_files_Done ld (p : string) s (names : list string) s' :
  _get_existing_files_from_local ld p s = (Done names, s') →
  names = file_name <$> (fs_list (local_fs (_env ld)) p (disk s)).2 ∧
  s' = logged s (CLocalList p).
Proof.
  unfold _get_existing_files_from_local, bind, local_list, return_if_error.
  destruct (fs_list _ p (disk s)) as [st files]. simpl.
  destruct (ok st); [|done]. by intros [= <- <-].
Qed.

(** X28: an upload that finds everything in place transfers nothing.
    When, for every pair of the map, each file that the source directory
    lists is in the checksummed listing of the destination with the md5
    the file has on disk, [upload] leaves the remote store as it found
    it, however it ends. *)
Theorem upload_of_uploaded_snapshot ld fs (src_to_dest_path : gmap string string) s :
  _remote_fs ld = Some fs →
  (∀ src dest, src_to_dest_path !! src = Some dest →
     ∀ f, f ∈ file_name <$> (fs_list (local_fs (_env ld)) src (disk s)).2 →
       ∃ stat,
         index_by_checksum (rfs_list fs dest (store s)).2 !! f = Some stat ∧
         FileStat.md5 stat = (fs_md5sum (local_fs (_env ld)) (src +:+ "/" +:+ f) (disk s)).2) →
  store (upload ld src_to_dest_path s).2 = store s.
Proof.
  intros Hfs Hall.
  set (I := λ s0 : State, disk s0 = disk s ∧ store s0 = store s).
  assert (∀ {A} (m : M A) s0,
            keeps disk m → keeps store m → I s0 → I (m s0).2) as Hkeep.
  { intros A m s0 Kd Ks [Hd Hs]. split; [by rewrite Kd|by rewrite Ks]. }
  cut (I (upload ld src_to_dest_path s).2); [by intros [_ ?]|].
  unfold upload. rewrite Hfs.
  apply bind_invariant.
  { apply Hkeep; [apply report_every_frame..|done]. }
  intros c s1 _ Hs1.
  apply bind_invariant.
  { apply Hkeep; [by apply check_local_snapshot_paths_keeps..|done]. }
  intros [] s2 _ Hs2.
  apply bind_invariant; [|done].
  apply for_each_invariant; [|done].
  intros [src dest] [rc fin] s0 Hin%elem_of_entries Hs0.
  specialize (Hall src dest Hin).
  unfold upload_tablet. cbn [fst snd].
  apply bind_invariant.
  { apply Hkeep; [apply keeps_lift..|done]. }
  intros [tid sh] s3 _ Hs3.
  apply bind_invariant.
  { apply Hkeep; [by apply list_with_checksum_keeps..|done]. }
  intros rf s4 Hrf Hs4. apply list_with_checksum_Done in Hrf as [-> _].
  replace (store s3) with (store s) by (symmetry; apply Hs3).
  apply bind_invariant.
  { apply Hkeep; [by apply get_existing_files_keeps..|done]. }
  intros names s5 Hnames Hs5. apply get_existing_files_Done in Hnames as [-> _].
  replace (disk s4) with (disk s) by (symmetry; apply Hs4).
  apply bind_invariant.
  2: { intros [rc' names'] s6 _ Hs6. done. }
  apply for_each_invariant; [|done].
  intros f [rc1 names1] s7 Hf Hs7.
  destruct (Hall f Hf) as (stat & Hstat & Hmd5).
  unfold upload_file.
  apply bind_invariant.
  { apply Hkeep; [apply report_every_frame..|done]. }
  intros c1 s8 _ Hs8.
  apply bind_invariant; [done|].
  intros [st md5] s9 Hsum Hs9. unfold md5sum in Hsum. injection Hsum as Hsum _.
  replace (disk s8) with (disk s) in Hsum by (symmetry; apply Hs8).
  rewrite Hsum in Hmd5. simpl in Hmd5.
  apply bind_invariant.
  { apply Hkeep; [apply keeps_return_if_error..|done]. }
  intros [] s10 _ Hs10.
  rewrite (proj2 (need_upload_false_iff _ _ _)) by eauto.
  done.
Qed.

(** What a pair of [download] adds to the recorded tablet ids, however
    it ends. *)
Lemma download_tablet_ids ld fs (total_num : Z) (iter : string * string) (acc : Z * Z) s :
  downloaded_tablet_ids (download_tablet ld fs total_num iter acc s).2 =
    (downloaded_tablet_ids s ++ omap (λ p : string * string, tablet_id_of p.2) [iter])%list.
Proof.
  unfold download_tablet, tablet_id_of. destruct acc as [rc fin]. simpl.
  destruct (_get_tablet_id_and_schema_hash_from_file_path iter.2) as [[tid sh]|e].
  2: { simpl. by rewrite app_nil_r. }
  unfold lift at 1, bind at 1, ret at 1.
  unfold bind at 1, push_downloaded_tablet_id at 1.
  match goal with |- downloaded_tablet_ids (?m ?s0).2 = _ =>
    assert (keeps downloaded_tablet_ids m) as Hk
  end.
  { frame_auto;
      first [ apply get_existing_files_keeps; done
            | apply list_with_checksum_keeps; done
            | apply download_file_keeps_ids
            | apply prune_file_keeps_ids ]. }
  rewrite Hk. reflexivity.
Qed.

Lemma download_loop_ids ld fs (total_num : Z) (pairs : list (string * string))
    (acc : Z * Z) s :
  let run := for_each pairs (download_tablet ld fs total_num) acc s in
  ∃ processed,
    processed `prefix_of` pairs ∧
    downloaded_tablet_ids run.2 =
      (downloaded_tablet_ids s
         ++ omap (λ p : string * string, tablet_id_of p.2) processed)%list ∧
    (∀ a, run.1 = Done a →
       processed = pairs ∧ ∀ p, p ∈ pairs → is_Some (tablet_id_of p.2)).
Proof.
  revert acc s. induction pairs as [|p pairs IH]; intros acc s run; subst run.
  - exists []. simpl. rewrite app_nil_r. repeat split; try done.
    intros p Hp. by apply elem_of_nil in Hp.
  - cbn [for_each]. unfold bind.
    pose proof (download_tablet_ids ld fs total_num p acc s) as Hids.
    destruct (download_tablet ld fs total_num p acc s) as [[a|e|e] s1] eqn:Hrun;
      cbn [snd] in Hids.
    + assert (is_Some (tablet_id_of p.2)) as Hsome.
      { unfold download_tablet in Hrun. destruct acc as [rc fin].
        apply bind_Done_inv in Hrun as ([tid sh] & s2 & Hp & _).
        unfold tablet_id_of.
        destruct (_get_tablet_id_and_schema_hash_from_file_path p.2) as [[]|]; [|done].
        by eexists. }
      destruct (IH a s1) as (processed & Hpre & Hrest & Hdone).
      exists (p :: processed). split; [by apply prefix_cons|]. split.
      * rewrite Hrest, Hids. cbn [omap list_omap]. destruct Hsome as [tid ->].
        by rewrite <- app_assoc.
      * intros a' Ha'. destruct (Hdone a' Ha') as [-> Hall]. split; [done|].
        intros q [->|Hq]%elem_of_cons; [done|by apply Hall].
    + exists [p]. split; [apply prefix_cons, prefix_nil|]. split; [done|done].
    + exists [p]. split; [apply prefix_cons, prefix_nil|]. split; [done|done].
Qed.

(** X29: the tablet ids that [download] records are the tablet ids of
    the local directories it has gone through, in the order of the map:
    whatever the outcome, they are appended for a prefix of the pairs,
    and on success for all of them, each local path having parsed. *)
Theorem download_records_tablet_ids ld (src_to_dest_path : gmap string string) s :
  let run := download ld src_to_dest_path s in
  ∃ processed,
    processed `prefix_of` entries src_to_dest_path ∧
    downloaded_tablet_ids run.2 =
      (downloaded_tablet_ids s
         ++ omap (λ p : string * string, tablet_id_of p.2) processed)%list ∧
    (run.1 = Done tt →
       processed = entries src_to_dest_path ∧
       ∀ src dest, src_to_dest_path !! src = Some dest → is_Some (tablet_id_of dest)).
Proof.
  intros run.
  assert (∃ out s', run = (out, s')) as (out & s' & Hrun) by (destruct run; eauto).
  rewrite Hrun. cbn [fst snd]. subst run. unfold download in Hrun.
  destruct (_remote_fs ld) as [fs|].
  2: { injection Hrun as <- <-. exists []. simpl. rewrite app_nil_r.
       split; [apply prefix_nil|done]. }
  unfold bind at 1 in Hrun.
  pose proof (proj2 (proj2 (proj2 (proj2 (report_every_frame ld 0 1 0 0 DOWNLOAD)))) s)
    as Hk1.
  destruct (_report_every ld 0 1 0 0 DOWNLOAD s) as [[c|e|e] s1]; cbn [snd] in Hk1.
  2,3: injection Hrun as <- <-; exists []; simpl; rewrite app_nil_r;
       split; [apply prefix_nil|done].
  unfold bind at 1 in Hrun.
  pose proof (check_local_snapshot_paths_keeps downloaded_tablet_ids ld src_to_dest_path
                false (λ _ _, eq_refl) s1) as Hk2.
  destruct (_check_local_snapshot_paths ld src_to_dest_path false s1) as [[[]|e|e] s2];
    cbn [snd] in Hk2.
  2,3: injection Hrun as <- <-; exists []; simpl; rewrite app_nil_r;
       split; [apply prefix_nil|]; split; [congruence|done].
  unfold bind in Hrun.
  destruct (download_loop_ids ld fs (to_int32 (Z.of_nat (size src_to_dest_path)))
              (entries src_to_dest_path) (0, 0) s2) as (processed & Hpre & Hids & Hdone).
  cbn zeta in Hids, Hdone.
  destruct (for_each (entries src_to_dest_path) _ _ s2) as [[a|e|e] s3];
    cbn [fst snd] in *; injection Hrun as <- <-; exists processed; (split; [done|]);
    (split; [by rewrite Hids, Hk2, Hk1|]); [|done..].
  intros _. destruct (Hdone a eq_refl) as [-> Hall]. split; [done|].
  intros src dest Hl. apply (Hall (src, dest)). by apply elem_of_entries.
Qed.

(** X30: the manifest entry of a tablet is written last.  When the
    body of the loop of [upload] does not complete for a pair, whether a
    path does not parse, a listing or a hash fails, the job is cancelled
    or a transfer fails, the manifest is as it was before the pair. *)
Theorem upload_tablet_manifest_last ld fs (total_num : Z) (iter : string * string)
    (acc : Z * Z) s :
  let run := upload_tablet ld fs total_num iter acc s in
  (∀ acc', run.1 ≠ Done acc') → tablet_files run.2 = tablet_files s.
Proof.
  intros run.
  assert (∃ out s', run = (out, s')) as (out & s' & Hrun) by (destruct run; eauto).
  rewrite Hrun. cbn [fst snd]. subst run. intros Hnot.
  unfold upload_tablet in Hrun. destruct acc as [rc fin].
  unfold bind at 1 in Hrun.
  destruct (lift (_get_tablet_id_and_schema_hash_from_file_path iter.1) s)
    as [[[tid sh]|e|e] s1] eqn:H1;
    pose proof (keeps_Done tablet_files _ _ _ _ (keeps_lift _ _) H1) as K1.
  2,3: by injection Hrun as <- <-.
  unfold bind at 1 in Hrun.
  destruct (_list_with_checksum fs iter.2 s1) as [[rf|e|e] s2] eqn:H2;
    pose proof (keeps_Done tablet_files _ _ _ _
                  (list_with_checksum_keeps tablet_files _ _ (λ _ _, eq_refl)) H2) as K2.
  2,3: injection Hrun as <- <-; congruence.
  unfold bind at 1 in Hrun.
  destruct (_get_existing_files_from_local ld iter.1 s2) as [[lf|e|e] s3] eqn:H3;
    pose proof (keeps_Done tablet_files _ _ _ _
                  (get_existing_files_keeps tablet_files _ _ (λ _ _, eq_refl)) H3) as K3.
  2,3: injection Hrun as <- <-; congruence.
  unfold bind at 1 in Hrun.
  destruct (for_each lf _ _ s3) as [[[rc' names]|e|e] s4] eqn:H4;
    pose proof (keeps_Done tablet_files _ _ _ _
                  (keeps_for_each _ _ _ _
                     (λ x a, upload_file_keeps_tablet_files ld fs _ _ _ _ _ x a)) H4) as K4.
  2,3: injection Hrun as <- <-; congruence.
  injection Hrun as <- <-. by destruct (Hnot (rc', int_incr fin)).
Qed.

End Coverage.

(** * The order of the calls of a run *)

Section Logged.

Context {L R E C : Type}.

Abbreviation State := (@State L R E C).
Abbreviation M := (@M L R E C).
Abbreviation SnapshotLoader := (@SnapshotLoader L R E C).
Abbreviation RemoteFileSystem := (@RemoteFileSystem L R).

Implicit Types (ld : SnapshotLoader) (fs : RemoteFileSystem) (s : State)
  (Q : Call → Prop).

(** *** Invariants of the log *)

Lemma preserves_ret {A} (I : State → Prop) (a : A) : preserves I (ret a).
Proof. by intros s. Qed.

Lemma preserves_fail {A} (I : State → Prop) (st : Status) :
  preserves I (@fail L R E C A st).
Proof. by intros s. Qed.

Lemma preserves_throw {A} (I : State → Prop) (st : Status) :
  preserves I (@throw L R E C A st).
Proof. by intros s. Qed.

Lemma preserves_bind {A B} (I : State → Prop) (m : M A) (k : A → M B) :
  preserves I m → (∀ a, preserves I (k a)) → preserves I (bind m k).
Proof.
  intros Hm Hk s Hs. unfold bind. specialize (Hm s Hs).
  destruct (m s) as [[a|e|e] s1]; [|done..]. by apply Hk.
Qed.

Lemma preserves_bind_ret {A B} (I : State → Prop) (a : A) (k : A → M B) :
  preserves I (k a) → preserves I (bind (ret a) k).
Proof. intros Hk s Hs. exact (Hk s Hs). Qed.

Lemma preserves_for_each {A S} (I : State → Prop) (xs : list A) (body : A → S → M S)
    (acc : S) :
  (∀ x a, x ∈ xs → preserves I (body x a)) → preserves I (for_each xs body acc).
Proof.
  revert acc. induction xs as [|x xs IH]; intros acc Hb; cbn [for_each].
  - apply preserves_ret.
  - apply preserves_bind; [apply Hb; by left|].
    intros a. apply IH. intros y b Hy. apply Hb. by right.
Qed.

Lemma preserves_lift {A} (I : State → Prop) (r : Result A) : preserves I (lift r).
Proof. destruct r; [apply preserves_ret|apply preserves_fail]. Qed.

Lemma preserves_return_if_error (I : State → Prop) (st : Status) :
  preserves I (return_if_error st).
Proof.
  unfold return_if_error. destruct (ok st); [apply preserves_ret|apply preserves_fail].
Qed.

Lemma since_refl s Q : since s Q s.
Proof. exists []. by rewrite app_nil_r. Qed.

Lemma since_call s s0 s1 Q (c : Call) :
  calls s1 = (calls s0 ++ [c])%list → Q c → since s Q s0 → since s Q s1.
Proof.
  intros Hc HQ (cs & H0 & Q0). exists (cs ++ [c])%list.
  split; [by rewrite Hc, H0, app_assoc|]. apply Forall_app. by split; [|constructor].
Qed.

Lemma since_same s s0 s1 Q : calls s1 = calls s0 → since s Q s0 → since s Q s1.
Proof. intros Hc (cs & H0 & Q0). exists cs. by rewrite Hc. Qed.

(** A call to a collaborator: what is left to show is that the call
    is one of [Q]. *)
Ltac since_prim :=
  let s0 := fresh "s" in
  let H0 := fresh "H" in
  intros s0 H0;
  cbv [is_directory local_list md5sum file_size_ exists_ remove remove_all
       create_directory link remote_list remote_upload remote_rename remote_download
       get_tablet get_store reach_capacity_limit convert_rowset_ids try_to_lock
       load_tablet_from_dir snapshotLoaderReport push_downloaded_tablet_id
       emplace_tablet_files];
  repeat case_match; cbn [snd];
  first [ eapply since_same; [reflexivity|exact H0]
        | eapply since_call; [reflexivity| |exact H0] ].

Ltac since_step :=
  first
    [ apply preserves_ret | apply preserves_fail | apply preserves_throw
    | apply preserves_lift | apply preserves_return_if_error
    | apply preserves_bind; [|intros]
    | apply preserves_for_each; intros
    | progress (repeat case_match)
    | since_prim ].

Lemma report_every_since s Q ld (t c f n : Z) (ty : TTaskType) :
  (∀ req, Q (CReport req)) → preserves (since s Q) (_report_every ld t c f n ty).
Proof. intros HQ. unfold _report_every. repeat since_step. all: apply HQ. Qed.

Lemma check_local_snapshot_paths_since s Q ld (m : gmap string string) (b : bool) :
  (∀ path, Q (CIsDirectory path)) →
  preserves (since s Q) (_check_local_snapshot_paths ld m b).
Proof. intros HQ. unfold _check_local_snapshot_paths. repeat since_step. all: apply HQ. Qed.

Lemma download_tablet_since s Q ld fs (total_num : Z) (p : string * string)
    (acc : Z * Z) :
  (∀ c, is_report c = true ∨ is_Some (tablet_id_of p.2) ∧ pair_call p c → Q c) →
  preserves (since s Q) (download_tablet ld fs total_num p acc).
Proof.
  intros HQ. unfold download_tablet. destruct acc as [rc fin].
  destruct (_get_tablet_id_and_schema_hash_from_file_path p.2) as [[tid sh]|e] eqn:Hp.
  2: { intros s0 H0. exact H0. }
  assert (tablet_id_of p.2 = Some tid) as Htid by (unfold tablet_id_of; by rewrite Hp).
  assert (∀ c, pair_call p c → Q c) as HP.
  { intros c Hc. apply HQ. right. rewrite Htid. eauto. }
  assert (∀ req, Q (CReport req)) as HR.
  { intros req. apply HQ. by left. }
  clear HQ.
  cbn [lift]. apply preserves_bind_ret.
  repeat first
    [ since_step
    | progress unfold _get_existing_files_from_local, _list_with_checksum, download_file,
        need_download, prune_file, _report_every ].
  all: try apply HR; try (apply HP; cbn [pair_call]; eauto).
Qed.

Lemma for_each_app {A S} (xs ys : list A) (body : A → S → M S) (acc : S) s :
  for_each (xs ++ ys) body acc s
  = (let* acc' := for_each xs body acc in for_each ys body acc') s.
Proof.
  revert acc s. induction xs as [|x xs IH]; intros acc s; [done|].
  cbn [app for_each]. unfold bind.
  destruct (body x acc s) as [[a|e|e] s1]; [|done..]. rewrite IH. reflexivity.
Qed.

(** [upload] and [download] are their runs through all the pairs. *)
Lemma upload_until_all ld fs (src_to_dest_path : gmap string string) s :
  _remote_fs ld = Some fs →
  upload ld src_to_dest_path s
  = (let* _ := upload_until ld fs src_to_dest_path (entries src_to_dest_path) in
     ret tt) s.
Proof.
  intros Hfs. unfold upload, upload_until. rewrite Hfs. unfold bind.
  destruct (_report_every ld 0 1 0 0 UPLOAD s) as [[c|e|e] s1]; [|done..].
  by destruct (_check_local_snapshot_paths ld src_to_dest_path true s1)
    as [[[]|e|e] s2].
Qed.

Lemma download_until_all ld fs (src_to_dest_path : gmap string string) s :
  _remote_fs ld = Some fs →
  download ld src_to_dest_path s
  = (let* _ := download_until ld fs src_to_dest_path (entries src_to_dest_path) in
     ret tt) s.
Proof.
  intros Hfs. unfold download, download_until. rewrite Hfs. unfold bind.
  destruct (_report_every ld 0 1 0 0 DOWNLOAD s) as [[c|e|e] s1]; [|done..].
  by destruct (_check_local_snapshot_paths ld src_to_dest_path false s1)
    as [[[]|e|e] s2].
Qed.

(** The calls of the loop of [download] belong to the pairs it has gone
    through, whose tablet ids it has recorded. *)
Lemma download_loop_log ld fs (total_num : Z) (pairs : list (string * string))
    (acc : Z * Z) s :
  let run := for_each pairs (download_tablet ld fs total_num) acc s in
  ∃ processed cs,
    processed `prefix_of` pairs ∧
    (∀ a, run.1 = Done a → processed = pairs) ∧
    downloaded_tablet_ids run.2 =
      (downloaded_tablet_ids s
         ++ omap (λ p : string * string, tablet_id_of p.2) processed)%list ∧
    calls run.2 = (calls s ++ cs)%list ∧
    Forall (λ c, is_report c = true ∨
                 ∃ p, p ∈ processed ∧ is_Some (tablet_id_of p.2) ∧ pair_call p c) cs.
Proof.
  revert acc s. induction pairs as [|p pairs IH]; intros acc s run; subst run.
  - exists [], []. simpl. rewrite !app_nil_r. done.
  - cbn [for_each]. unfold bind.
    pose proof (download_tablet_ids ld fs total_num p acc s) as Hids.
    destruct (download_tablet_since s
                (λ c, is_report c = true ∨ is_Some (tablet_id_of p.2) ∧ pair_call p c)
                ld fs total_num p acc (λ c H, H) s (since_refl s _)) as (cs & Hcs & HQ).
    assert (Forall (λ c, is_report c = true ∨
                         ∃ q, q ∈ [p] ∧ is_Some (tablet_id_of q.2) ∧ pair_call q c) cs)
      as HQ'.
    { eapply Forall_impl; [exact HQ|]. intros c [?|[? ?]]; [by left|right].
      exists p. split; [by apply list_elem_of_singleton|done]. }
    destruct (download_tablet ld fs total_num p acc s) as [[a|e|e] s1];
      cbn [snd] in Hids, Hcs.
    + destruct (IH a s1) as (processed & cs' & Hpre & Hdone & Hrest & Hcs' & HQr).
      exists (p :: processed), (cs ++ cs')%list.
      split; [by apply prefix_cons|]. split.
      { intros a' Ha'. by rewrite (Hdone a' Ha'). }
      split.
      { rewrite Hrest, Hids. change (p :: processed) with ([p] ++ processed)%list.
        by rewrite omap_app, app_assoc. }
      split; [by rewrite Hcs', Hcs, app_assoc|].
      apply Forall_app. split.
      * eapply Forall_impl; [exact HQ'|]. intros c [?|(q & Hq & ?)]; [by left|right].
        exists q. split; [|done]. apply list_elem_of_singleton in Hq as ->. by left.
      * eapply Forall_impl; [exact HQr|]. intros c [?|(q & Hq & ?)]; [by left|right].
        exists q. split; [by right|done].
    + exists [p], cs. split; [apply prefix_cons, prefix_nil|]. done.
    + exists [p], cs. split; [apply prefix_cons, prefix_nil|]. done.
Qed.

(** C10: [download] records the local tablet id of a pair as soon as
    the local path is parsed.  Whatever the outcome of [download], the
    ids recorded are those of a prefix of the pairs, the pairs gone
    through, in their order, and every call made, the reports and the
    checks of the local directories apart, is a listing, a look-up, a
    hashing, a transfer or a removal for one of these pairs, whose id is
    recorded.  Where [download] has come to a pair whose local path
    parses, the id is recorded whatever comes next; if the remote path
    then fails to parse, [download] returns the error with the id
    recorded and no call made since the pair was reached; if the listing
    of the local directory then fails, [download] returns the error with
    the id recorded and that listing as the only call, so nothing of the
    pair was diffed or transferred. *)
Theorem download_records_id_first ld fs (src_to_dest_path : gmap string string) s :
  _remote_fs ld = Some fs →
  let run := download ld src_to_dest_path s in
  (∃ processed cs,
     processed `prefix_of` entries src_to_dest_path ∧
     (run.1 = Done tt → processed = entries src_to_dest_path) ∧
     downloaded_tablet_ids run.2 =
       (downloaded_tablet_ids s
          ++ omap (λ p : string * string, tablet_id_of p.2) processed)%list ∧
     calls run.2 = (calls s ++ cs)%list ∧
     Forall (λ c, is_report c = true ∨ (∃ path, c = CIsDirectory path) ∨
                  ∃ p, p ∈ processed ∧ is_Some (tablet_id_of p.2) ∧ pair_call p c) cs) ∧
  (∀ (pre post : list (string * string)) (remote_path local_path : string)
     (acc : Z * Z) s1 (local_tablet_id : Z),
     entries src_to_dest_path = (pre ++ (remote_path, local_path) :: post)%list →
     download_until ld fs src_to_dest_path pre s = (Done acc, s1) →
     tablet_id_of local_path = Some local_tablet_id →
     let recorded :=
       set_downloaded_tablet_ids s1 (downloaded_tablet_ids s1 ++ [local_tablet_id])%list in
     (∃ later, downloaded_tablet_ids run.2
               = (downloaded_tablet_ids s1 ++ local_tablet_id :: later)%list) ∧
     (∀ st, _get_tablet_id_from_remote_path remote_path uninitialized = Err st →
            run = (Failed st, recorded)) ∧
     (∀ remote_tablet_id st files,
        _get_tablet_id_from_remote_path remote_path uninitialized = Ok remote_tablet_id →
        fs_list (local_fs (_env ld)) local_path (disk s1) = (st, files) →
        ok st = false →
        run = (Failed st, logged recorded (CLocalList local_path)))).
Proof.
  intros Hfs run. subst run. unfold download. rewrite Hfs. split.
  - unfold bind.
    pose proof (report_every_keeps_ids ld 0 1 0 0 DOWNLOAD s) as Hk1.
    destruct (report_every_since s
                (λ c, is_report c = true ∨ (∃ path, c = CIsDirectory path) ∨
                      ∃ p, p ∈ @nil (string * string) ∧ is_Some (tablet_id_of p.2)
                           ∧ pair_call p c)
                ld 0 1 0 0 DOWNLOAD (λ _, or_introl eq_refl) s (since_refl s _))
      as (cs1 & Hcs1 & HQ1).
    destruct (_report_every ld 0 1 0 0 DOWNLOAD s) as [[c|e|e] s1];
      cbn [snd] in Hk1, Hcs1.
    2,3: exists [], cs1; cbn [fst snd omap list_omap]; rewrite app_nil_r;
         split; [apply prefix_nil|done].
    pose proof (check_local_snapshot_paths_keeps downloaded_tablet_ids ld src_to_dest_path
                  false (λ _ _, eq_refl) s1) as Hk2.
    destruct (check_local_snapshot_paths_since s1
                (λ c, is_report c = true ∨ (∃ path, c = CIsDirectory path) ∨
                      ∃ p, p ∈ @nil (string * string) ∧ is_Some (tablet_id_of p.2)
                           ∧ pair_call p c)
                ld src_to_dest_path false (λ path, or_intror (or_introl (ex_intro _ path eq_refl)))
                s1 (since_refl s1 _))
      as (cs2 & Hcs2 & HQ2).
    destruct (_check_local_snapshot_paths ld src_to_dest_path false s1) as [[[]|e|e] s2];
      cbn [snd] in Hk2, Hcs2.
    2,3: exists [], (cs1 ++ cs2)%list; cbn [fst snd omap list_omap]; rewrite app_nil_r;
         (split; [apply prefix_nil|]); (split; [done|]); (split; [congruence|]);
         (split; [by rewrite Hcs2, Hcs1, app_assoc|]); by apply Forall_app.
    destruct (download_loop_log ld fs (to_int32 (Z.of_nat (size src_to_dest_path)))
                (entries src_to_dest_path) (0, 0) s2)
      as (processed & cs3 & Hpre & Hdone & Hids & Hcs3 & HQ3).
    cbn zeta in Hdone, Hids, Hcs3.
    assert (Forall (λ c, is_report c = true ∨ (∃ path, c = CIsDirectory path) ∨
                         ∃ p, p ∈ processed ∧ is_Some (tablet_id_of p.2) ∧ pair_call p c)
              (cs1 ++ cs2 ++ cs3)) as HQ.
    { rewrite !Forall_app. split; [|split].
      - eapply Forall_impl; [exact HQ1|]. intros c' [?|[?|(q & Hq & _)]]; auto.
        by apply elem_of_nil in Hq.
      - eapply Forall_impl; [exact HQ2|]. intros c' [?|[?|(q & Hq & _)]]; auto.
        by apply elem_of_nil in Hq.
      - eapply Forall_impl; [exact HQ3|]. intros c' [?|?]; auto. }
    destruct (for_each (entries src_to_dest_path) _ _ s2) as [[a|e|e] s3];
      cbv [ret]; cbn [fst snd] in *; exists processed, (cs1 ++ cs2 ++ cs3)%list;
      (split; [done|]); (split; [eauto; done|]);
      (split; [by rewrite Hids, Hk2, Hk1|]);
      (split; [by rewrite Hcs3, Hcs2, Hcs1, <- !app_assoc|done]).
  - intros pre post remote_path local_path acc s1 tid Hsplit Hpre Htid.
    unfold download_until in Hpre.
    apply bind_Done_inv in Hpre as (c & s01 & Hrep & Hpre).
    apply bind_Done_inv in Hpre as ([] & s02 & Hchk & Hpre).
    cbn zeta in Hpre.
    unfold bind. rewrite Hrep, Hchk, Hsplit.
    rewrite !for_each_app. unfold bind. rewrite Hpre.
    cbn [for_each]. unfold bind.
    assert (∃ sh, _get_tablet_id_and_schema_hash_from_file_path local_path = Ok (tid, sh))
      as [sh Hparse].
    { unfold tablet_id_of in Htid.
      destruct (_get_tablet_id_and_schema_hash_from_file_path local_path) as [[t h]|];
        [|done].
      injection Htid as ->. by exists h. }
    destruct (download_tablet_records_id_first ld fs
                (to_int32 (Z.of_nat (size src_to_dest_path))) remote_path local_path acc s1
                tid sh Hparse) as (Hids & Herr & Hlist).
    split; [|split].
    + destruct (download_tablet ld fs _ (remote_path, local_path) acc s1)
        as [[a|e|e] s2]; cbn [snd] in Hids.
      2,3: exists []; exact Hids.
      destruct (download_loop_ids ld fs (to_int32 (Z.of_nat (size src_to_dest_path)))
                  post a s2) as (processed & _ & Hrest & _).
      cbn zeta in Hrest.
      destruct (for_each post _ a s2) as [[a'|e|e] s3]; cbv [ret]; cbn [snd] in *;
        eexists; rewrite Hrest, Hids, <- app_assoc; reflexivity.
    + intros st Hst. by rewrite (Herr st Hst).
    + intros rid st files Hrid Hl Hok. by rewrite (Hlist rid st files Hrid Hl Hok).
Qed.

(** *** The calls of an upload *)










End Logged.

(** ** The further properties at work in the small world *)

Import Cases.

Lemma list_with_checksum_result_witness :
  ∃ f, f ∈ (Small.list_dir remote_partial "/up/__1001").2 ∧
       checksum_stat f = Some (FileStat.mk "1001.hdr" "aa" 10).
Proof.
  assert (_list_with_checksum (Small.the_remote_fs HDFS) "/up/__1001"
            (Small.start local_disk remote_partial)
          = (Done (index_by_checksum [mkFileInfo "1001.hdr.aa" 10]),
             logged (Small.start local_disk remote_partial) (CRemoteList "/up/__1001")))
    as Hrun by (vm_compute; reflexivity).
  destruct (list_with_checksum_result _ _ _ _ _ Hrun) as (_ & _ & _ & H & _).
  destruct (H "1001.hdr" (FileStat.mk "1001.hdr" "aa" 10)) as [_ Hf];
    [vm_compute; reflexivity|exact Hf].
Defined.

Lemma report_every_cadence_witness :
  let run := report_n hdfs_loader 10 0 1 UPLOAD 25 0 (Small.start ∅ ∅) in
  run.1 = Done ((0 + Z.of_nat 25) mod (10 + 1)) ∧
  Z.of_nat (reports (calls run.2)) =
    Z.of_nat (reports (calls (Small.start ∅ ∅))) + (0 + Z.of_nat 25) / (10 + 1).
Proof.
  apply (report_every_cadence hdfs_loader 10 0 1 UPLOAD 25 0 (Small.start ∅ ∅)).
  - intros request c. split; [reflexivity|discriminate].
  - lia.
  - lia.
Defined.

Lemma report_every_unreachable_witness :
  let run := report_n unreachable_loader 10 0 1 UPLOAD 3 10 (Small.start ∅ ∅) in
  run.1 = Done (10 + Z.of_nat 3) ∧
  reports (calls run.2) = (reports (calls (Small.start ∅ ∅)) + 3)%nat.
Proof.
  apply (report_every_unreachable unreachable_loader 10 0 1 UPLOAD 3 10 (Small.start ∅ ∅)).
  - intros request c. reflexivity.
  - lia.
  - lia.
  - simpl. lia.
Defined.

Lemma cancelled_before_start_witness :
  upload cancelled_loader {[ "/snap/1001/5" := "/up/__1001" ]} (Small.start local_disk ∅)
  = (Failed (Cancelled "Cancelled"),
     logged (set_fe (Small.start local_disk ∅) ()) (CReport (mkReport 1 1 UPLOAD 0 0))).
Proof.
  apply (cancelled_before_start cancelled_loader (Small.the_remote_fs HDFS)
           {[ "/snap/1001/5" := "/up/__1001" ]} (Small.start local_disk ∅) UPLOAD);
    reflexivity.
Defined.

Lemma transfer_rejects_non_directory_witness :
  let run := upload hdfs_loader {[ "/nowhere/1001/5" := "/up/__1001" ]}
               (Small.start local_disk ∅) in
  (∃ e, run.1 = Failed e) ∧
  store run.2 = ∅ ∧ tablet_files run.2 = ∅ ∧
  disk run.2 = local_disk ∧ downloaded_tablet_ids run.2 = [].
Proof.
  apply (transfer_rejects_non_directory hdfs_loader {[ "/nowhere/1001/5" := "/up/__1001" ]}
           (Small.start local_disk ∅) "/nowhere/1001/5" "/up/__1001" UPLOAD).
  - reflexivity.
  - right. reflexivity.
Defined.

Lemma download_tablet_empty_listing_witness :
  let run := download_tablet hdfs_loader (Small.the_remote_fs HDFS) 1
               ("/up/__1001", "/snap/1001/5") (0, 0)
               (Small.start local_disk remote_without_checksum) in
  run.1 = Failed (InternalError "get nothing from remote path: /up/__1001") ∧
  calls run.2 = [CLocalList "/snap/1001/5"; CRemoteList "/up/__1001"] ∧
  disk run.2 = local_disk ∧
  downloaded_tablet_ids run.2 = [1001].
Proof.
  apply (download_tablet_empty_listing hdfs_loader (Small.the_remote_fs HDFS) 1
           "/up/__1001" "/snap/1001/5" (0, 0)
           (Small.start local_disk remote_without_checksum) 1001 5 1001
           StatusOK [mkFileInfo "1001.hdr" 10; mkFileInfo "1001_0_0.dat" 20]
           StatusOK [mkFileInfo "README" 1]);
    try reflexivity.
  intros f Hf. apply list_elem_of_singleton in Hf as ->. reflexivity.
Defined.

Lemma download_file_capacity_witness :
  let s := Small.start local_disk remote_complete in
  let run := download_file crowded_loader (Small.the_remote_fs HDFS) "/up/__1001"
               "/snap/1001/5" 1001 (mkDataDir "/data") 0 1
               ("1001.hdr", FileStat.mk "1001.hdr" "aa" 10)
               (0, ["1001.hdr"; "1001_0_0.dat"]) s in
  run = (Failed (ExceededLimit ("reach the capacity limit of path " +:+ "/data"
                                +:+ ", file_size=" +:+ pretty 10)),
         logged s (CReachCapacityLimit "/data" 10)) ∧
  disk run.2 = disk s.
Proof.
  apply (download_file_capacity crowded_loader (Small.the_remote_fs HDFS) "/up/__1001"
           "/snap/1001/5" 1001 (mkDataDir "/data") 0 1 "1001.hdr"
           (FileStat.mk "1001.hdr" "aa" 10) 0 ["1001.hdr"; "1001_0_0.dat"]
           (Small.start local_disk remote_complete) 1
           (Small.start local_disk remote_complete)
           (Small.start local_disk remote_complete) "1001.hdr");
    reflexivity.
Defined.

Lemma download_file_verified_witness :
  let s := Small.start {[ "/snap/1001/5" := ∅ ]} remote_complete in
  let s' := (download_file hdfs_loader (Small.the_remote_fs HDFS) "/up/__1001"
               "/snap/1001/5" 1001 (mkDataDir "/data") 0 1
               ("1001_0_0.dat", FileStat.mk "1001_0_0.dat" "bb" 20) (0, []) s).2 in
  (["1001_0_0.dat"] = [] ∧ disk s' = disk s) ∨
  (∃ local_file_name,
     _replace_tablet_id "1001_0_0.dat" 1001 = Ok local_file_name ∧
     ["1001_0_0.dat"] =
       (match find_index "1001_0_0.dat" [] with
        | Some i => delete i []
        | None => []
        end ++ [local_file_name])%list ∧
     CRemoteDownload
       ("/up/__1001" +:+ "/" +:+ "1001_0_0.dat" +:+ "." +:+ "bb")
       ("/snap/1001/5" +:+ "/" +:+ local_file_name) ∈ calls s' ∧
     ok (fs_md5sum Small.the_local_fs ("/snap/1001/5" +:+ "/" +:+ local_file_name)
           (disk s')).1 = true ∧
     (fs_md5sum Small.the_local_fs ("/snap/1001/5" +:+ "/" +:+ local_file_name)
        (disk s')).2 = "bb").
Proof.
  cbv zeta.
  apply (download_file_verified hdfs_loader (Small.the_remote_fs HDFS) "/up/__1001"
           "/snap/1001/5" 1001 (mkDataDir "/data") 0 1 "1001_0_0.dat"
           (FileStat.mk "1001_0_0.dat" "bb" 20) 0 []
           (Small.start {[ "/snap/1001/5" := ∅ ]} remote_complete) 1).
  vm_compute. reflexivity.
Defined.

Lemma http_local_files_stat_witness :
  let s := Small.start local_disk ∅ in
  let run := http_local_files hdfs_loader "/snap/1001/5" s in
  run.1 = Done {[ "1001.hdr" := LocalFileStat.mk 10 "aa";
                  "1001_0_0.dat" := LocalFileStat.mk 20 "bb" ]} ∧
  disk run.2 = disk s.
Proof.
  cbv zeta.
  assert (http_local_files hdfs_loader "/snap/1001/5" (Small.start local_disk ∅)
          = (Done {[ "1001.hdr" := LocalFileStat.mk 10 "aa";
                     "1001_0_0.dat" := LocalFileStat.mk 20 "bb" ]},
             (http_local_files hdfs_loader "/snap/1001/5" (Small.start local_disk ∅)).2))
    as Hrun by (vm_compute; reflexivity).
  split; [by rewrite Hrun|].
  by destruct (http_local_files_stat _ _ _ _ _ Hrun) as [H _].
Defined.

Lemma move_rejects_before_writing_witness :
  let s := Small.start local_disk ∅ in
  let run := move hdfs_loader "/gone/1001/5" tablet_1001 true s in
  (∃ m, run.1 = Failed (InternalError m)) ∧ disk run.2 = disk s ∧ eng run.2 = eng s.
Proof.
  apply (move_rejects_before_writing hdfs_loader "/gone/1001/5" tablet_1001 true
           (Small.start local_disk ∅)).
  right. right. right. reflexivity.
Defined.

Lemma move_without_overwrite_witness :
  (move hdfs_loader "/snap/1001/5" tablet_1001 false (Small.start local_disk ∅)).1
  = Thrown (FatalError "only support overwrite now").
Proof.
  rewrite (move_without_overwrite hdfs_loader "/snap/1001/5" tablet_1001
             (Small.start local_disk ∅) 1001 5 (mkDataDir "/data")
             (Small.put_file local_disk "/snap/1001/5/1001.hdr" (10, "converted")) ());
    reflexivity.
Defined.

Lemma move_done_calls_witness :
  let s := Small.start local_disk ∅ in
  let s' := (move hdfs_loader "/snap/1001/5" tablet_1001 true s).2 in
  let converted :=
    Small.put_file local_disk "/snap/1001/5/1001.hdr" (10, "converted") in
  (fs_list Small.the_local_fs "/snap/1001/5" converted).2
    = [mkFileInfo "1001.hdr" 10; mkFileInfo "1001_0_0.dat" 20] ∧
  true = true ∧
  ∃ (tablet_id schema_hash : Z) (dir : DataDir) (l : Small.Tree) (e : unit),
    _get_tablet_id_and_schema_hash_from_file_path "/snap/1001/5"
      = Ok (tablet_id, schema_hash) ∧
    _get_tablet_id_and_schema_hash_from_file_path (tablet_path tablet_1001)
      = Ok (tablet_id, schema_hash) ∧
    eng_get_store (engine (_env hdfs_loader)) (dir_path (data_dir tablet_1001)) (eng s)
      = Some dir ∧
    eng_convert_rowset_ids (engine (_env hdfs_loader)) "/snap/1001/5" tablet_id
      (replica_id tablet_1001) (table_id tablet_1001) (partition_id tablet_1001)
      schema_hash (disk s) (eng s)
      = (None, l, e) ∧
    ok (fs_list (local_fs (_env hdfs_loader)) "/snap/1001/5" l).1 = true ∧
    calls s' =
      (calls s ++
         [CGetStore (dir_path (data_dir tablet_1001));
          CExists (tablet_path tablet_1001);
          CExists "/snap/1001/5";
          CConvertRowsetIds "/snap/1001/5" tablet_id (replica_id tablet_1001)
            (table_id tablet_1001) (partition_id tablet_1001) schema_hash;
          CTryLock migration_lock;
          CTryLock base_compaction_lock;
          CTryLock cumulative_compaction_lock;
          CTryLock cold_compaction_lock;
          CTryLock build_inverted_index_lock;
          CTryLock meta_store_lock;
          CLocalList "/snap/1001/5";
          CRemoveAll (tablet_path tablet_1001);
          CCreateDirectory (tablet_path tablet_1001)]
         ++ ((λ f, CLink ("/snap/1001/5" +:+ "/" +:+ f)
                     (tablet_path tablet_1001 +:+ "/" +:+ f))
               <$> (file_name
                      <$> (fs_list (local_fs (_env hdfs_loader)) "/snap/1001/5" l).2))
         ++ [CLoadTabletFromDir (dir_path dir) tablet_id schema_hash
               (tablet_path tablet_1001) true])%list.
Proof.
  cbv zeta. split; [vm_compute; reflexivity|].
  apply (move_done_calls hdfs_loader "/snap/1001/5" tablet_1001 true
           (Small.start local_disk ∅)).
  vm_compute. reflexivity.
Defined.

Lemma estimate_timeout_bounds_witness :
  let timeout := estimate_timeout 50 300 104857600 in
  300 ≤ timeout < 2 ^ 64 ∧
  104857600 < (timeout + 1) * 50 * 1024 ∧
  (timeout = 300 ∨ timeout * 50 * 1024 ≤ 104857600).
Proof. apply (estimate_timeout_bounds 50 300 104857600); lia. Defined.

Lemma upload_of_uploaded_snapshot_witness :
  store (upload hdfs_loader {[ "/snap/1001/5" := "/up/__1001" ]}
           (Small.start local_disk remote_complete)).2 = remote_complete.
Proof.
  apply (upload_of_uploaded_snapshot hdfs_loader (Small.the_remote_fs HDFS)
           {[ "/snap/1001/5" := "/up/__1001" ]} (Small.start local_disk remote_complete)).
  - reflexivity.
  - intros src dest [<- <-]%lookup_singleton_Some f Hf.
    assert (file_name <$> (fs_list (local_fs (_env hdfs_loader)) "/snap/1001/5"
                             (disk (Small.start local_disk remote_complete))).2
            = ["1001.hdr"; "1001_0_0.dat"]) as Hnames by (vm_compute; reflexivity).
    rewrite Hnames in Hf.
    apply elem_of_cons in Hf as [->|Hf]; [|apply list_elem_of_singleton in Hf as ->].
    + exists (FileStat.mk "1001.hdr" "aa" 10). split; vm_compute; reflexivity.
    + exists (FileStat.mk "1001_0_0.dat" "bb" 20). split; vm_compute; reflexivity.
Defined.

Lemma upload_tablet_manifest_last_witness :
  tablet_files
    (upload_tablet hdfs_loader (Small.the_remote_fs HDFS) 1 ("/snap/1001/5", "/up/__1001")
       (0, 0) (Small.start local_disk ∅)).2 = ∅.
Proof.
  apply (upload_tablet_manifest_last hdfs_loader (Small.the_remote_fs HDFS) 1
           ("/snap/1001/5", "/up/__1001") (0, 0) (Small.start local_disk ∅)).
  intros acc'. vm_compute. discriminate.
Defined.

Lemma download_records_id_first_witness :
  let reached :=
    logged (logged (Small.start local_disk remote_partial)
              (CReport (mkReport 1 1 DOWNLOAD 0 0)))
           (CIsDirectory "/snap/1001/5") in
  download hdfs_loader {[ "/up/1001" := "/snap/1001/5" ]}
    (Small.start local_disk remote_partial)
  = (Failed (InternalError "invalid remove file path: /up/1001"),
     set_downloaded_tablet_ids reached [1001]).
Proof.
  intros reached.
  destruct (download_records_id_first hdfs_loader (Small.the_remote_fs HDFS)
              {[ "/up/1001" := "/snap/1001/5" ]} (Small.start local_disk remote_partial)
              eq_refl) as [_ H].
  destruct (H [] [] "/up/1001" "/snap/1001/5" (0, 0) reached 1001) as (_ & Herr & _).
  - vm_compute. reflexivity.
  - vm_compute. reflexivity.
  - reflexivity.
  - apply Herr. reflexivity.
Defined.


